(** * Tool registry and multi-transport session layer of the MCP worker

    A shallow embedding of [src/agents/mcp.ts] (classes [McpAgent],
    [WorkerWebSocketTransport], [WorkerSseTransport]) and of
    [src/agents/my-mcp.ts] (the schema compiler [scalarField] /
    [jsonSchemaFromField], on descriptors of the declared type and on the
    unchecked values of a parsed configuration, and the concrete agent
    [MyMCP]), followed by the properties of the registry, the schema
    compiler, the lazy initializer and the split-channel session table. *)

From Stdlib Require Import ZArith Bool Ascii String Lia.
From stdpp Require Import base option list strings gmap fin_maps sorting pretty.

Set Warnings "-register-all".

Local Open Scope string_scope.
Local Open Scope list_scope.

(** ** JavaScript values *)

(** The values that travel through the code: arguments of tools, JSON
    bodies and the generated wire-schema documents.  An object is the list
    of its own enumerable entries in [Object.entries] order; a JavaScript
    object has pairwise distinct keys, which the list does not enforce.
    Numbers are carried as an integer payload: the code only inspects their
    type tag and whether they are zero. *)
Inductive jsval : Type :=
| JUndefined
| JNull
| JBool (b : bool)
| JNum (n : Z)
| JStr (s : string)
| JArr (xs : list jsval)
| JObj (fields : list (string * jsval)).

(** [o[k]] on the entries of an object: the first entry named [k]. *)
Fixpoint obj_lookup {A : Type} (k : string) (fields : list (string * A)) : option A :=
  match fields with
  | [] => None
  | (k', v) :: rest => if String.eqb k k' then Some v else obj_lookup k rest
  end.

(** [k in o]. *)
Definition obj_has {A : Type} (k : string) (fields : list (string * A)) : bool :=
  match obj_lookup k fields with Some _ => true | None => false end.

(** Property read on a value: [v.k], [undefined] when absent. *)
Definition js_get (k : string) (v : jsval) : jsval :=
  match v with
  | JObj fields => default JUndefined (obj_lookup k fields)
  | _ => JUndefined
  end.

(** [o[k] = v]: overwrite in place when the key exists, append otherwise. *)
Fixpoint obj_set {A : Type} (k : string) (v : A) (fields : list (string * A))
  : list (string * A) :=
  match fields with
  | [] => [(k, v)]
  | (k', v') :: rest =>
      if String.eqb k k' then (k', v) :: rest else (k', v') :: obj_set k v rest
  end.

(** [Object.fromEntries(entries)]: the entries are set one after the other
    on an empty object. *)
Definition fromEntries {A : Type} (entries : list (string * A)) : list (string * A) :=
  fold_left (fun o kv => obj_set kv.1 kv.2 o) entries [].

(** [x ?? d] *)
Definition nullish (v : jsval) : bool :=
  match v with JUndefined | JNull => true | _ => false end.

Definition coalesce (v d : jsval) : jsval := if nullish v then d else v.

(** ** The fragment of the zod validation library the code uses *)

(** zod is a third-party package.  The model follows its documented
    behaviour for the constructors that appear in the source: primitives
    check the type of the value, [z.any()] accepts everything, an object
    schema parses every declared key, drops undeclared keys unless a
    catch-all schema is given, in which case every undeclared key is parsed
    with it and kept, and reports the issues of all members; a member named
    [__proto__] is parsed like any other and left out of the output. *)
Module Zod.

(** Refinements attached to a string or number schema by [.url()],
    [.int()], [.min(n)], [.max(n)], [.positive()]. *)
Inductive Check : Type :=
| Url | Int | Min (n : Z) | Max (n : Z) | Positive.

(** Schemas built by [z.string()], [z.number()], [z.boolean()], [z.any()],
    [z.enum], [z.array], [z.record], [z.object(shape)] (unknown keys
    stripped) with an optional [.catchall(schema)], and [.optional()]. *)
Inductive ZodType : Type :=
| ZString (checks : list Check)
| ZNumber (checks : list Check)
| ZBoolean
| ZAny
| ZEnum (values : list string)
| ZArray (element : ZodType)
| ZRecord (value : ZodType)
| ZObject (shape : list (string * ZodType)) (catchall : option ZodType)
| ZOptional (inner : ZodType).

(** A path into the validated value, as reported in a zod issue. *)
Inductive PathSeg : Type := Key (k : string) | Index (i : nat).
Definition Path : Type := list PathSeg.

Inductive ParseResult : Type :=
| Valid (v : jsval)
| Invalid (issues : list Path).

Definition issues_of (r : ParseResult) : list Path :=
  match r with Valid _ => [] | Invalid ps => ps end.

Definition under (seg : PathSeg) (r : ParseResult) : list Path :=
  (fun p => seg :: p) <$> issues_of r.

(** One parsed member of an object: key, whether the key was present in
    the input ([alwaysSet]) and the result for its value. *)
Definition Member : Type := (string * bool * ParseResult)%type.

(** The one key zod's [mergeObject] never writes to its output. *)
Definition writable (k : string) : bool := negb (String.eqb k "__proto__").

(** zod's [mergeObject]: any issue invalidates the object; otherwise a
    member is written when its key is not [__proto__] and its value is
    defined or its key was present. *)
Fixpoint merged_fields (ms : list Member) : list (string * jsval) :=
  match ms with
  | [] => []
  | (k, present, Valid v) :: rest =>
      if writable k then
        match v with
        | JUndefined => if present then (k, v) :: merged_fields rest else merged_fields rest
        | _ => (k, v) :: merged_fields rest
        end
      else merged_fields rest
  | (_, _, Invalid _) :: rest => merged_fields rest
  end.

Definition member_issues (ms : list Member) : list Path :=
  concat ((fun m : Member => under (Key m.1.1) m.2) <$> ms).

Definition mergeObject (ms : list Member) : ParseResult :=
  match member_issues ms with
  | [] => Valid (JObj (merged_fields ms))
  | issues => Invalid issues
  end.

Fixpoint indexed {A : Type} (i : nat) (xs : list A) : list (nat * A) :=
  match xs with
  | [] => []
  | x :: rest => (i, x) :: indexed (S i) rest
  end.

Fixpoint merged_items (rs : list (nat * ParseResult)) : list jsval :=
  match rs with
  | [] => []
  | (_, Valid v) :: rest => v :: merged_items rest
  | (_, Invalid _) :: rest => merged_items rest
  end.

Definition mergeArray (rs : list (nat * ParseResult)) : ParseResult :=
  match concat ((fun r : nat * ParseResult => under (Index r.1) r.2) <$> rs) with
  | [] => Valid (JArr (merged_items rs))
  | issues => Invalid issues
  end.

Section Parse.
(** The refinement predicates belong to the library. *)
Variable check_ok : Check -> jsval -> bool.

Definition run_checks (cs : list Check) (v : jsval) : ParseResult :=
  if forallb (fun c => check_ok c v) cs then Valid v else Invalid [[]].

(** The entries of the input whose key the shape does not declare. *)
Definition extra_entries (shape : list (string * ZodType))
    (fields : list (string * jsval)) : list (string * jsval) :=
  List.filter (fun kv => negb (obj_has kv.1 shape)) fields.

(** [schema.parse(v)] *)
Fixpoint zparse (t : ZodType) (v : jsval) {struct t} : ParseResult :=
  match t with
  | ZString cs => match v with JStr _ => run_checks cs v | _ => Invalid [[]] end
  | ZNumber cs => match v with JNum _ => run_checks cs v | _ => Invalid [[]] end
  | ZBoolean => match v with JBool _ => Valid v | _ => Invalid [[]] end
  | ZAny => Valid v
  | ZEnum values =>
      match v with
      | JStr s => if bool_decide (s ∈ values) then Valid v else Invalid [[]]
      | _ => Invalid [[]]
      end
  | ZArray element =>
      match v with
      | JArr xs => mergeArray ((fun ix : nat * jsval => (ix.1, zparse element ix.2)) <$> indexed 0 xs)
      | _ => Invalid [[]]
      end
  | ZRecord value =>
      match v with
      | JObj fields =>
          mergeObject ((fun kv : string * jsval => (kv.1, true, zparse value kv.2)) <$> fields)
      | _ => Invalid [[]]
      end
  | ZObject shape catchall =>
      match v with
      | JObj fields =>
          let declared : list Member :=
            (fun kt : string * ZodType =>
               (kt.1, obj_has kt.1 fields,
                zparse kt.2 (default JUndefined (obj_lookup kt.1 fields))))
              <$> shape in
          let extras : list Member :=
            match catchall with
            | None => []
            | Some c =>
                (fun kv : string * jsval => (kv.1, true, zparse c kv.2))
                  <$> extra_entries shape fields
            end in
          mergeObject (declared ++ extras)
      | _ => Invalid [[]]
      end
  | ZOptional inner =>
      match v with
      | JUndefined => Valid JUndefined
      | _ => zparse inner v
      end
  end.
End Parse.

End Zod.
Import Zod.

(** ** Declarative field descriptors ([src/types.ts]) *)

(** The tag [field.type]; [TyOther] stands for any tag the [switch]
    statements send to their [default] branch (the configuration is parsed
    JSON, cast without a check). *)
Inductive FieldType : Type :=
| TyString | TyNumber | TyBoolean | TyArray | TyObject | TyOther.

(** [RemoteToolField].  [field_optional] is the truthiness of
    [field.optional]; [field_properties] lists the entries of the
    [properties] record in [Object.entries] order. *)
Inductive RemoteToolField : Type := mkField {
  field_type : FieldType;
  field_description : option string;
  field_optional : bool;
  field_items : option RemoteToolField;
  field_properties : option (list (string * RemoteToolField)) }.

(** [RemoteToolConfig], as read at run time: [name] and [endpoint] are
    reached through [config?.name] and [config?.endpoint], so they may be
    missing. *)
Record RemoteToolConfig : Type := mkConfig {
  config_name : option string;
  config_description : option string;
  config_endpoint : option string;
  config_method : option string;
  config_headers : option (list (string * string));
  config_schema : option (list (string * RemoteToolField)) }.

(** [Env]: the service bindings (ASSETS, DB, KV, ...) are handles to
    external collaborators; the registry layer only reads
    [MCP_REMOTE_TOOLS]. *)
Record Env : Type := mkEnv { MCP_REMOTE_TOOLS : option string }.

(** ** Schema compiler ([src/agents/my-mcp.ts]) *)

Definition js_opt_string (o : option string) : jsval :=
  match o with Some s => JStr s | None => JUndefined end.

(** [value.optional ? schema.optional() : schema] *)
Definition optional_if (opt : bool) (schema : ZodType) : ZodType :=
  if opt then ZOptional schema else schema.

(** [scalarField]: the runtime validator of a descriptor. *)
Fixpoint scalarField (field : RemoteToolField) : ZodType :=
  match field with
  | mkField ty _ _ its props =>
      match ty with
      | TyString => ZString []
      | TyNumber => ZNumber []
      | TyBoolean => ZBoolean
      | TyArray =>
          ZArray (match its with Some i => scalarField i | None => ZAny end)
      | TyObject =>
          ZObject
            (fromEntries
               match props with
               | Some entries =>
                   (fun kv : string * RemoteToolField =>
                      (kv.1, optional_if (field_optional kv.2) (scalarField kv.2)))
                     <$> entries
               | None => []
               end)
            None
      | TyOther => ZAny
      end
  end.

(** The keys of the entries not marked optional:
    [entries.filter(([, value]) => !value.optional).map(([key]) => key)]. *)
Definition required_keys (entries : list (string * RemoteToolField)) : list string :=
  (List.filter (fun kv => negb (field_optional kv.2)) entries).*1.

(** [jsonSchemaFromField]: the wire-schema document of a descriptor. *)
Fixpoint jsonSchemaFromField (field : RemoteToolField) : jsval :=
  match field with
  | mkField ty descr _ its props =>
      match ty with
      | TyString => JObj [("type", JStr "string"); ("description", js_opt_string descr)]
      | TyNumber => JObj [("type", JStr "number"); ("description", js_opt_string descr)]
      | TyBoolean => JObj [("type", JStr "boolean"); ("description", js_opt_string descr)]
      | TyArray =>
          JObj [("type", JStr "array");
                ("description", js_opt_string descr);
                ("items", match its with
                          | Some i => jsonSchemaFromField i
                          | None => JObj []
                          end)]
      | TyObject =>
          JObj [("type", JStr "object");
                ("description", js_opt_string descr);
                ("properties",
                  JObj (fromEntries
                          match props with
                          | Some entries =>
                              (fun kv : string * RemoteToolField =>
                                 (kv.1, jsonSchemaFromField kv.2)) <$> entries
                          | None => []
                          end));
                ("required", JArr (JStr <$> required_keys (default [] props)))]
      | TyOther => JObj [("description", js_opt_string descr)]
      end
  end.

(** The validator and the wire schema [registerRemoteTools] builds for one
    configured tool from [config.schema ?? {}]. *)
Definition remoteToolSchema (schema : option (list (string * RemoteToolField))) : ZodType :=
  ZObject
    (fromEntries
       ((fun kv : string * RemoteToolField =>
           (kv.1, optional_if (field_optional kv.2) (scalarField kv.2)))
          <$> default [] schema))
    (Some ZAny).

Definition remoteToolJsonSchema (schema : option (list (string * RemoteToolField))) : jsval :=
  JObj [("type", JStr "object");
        ("properties",
          JObj (fromEntries
                  ((fun kv : string * RemoteToolField => (kv.1, jsonSchemaFromField kv.2))
                     <$> default [] schema)));
        ("required", JArr (JStr <$> required_keys (default [] schema)))].

(** ** Requests, responses and tool registrations ([src/agents/mcp.ts]) *)

(** What the handlers read of a [Request]: the method, the path of its URL,
    the [upgrade] header and the outcome of [request.json()] ([None] when
    the body is not JSON). *)
Record Request : Type := mkRequest {
  req_method : string;
  req_pathname : string;
  req_upgrade : option string;
  req_json : option jsval }.

Inductive Body : Type :=
| NoBody
| Text (s : string)
| Json (v : jsval)            (* [JSON.stringify(v)] *)
| EventStream (session : string).

Record Response : Type := mkResponse {
  status : nat;
  body : Body;
  headers : list (string * string) }.

Definition ExecutionContext : Type := nat.

Record AgentState : Type := mkState { remoteTools : list string }.

(** A handler is a closure over the agent; the one of a remote tool also
    captures its configuration entry, the element of the parsed array. *)
Inductive Handler : Type :=
| BrowserRender | D1Query | KvAction | VectorizeAction | DurableTask
| RemoteProxy (config : jsval).

Record ToolRegistration : Type := mkTool {
  tool_name : string;
  tool_description : string;
  tool_schema : option ZodType;
  tool_annotations : option jsval;
  tool_handler : Handler;
  tool_jsonSchema : option jsval }.

(** The argument of [registerTool]. *)
Record ToolDefinition : Type := mkDefinition {
  def_name : string;
  def_description : string;
  def_schema : option ZodType;
  def_annotations : option jsval;
  def_jsonSchemaOverride : option jsval;
  def_handler : Handler }.

Record HandlerParams : Type := mkParams {
  hp_args : jsval;
  hp_env : option Env;
  hp_state : AgentState;
  hp_request : option Request;
  hp_executionCtx : option ExecutionContext }.

Record CallToolResult : Type := mkResult {
  isError : bool;
  content_text : string;
  metadata_endpoint : string }.

Inductive Error : Type :=
| ToolAlreadyRegistered (name : string)   (* [Tool ${name} already registered] *)
| ToolNotFound (name : string)            (* [Tool ${name} not found] *)
| ValidationError (issues : list Path)    (* the ZodError of [parseAsync] *)
| HandlerError (message : string)         (* thrown by a tool handler *)
| BodyNotJson                             (* [request.json()] rejected *)
| TypeError (message : string)
| StackOverflow.                          (* [RangeError]: the call stack is exhausted *)

Inductive Result (A : Type) : Type :=
| Ok (a : A)
| Throw (e : Error).
Arguments Ok {A} a.
Arguments Throw {A} e.

Definition and_then {A B : Type} (r : Result A) (k : A -> Result B) : Result B :=
  match r with
  | Ok x => k x
  | Throw e => Throw e
  end.

(** [xs.map(f)] for a callback that may throw: the elements are visited in
    order and the first exception ends the loop. *)
Fixpoint traverse {A B : Type} (f : A -> Result B) (xs : list A) : Result (list B) :=
  match xs with
  | [] => Ok []
  | x :: rest => and_then (f x) (fun y => and_then (traverse f rest) (fun ys => Ok (y :: ys)))
  end.

(** ** The configuration as [JSON.parse] returns it *)

(** [registerRemoteTools] casts the parsed text to [RemoteToolConfig[]]
    without a check, so the schema compiler runs on whatever values the text
    holds.  This section gives the compiler on such values, and the values
    that the declared types describe. *)

(** Truthiness of a value. *)
Definition js_truthy (v : jsval) : bool :=
  match v with
  | JUndefined | JNull => false
  | JBool b => b
  | JNum n => negb (n =? 0)%Z
  | JStr s => negb (String.eqb s "")
  | JArr _ | JObj _ => true
  end.

(** [Object.entries(v ?? {})]: the members of an object, the elements of an
    array and the characters of a string under their indices, nothing for
    the other values. *)
Definition own_entries (v : jsval) : list (string * jsval) :=
  match v with
  | JObj fields => fields
  | JArr xs => (fun ix : nat * jsval => (pretty ix.1, ix.2)) <$> indexed 0 xs
  | JStr s =>
      (fun ic : nat * ascii => (pretty ic.1, JStr (String ic.2 "")))
        <$> indexed 0 (list_ascii_of_string s)
  | _ => []
  end.

(** The number of nodes of a value: the depth of the recursion of the
    compiler on it stays below. *)
Fixpoint jsize (v : jsval) : nat :=
  match v with
  | JArr xs => S (sum_list_with jsize xs)
  | JObj fields => S (sum_list_with (fun kv : string * jsval => jsize kv.2) fields)
  | _ => 1
  end.

(** The error of reading a property of [null] or [undefined]. *)
Definition reading (property : string) (v : jsval) : Error :=
  TypeError
    ("Cannot read properties of "
       +:+ match v with JNull => "null" | _ => "undefined" end
       +:+ " (reading '" +:+ property +:+ "')").

Module Unchecked.

(** [scalarField] on a value that has not been checked against
    [RemoteToolField]; [fuel] bounds the depth of the recursion, and fuel
    for the size of the value is never used up (lemma
    [scalarField_throws]). *)
Fixpoint scalarField (fuel : nat) (field : jsval) : Result ZodType :=
  match fuel with
  | 0 => Throw StackOverflow
  | S fuel =>
      if nullish field then Throw (reading "type" field)
      else
        match js_get "type" field with
        | JStr tag =>
            if String.eqb tag "string" then Ok (ZString [])
            else if String.eqb tag "number" then Ok (ZNumber [])
            else if String.eqb tag "boolean" then Ok ZBoolean
            else if String.eqb tag "array" then
              if js_truthy (js_get "items" field) then
                and_then (scalarField fuel (js_get "items" field))
                  (fun element => Ok (ZArray element))
              else Ok (ZArray ZAny)
            else if String.eqb tag "object" then
              and_then
                (traverse
                   (fun kv : string * jsval =>
                      if nullish kv.2 then Throw (reading "optional" kv.2)
                      else
                        and_then (scalarField fuel kv.2)
                          (fun schema =>
                             Ok (kv.1,
                                 optional_if (js_truthy (js_get "optional" kv.2)) schema)))
                   (own_entries (js_get "properties" field)))
                (fun shape => Ok (ZObject (fromEntries shape) None))
            else Ok ZAny
        | _ => Ok ZAny
        end
  end.

(** The keys of the entries whose [optional] is not truthy. *)
Definition required_keys (entries : list (string * jsval)) : list string :=
  (List.filter (fun kv : string * jsval => negb (js_truthy (js_get "optional" kv.2)))
     entries).*1.

(** [jsonSchemaFromField] on such a value.  The filter that computes
    [required] reads [value.optional] of children that [jsonSchemaFromField]
    has just been through, so it does not throw. *)
Fixpoint jsonSchemaFromField (fuel : nat) (field : jsval) : Result jsval :=
  match fuel with
  | 0 => Throw StackOverflow
  | S fuel =>
      if nullish field then Throw (reading "type" field)
      else
        let description := js_get "description" field in
        match js_get "type" field with
        | JStr tag =>
            if String.eqb tag "string" then
              Ok (JObj [("type", JStr "string"); ("description", description)])
            else if String.eqb tag "number" then
              Ok (JObj [("type", JStr "number"); ("description", description)])
            else if String.eqb tag "boolean" then
              Ok (JObj [("type", JStr "boolean"); ("description", description)])
            else if String.eqb tag "array" then
              and_then
                (if js_truthy (js_get "items" field)
                 then jsonSchemaFromField fuel (js_get "items" field)
                 else Ok (JObj []))
                (fun items =>
                   Ok (JObj [("type", JStr "array");
                             ("description", description);
                             ("items", items)]))
            else if String.eqb tag "object" then
              let entries := own_entries (js_get "properties" field) in
              and_then
                (traverse
                   (fun kv : string * jsval =>
                      and_then (jsonSchemaFromField fuel kv.2) (fun doc => Ok (kv.1, doc)))
                   entries)
                (fun properties =>
                   Ok (JObj [("type", JStr "object");
                             ("description", description);
                             ("properties", JObj (fromEntries properties));
                             ("required", JArr (JStr <$> required_keys entries))]))
            else Ok (JObj [("description", description)])
        | _ => Ok (JObj [("description", description)])
        end
  end.

(** No descriptor that the two compilers read in [field] is [null] or
    [undefined]: [field] itself is not, nor is what they descend into,
    [items] under an array tag when it is truthy and the members of
    [properties] under an object tag. *)
Fixpoint described (fuel : nat) (field : jsval) : bool :=
  match fuel with
  | 0 => false
  | S fuel =>
      negb (nullish field)
      && match js_get "type" field with
         | JStr tag =>
             if String.eqb tag "array" then
               negb (js_truthy (js_get "items" field))
               || described fuel (js_get "items" field)
             else if String.eqb tag "object" then
               forallb (fun kv : string * jsval => described fuel kv.2)
                 (own_entries (js_get "properties" field))
             else true
         | _ => true
         end
  end.

(** The shape [registerRemoteTools] builds from [config.schema ?? {}]:
    [scalarField(field)] first, then [field.optional]. *)
Definition remoteToolShape (fuel : nat) (schema : jsval) : Result (list (string * ZodType)) :=
  traverse
    (fun kv : string * jsval =>
       and_then (scalarField fuel kv.2)
         (fun validator =>
            Ok (kv.1, optional_if (js_truthy (js_get "optional" kv.2)) validator)))
    (own_entries schema).

(** The wire schema it builds next. *)
Definition remoteToolJsonSchema (fuel : nat) (schema : jsval) : Result jsval :=
  and_then
    (traverse
       (fun kv : string * jsval =>
          and_then (jsonSchemaFromField fuel kv.2) (fun doc => Ok (kv.1, doc)))
       (own_entries schema))
    (fun properties =>
       Ok (JObj [("type", JStr "object");
                 ("properties", JObj (fromEntries properties));
                 ("required", JArr (JStr <$> required_keys (own_entries schema)))])).
End Unchecked.

(** *** The values of the declared types *)

Definition member (k : string) (v : option jsval) : list (string * jsval) :=
  match v with
  | Some x => [(k, x)]
  | None => []
  end.

(** The tag of a descriptor; a descriptor of any other kind is one without
    a [type]. *)
Definition tag_json (ty : FieldType) : option jsval :=
  match ty with
  | TyString => Some (JStr "string")
  | TyNumber => Some (JStr "number")
  | TyBoolean => Some (JStr "boolean")
  | TyArray => Some (JStr "array")
  | TyObject => Some (JStr "object")
  | TyOther => None
  end.

(** The JSON value of a descriptor: the members that are present, in the
    order of the declaration. *)
Fixpoint field_json (field : RemoteToolField) : jsval :=
  match field with
  | mkField ty descr opt its props =>
      JObj (member "type" (tag_json ty)
            ++ member "description" (JStr <$> descr)
            ++ member "optional" (if opt then Some (JBool true) else None)
            ++ member "items" match its with
                              | Some i => Some (field_json i)
                              | None => None
                              end
            ++ member "properties"
                 match props with
                 | Some entries =>
                     Some (JObj ((fun kv : string * RemoteToolField =>
                                    (kv.1, field_json kv.2)) <$> entries))
                 | None => None
                 end)
  end.

Definition schema_json (schema : list (string * RemoteToolField)) : jsval :=
  JObj ((fun kv : string * RemoteToolField => (kv.1, field_json kv.2)) <$> schema).

(** The JSON value of a configuration entry. *)
Definition config_json (config : RemoteToolConfig) : jsval :=
  JObj (member "name" (JStr <$> config_name config)
        ++ member "description" (JStr <$> config_description config)
        ++ member "endpoint" (JStr <$> config_endpoint config)
        ++ member "method" (JStr <$> config_method config)
        ++ member "headers"
             ((fun hs : list (string * string) =>
                 JObj ((fun kv : string * string => (kv.1, JStr kv.2)) <$> hs))
                <$> config_headers config)
        ++ member "schema" (schema_json <$> config_schema config)).

(** ** Transports *)

Inductive SocketEvent : Type := MessageEvent | CloseEvent | ErrorEvent.

(** The server side of a [WebSocketPair]: the listeners added so far, in
    order.  Every [addEventListener] call of [start] passes a fresh
    closure, so every call adds a listener. *)
Record WebSocket : Type := mkSocket { listeners : list SocketEvent }.

Definition addEventListener (e : SocketEvent) (socket : WebSocket) : WebSocket :=
  {| listeners := listeners socket ++ [e] |}.

Record WorkerWebSocketTransport : Type := mkWsTransport {
  ws_started : bool;
  ws_socket : WebSocket }.

(** [WorkerWebSocketTransport.start] *)
Definition ws_start (t : WorkerWebSocketTransport) : WorkerWebSocketTransport :=
  if ws_started t then t
  else
    {| ws_started := true;
       ws_socket :=
         addEventListener ErrorEvent
           (addEventListener CloseEvent
              (addEventListener MessageEvent (ws_socket t))) |}.

(** [WorkerSseTransport]: the callbacks are set by the protocol server when
    it connects; the model records whether each one is attached. *)
Record WorkerSseTransport : Type := mkSseTransport {
  sse_started : bool;
  sse_sessionId : option string;
  sse_onmessage : bool;
  sse_onclose : bool }.

(** [new WorkerSseTransport(id, sendChunk, closeStream)] *)
Definition new_sse_transport (session : string) : WorkerSseTransport :=
  {| sse_started := false; sse_sessionId := Some session;
     sse_onmessage := false; sse_onclose := false |}.

(** [WorkerSseTransport.start] *)
Definition sse_start (t : WorkerSseTransport) : WorkerSseTransport :=
  if sse_started t then t
  else
    {| sse_started := true; sse_sessionId := sse_sessionId t;
       sse_onmessage := sse_onmessage t; sse_onclose := sse_onclose t |}.

(** [server.connect(transport)] of the protocol SDK: attaches its callbacks
    to the transport and starts it. *)
Definition connect (t : WorkerSseTransport) : WorkerSseTransport :=
  sse_start
    {| sse_started := sse_started t; sse_sessionId := sse_sessionId t;
       sse_onmessage := true; sse_onclose := true |}.

(** A split-channel session as stored in [sseSessions], together with the
    objects its closures hold: the stream controller (open or closed) and
    the heartbeat interval (running or cleared). *)
Record SseSession : Type := mkSession {
  session_id : string;
  session_transport : WorkerSseTransport;
  stream_open : bool;
  heartbeat_running : bool }.

(** What the code does to its collaborators, in order. *)
Inductive Event : Type :=
| ConsoleError (message : string)
| ConsoleWarn (message : string)
| StateUpdate (next : AgentState)                 (* [onStateUpdate(next)] *)
| InitCall                                        (* [this.init()] *)
| ParseAsync (tool : string) (args : jsval)       (* [tool.schema.parseAsync(args)] *)
| HandlerCall (tool : string) (params : HandlerParams)
| Receive (session : string) (message : jsval)    (* [transport.receive(message)] *)
| OnMessage (session : string) (message : jsval)  (* [this.onmessage(message)] *)
| OnClose (session : string)                      (* [this.onclose()] *)
| ServerClose (session : string)                  (* [server.close()] *)
| ClearInterval (session : string).

(** ** The agent *)

Record McpAgent : Type := mkAgent {
  state : AgentState;
  env : option Env;
  executionCtx : option ExecutionContext;
  initialized : bool;
  tools : gmap string ToolRegistration;
  sseSessions : gmap string SseSession;
  trace : list Event }.

(** [new MyMCP()] *)
Definition new_agent : McpAgent :=
  {| state := {| remoteTools := [] |}; env := None; executionCtx := None;
     initialized := false; tools := ∅; sseSessions := ∅; trace := [] |}.

Definition set_state (s : AgentState) (a : McpAgent) : McpAgent :=
  {| state := s; env := env a; executionCtx := executionCtx a;
     initialized := initialized a; tools := tools a;
     sseSessions := sseSessions a; trace := trace a |}.

Definition set_env_ctx (e : Env) (c : ExecutionContext) (a : McpAgent) : McpAgent :=
  {| state := state a; env := Some e; executionCtx := Some c;
     initialized := initialized a; tools := tools a;
     sseSessions := sseSessions a; trace := trace a |}.

Definition set_initialized (b : bool) (a : McpAgent) : McpAgent :=
  {| state := state a; env := env a; executionCtx := executionCtx a;
     initialized := b; tools := tools a;
     sseSessions := sseSessions a; trace := trace a |}.

Definition set_tools (t : gmap string ToolRegistration) (a : McpAgent) : McpAgent :=
  {| state := state a; env := env a; executionCtx := executionCtx a;
     initialized := initialized a; tools := t;
     sseSessions := sseSessions a; trace := trace a |}.

Definition set_sseSessions (s : gmap string SseSession) (a : McpAgent) : McpAgent :=
  {| state := state a; env := env a; executionCtx := executionCtx a;
     initialized := initialized a; tools := tools a;
     sseSessions := s; trace := trace a |}.

Definition emit (evs : list Event) (a : McpAgent) : McpAgent :=
  {| state := state a; env := env a; executionCtx := executionCtx a;
     initialized := initialized a; tools := tools a;
     sseSessions := sseSessions a; trace := trace a ++ evs |}.

(** Methods run on the agent and either return or throw. *)
Definition M (A : Type) : Type := McpAgent -> Result A * McpAgent.

Definition ret {A : Type} (x : A) : M A := fun a => (Ok x, a).
Definition throw {A : Type} (e : Error) : M A := fun a => (Throw e, a).
Definition bind {A B : Type} (m : M A) (k : A -> M B) : M B :=
  fun a =>
    match m a with
    | (Ok x, a') => k x a'
    | (Throw e, a') => (Throw e, a')
    end.
Definition modify (f : McpAgent -> McpAgent) : M unit := fun a => (Ok tt, f a).

Notation "'run' x <~ m ;; k" := (bind m (fun x => k))
  (at level 10, x name, m at level 99, k at level 200, only parsing).

(** [setState]: replace the shared state and notify the hook. *)
Definition setState (next : AgentState) : M unit :=
  modify (fun a => emit [StateUpdate next] (set_state next a)).

(** The record [registerTool] stores for a definition: [schema] defaults to
    [null], the override becomes [jsonSchema]. *)
Definition registration_of (definition : ToolDefinition) : ToolRegistration :=
  {| tool_name := def_name definition;
     tool_description := def_description definition;
     tool_schema := def_schema definition;
     tool_annotations := def_annotations definition;
     tool_handler := def_handler definition;
     tool_jsonSchema := def_jsonSchemaOverride definition |}.

(** [registerTool] *)
Definition registerTool (definition : ToolDefinition) : M unit :=
  fun a =>
    let name := def_name definition in
    match tools a !! name with
    | Some _ => (Throw (ToolAlreadyRegistered name), a)
    | None =>
        (Ok tt, set_tools (<[name := registration_of definition]> (tools a)) a)
    end.

(** [ensureInitialized], run without interruption; [init] is the abstract
    method of the subclass. *)
Definition ensureInitialized (init : M unit) (e : Env) (c : ExecutionContext) : M unit :=
  fun a =>
    if negb (initialized a) then
      match init (emit [InitCall] (set_env_ctx e c a)) with
      | (Ok _, a') => (Ok tt, set_initialized true a')
      | (Throw err, a') => (Throw err, a')
      end
    else (Ok tt, set_env_ctx e c a).

(** One invocation of [ensureInitialized] as the event loop runs it: the
    body up to [await this.init()] runs when the method is called, the
    assignment of the flag when the invocation is resumed.  Other
    invocations may run in between.  The effects of [init] are placed at the
    call: in [MyMCP.init] every registration happens before the first
    suspension, [registerRemoteTools] having no [await] of its own. *)
Inductive InitInvocation : Type :=
| Called (e : Env) (c : ExecutionContext)
| Awaiting (r : Result unit)
| Settled (r : Result unit).

Definition ensureInitialized_step (init : M unit) (i : InitInvocation) (a : McpAgent)
  : InitInvocation * McpAgent :=
  match i with
  | Called e c =>
      if negb (initialized a) then
        let (r, a') := init (emit [InitCall] (set_env_ctx e c a)) in (Awaiting r, a')
      else (Settled (Ok tt), set_env_ctx e c a)
  | Awaiting (Ok _) => (Settled (Ok tt), set_initialized true a)
  | Awaiting (Throw err) => (Settled (Throw err), a)
  | Settled r => (Settled r, a)
  end.

(** A schedule names, step after step, the invocation that runs next. *)
Fixpoint run_schedule (init : M unit) (schedule : list nat)
    (pending : list InitInvocation) (a : McpAgent) : list InitInvocation * McpAgent :=
  match schedule with
  | [] => (pending, a)
  | n :: rest =>
      match pending !! n with
      | Some i =>
          let (i', a') := ensureInitialized_step init i a in
          run_schedule init rest (<[n := i']> pending) a'
      | None => run_schedule init rest pending a
      end
  end.

(** How often [init] was entered. *)
Definition init_count (a : McpAgent) : nat :=
  length (List.filter (fun ev => match ev with InitCall => true | _ => false end) (trace a)).

(** The collaborators the layer calls into: zod's refinement predicates,
    [JSON.parse] on the configuration text ([None] when it throws), the
    text [String(v)] of a value that is not a string, and the bodies of the
    tool handlers, which talk to external services. *)
Class Platform : Type := mkPlatform {
  check_ok : Check -> jsval -> bool;
  JSON_parse : string -> option jsval;
  String_of : jsval -> string;
  run_handler : Handler -> HandlerParams -> Result CallToolResult }.

Section Agent.
Context {platform : Platform}.

(** [tool.schema.parseAsync(args)] *)
Definition parseAsync (tool : string) (schema : ZodType) (args : jsval) : M jsval :=
  fun a =>
    match zparse check_ok schema args with
    | Valid v => (Ok v, emit [ParseAsync tool args] a)
    | Invalid issues => (Throw (ValidationError issues), emit [ParseAsync tool args] a)
    end.

(** [tool.handler(params)] *)
Definition call_handler (tool : ToolRegistration) (params : HandlerParams)
  : M CallToolResult :=
  fun a => (run_handler (tool_handler tool) params,
            emit [HandlerCall (tool_name tool) params] a).

(** [invokeTool] *)
Definition invokeTool (init : M unit) (name : string) (args : jsval)
    (request : option Request) (e : Env) (c : ExecutionContext) : M CallToolResult :=
  run _ <~ ensureInitialized init e c ;;
  run tool <~ (fun a =>
                 match tools a !! name with
                 | Some tool => (Ok tool, a)
                 | None => (Throw (ToolNotFound name), a)
                 end) ;;
  run parsedArgs <~ match tool_schema tool with
                    | Some schema => parseAsync name schema (coalesce args (JObj []))
                    | None => ret (coalesce args (JObj []))
                    end ;;
  fun a =>
    call_handler tool
      {| hp_args := parsedArgs; hp_env := env a; hp_state := state a;
         hp_request := request; hp_executionCtx := executionCtx a |} a.

(** The [toolCallback] that [createServer] hands to the protocol server
    for [tool]. *)
Definition toolCallback (e : Env) (c : ExecutionContext) (tool : ToolRegistration)
    (args : jsval) (request : option Request) : M CallToolResult :=
  run parsedArgs <~ match tool_schema tool with
                    | Some schema => parseAsync (tool_name tool) schema args
                    | None => ret (coalesce args (JObj []))
                    end ;;
  fun a =>
    call_handler tool
      {| hp_args := parsedArgs; hp_env := Some e; hp_state := state a;
         hp_request := request; hp_executionCtx := Some c |} a.

(** *** Split-channel sessions *)

(** [s.replace(pattern, empty)] for a string pattern: the first occurrence
    is removed. *)
Definition remove_first (pattern s : string) : string :=
  match String.index 0 pattern s with
  | Some i =>
      String.substring 0 i s
        +:+ String.substring (i + String.length pattern)
              (String.length s - (i + String.length pattern)) s
  | None => s
  end.

(** [s.replace(/^\/+/, empty)] *)
Fixpoint strip_leading_slashes (s : string) : string :=
  match s with
  | String "/"%char rest => strip_leading_slashes rest
  | _ => s
  end.

Definition sessionId_of (endpoint : string) (request : Request) : string :=
  strip_leading_slashes (remove_first endpoint (req_pathname request)).

(** [WorkerSseTransport.receive] on the transport of session [id]; an
    exception of the callback is caught and handed to [onerror]. *)
Definition receive (id : string) (t : WorkerSseTransport) (message : jsval) : list Event :=
  if sse_onmessage t then [Receive id message; OnMessage id message]
  else [Receive id message].

(** [WorkerSseTransport.close]: [closeStream()] closes the controller (a
    second close is caught and logged), then [onclose] fires. *)
Definition transport_close (s : SseSession) : SseSession * list Event :=
  ({| session_id := session_id s; session_transport := session_transport s;
      stream_open := false; heartbeat_running := heartbeat_running s |},
   (if stream_open s then [] else [ConsoleWarn "SSE stream already closed"])
     ++ (if sse_onclose (session_transport s) then [OnClose (session_id s)] else [])).

(** [cleanup], the [close] of a split-channel session. *)
Definition cleanup (s : SseSession) : SseSession * list Event :=
  let s1 :=
    {| session_id := session_id s; session_transport := session_transport s;
       stream_open := stream_open s; heartbeat_running := false |} in
  let (s2, evs) := transport_close s1 in
  (s2, [ClearInterval (session_id s)] ++ evs ++ [ServerClose (session_id s)]).

(** The [cancel] callback of the stream of session [id].  The stream is
    already closed when its source is asked to cancel, so the
    [controller.close()] of the cleanup is the caught second close. *)
Definition stream_cancel (id : string) : M unit :=
modify (fun a =>
  let a' :=
    match sseSessions a !! id with
    | Some session =>
        emit (cleanup
                {| session_id := session_id session;
                   session_transport := session_transport session;
                   stream_open := false;
                   heartbeat_running := heartbeat_running session |}).2 a
    | None => a
    end in
  set_sseSessions (delete id (sseSessions a')) a').

(** [close] of the transport of session [id], called on its own: the
    close a protocol server makes from its side.  The source calls
    [transport.close()] from [cleanup] only. *)
Definition server_close (id : string) : M unit :=
  modify (fun a =>
    match sseSessions a !! id with
    | Some session =>
        let (session', evs) := transport_close session in
        emit evs (set_sseSessions (<[id := session']> (sseSessions a)) a)
    | None => a
    end).

Definition deliver (id : string) (t : WorkerSseTransport) (messages : list jsval)
  : list Event :=
  concat (receive id t <$> messages).

(** [handleSseRequest]; [uuid] is what [crypto.randomUUID()] returns. *)
Definition handleSseRequest (init : M unit) (uuid : string) (request : Request)
    (e : Env) (c : ExecutionContext) (endpoint : string) : M Response :=
  let sessionId := sessionId_of endpoint request in
  if String.eqb (req_method request) "GET" && String.eqb sessionId "" then
    run _ <~ ensureInitialized init e c ;;
    let id := uuid in
    let transport := connect (new_sse_transport id) in
    run _ <~ modify (fun a =>
               set_sseSessions
                 (<[id := {| session_id := id; session_transport := transport;
                             stream_open := true; heartbeat_running := true |}]>
                    (sseSessions a)) a) ;;
    ret {| status := 200; body := EventStream id;
           headers := [("content-type", "text/event-stream; charset=utf-8");
                       ("cache-control", "no-cache, no-transform");
                       ("connection", "keep-alive");
                       ("x-mcp-session", id);
                       ("access-control-expose-headers", "x-mcp-session")] |}
  else if String.eqb sessionId "" then
    ret {| status := 400; body := Text "Missing session ID"; headers := [] |}
  else
    fun a =>
      match sseSessions a !! sessionId with
      | None => (Ok {| status := 404; body := Text "Session not found"; headers := [] |}, a)
      | Some session =>
          if String.eqb (req_method request) "POST" then
            match req_json request with
            | None => (Throw BodyNotJson, a)
            | Some body =>
                let messages := match body with JArr xs => xs | _ => [body] end in
                (Ok {| status := 200; body := Json (JObj [("ok", JBool true)]);
                       headers := [("content-type", "application/json")] |},
                 emit (deliver sessionId (session_transport session) messages) a)
            end
          else if String.eqb (req_method request) "DELETE" then
            let a' := emit (cleanup session).2 a in
            (Ok {| status := 204; body := NoBody; headers := [] |},
             set_sseSessions (delete sessionId (sseSessions a')) a')
          else
            (Ok {| status := 405; body := Text "Unsupported method"; headers := [] |}, a)
      end.
End Agent.

(** ** The concrete agent [MyMCP] ([src/agents/my-mcp.ts]) *)

Module MyMCP.
Section MyMCP.
Context {platform : Platform}.

Definition static_tool (name description : string) (schema : ZodType)
    (handler : Handler) : ToolDefinition :=
  {| def_name := name; def_description := description;
     def_schema := Some schema; def_annotations := None;
     def_jsonSchemaOverride := None; def_handler := handler |}.

Definition registerBrowserTool : M unit :=
  let schema :=
    ZObject
      [("url", ZString [Url]);
       ("endpoint", ZOptional (ZString [Url]));
       ("method", ZOptional (ZEnum ["GET"; "POST"]));
       ("waitFor", ZOptional (ZNumber [Int; Min 0; Max 120000]));
       ("screenshot", ZOptional ZBoolean);
       ("script", ZOptional (ZString []));
       ("headers", ZOptional (ZRecord (ZString [])));
       ("metadata", ZOptional (ZRecord ZAny))]
      None in
  registerTool
    (static_tool "browser_render"
       "Render a web page using Cloudflare Browser Rendering and optionally run a Playwright script."
       schema BrowserRender).

Definition registerD1Tool : M unit :=
  let statementSchema :=
    ZObject [("sql", ZString []); ("params", ZOptional (ZArray ZAny))] None in
  let schema :=
    ZObject
      [("statement", ZOptional statementSchema);
       ("statements", ZOptional (ZArray statementSchema));
       ("readOnly", ZOptional ZBoolean)]
      None in
  registerTool
    (static_tool "d1_query"
       "Execute SQL against the bound D1 database, supporting single or batched statements."
       schema D1Query).

Definition registerKvTool : M unit :=
  let schema :=
    ZObject
      [("action", ZEnum ["get"; "put"; "delete"; "list"]);
       ("key", ZOptional (ZString []));
       ("value", ZOptional (ZString []));
       ("metadata", ZOptional (ZRecord ZAny));
       ("expirationTtl", ZOptional (ZNumber [Int; Positive]));
       ("prefix", ZOptional (ZString []));
       ("limit", ZOptional (ZNumber [Int; Min 1; Max 1000]));
       ("type", ZOptional (ZEnum ["text"; "json"; "arrayBuffer"]))]
      None in
  registerTool
    (static_tool "kv" "Perform CRUD operations against the bound KV namespace."
       schema KvAction).

Definition registerVectorizeTool : M unit :=
  let vectorSchema :=
    ZObject
      [("id", ZString []);
       ("values", ZArray (ZNumber []));
       ("metadata", ZOptional (ZRecord ZAny))]
      None in
  let schema :=
    ZObject
      [("action", ZEnum ["upsert"; "query"; "delete"]);
       ("vectors", ZOptional (ZArray vectorSchema));
       ("vector", ZOptional (ZArray (ZNumber [])));
       ("topK", ZOptional (ZNumber [Int; Positive]));
       ("filter", ZOptional (ZRecord ZAny));
       ("ids", ZOptional (ZArray (ZString [])))]
      None in
  registerTool
    (static_tool "vectorize"
       "Interact with the Cloudflare Vectorize index for semantic storage and retrieval."
       schema VectorizeAction).

Definition registerDurableTool : M unit :=
  let schema :=
    ZObject
      [("action", ZEnum ["start"; "status"; "list"; "cancel"]);
       ("taskId", ZOptional (ZString []));
       ("payload",
         ZOptional
           (ZObject
              [("operation", ZString []);
               ("data", ZOptional (ZRecord ZAny));
               ("durationMs", ZOptional (ZNumber [Int; Positive]))]
              None))]
      None in
  registerTool
    (static_tool "durable_task"
       "Interact with the Durable Object for long-running workflows."
       schema DurableTask).

(** Truthiness of an optional string: [undefined] and the empty string
    are falsy. *)
Definition truthy (o : option string) : option string :=
  match o with
  | Some s => if String.eqb s "" then None else Some s
  | None => None
  end.

(** The text of a value where the code uses it as a string: in a template
    literal, as the key of the registry and in the list of registered
    names.  The registry and the shared state are declared over strings;
    a name that is not a string appears in them as its text. *)
Definition text (v : jsval) : string :=
  match v with
  | JStr s => s
  | _ => String_of v
  end.

(** The argument of [registerTool] that the loop of [registerRemoteTools]
    builds for one element of the parsed array: the validator, then the wire
    schema, then the object literal.  Reading a descriptor that is [null]
    throws. *)
Definition compile_entry (config : jsval) : Result ToolDefinition :=
  let schema := js_get "schema" config in
  and_then (Unchecked.remoteToolShape (jsize config) schema) (fun shape =>
  and_then (Unchecked.remoteToolJsonSchema (jsize config) schema) (fun jsonSchema =>
  Ok {| def_name := text (js_get "name" config);
        def_description :=
          text (coalesce (js_get "description" config)
                  (JStr ("Proxy request to " +:+ text (js_get "endpoint" config))));
        def_schema := Some (ZObject (fromEntries shape) (Some ZAny));
        def_annotations := None;
        def_jsonSchemaOverride := Some jsonSchema;
        def_handler := RemoteProxy config |})).

(** What [compile_entry] builds for an entry of the declared type that has
    a name and an endpoint (lemma [compile_entry_typed]). *)
Definition remote_definition (config : RemoteToolConfig) (name endpoint : string)
  : ToolDefinition :=
  {| def_name := name;
     def_description :=
       default ("Proxy request to " +:+ endpoint) (config_description config);
     def_schema := Some (remoteToolSchema (config_schema config));
     def_annotations := None;
     def_jsonSchemaOverride := Some (remoteToolJsonSchema (config_schema config));
     def_handler := RemoteProxy (config_json config) |}.

(** The guard of the loop: [!config?.name || !config?.endpoint] skips. *)
Definition has_name_and_endpoint (config : jsval) : bool :=
  js_truthy (js_get "name" config) && js_truthy (js_get "endpoint" config).

(** The loop [for (const config of parsed)] with its accumulator
    [registered]. *)
Fixpoint register_configs (parsed : list jsval) (registered : list string)
  : M (list string) :=
  match parsed with
  | [] => ret registered
  | config :: rest =>
      if has_name_and_endpoint config then
        run definition <~ (fun a => (compile_entry config, a)) ;;
        run _ <~ registerTool definition ;;
        register_configs rest (registered ++ [text (js_get "name" config)])
      else register_configs rest registered
  end.

(** [registerRemoteTools] *)
Definition registerRemoteTools : M unit :=
  fun a =>
    match env a with
    | None => (Throw (TypeError "Cannot read properties of undefined"), a)
    | Some e =>
        match truthy (MCP_REMOTE_TOOLS e) with
        | None => (Ok tt, a)
        | Some raw =>
            match JSON_parse raw with
            | None => (Ok tt, emit [ConsoleError "Failed to parse MCP_REMOTE_TOOLS"] a)
            | Some data =>
                let parsed := match data with JArr configs => configs | _ => [] end in
                (run registered <~ register_configs parsed [] ;;
                 match registered with
                 | [] => ret tt
                 | _ => setState {| remoteTools := registered |}
                 end) a
            end
        end
    end.

(** [init] *)
Definition init : M unit :=
  run _ <~ registerBrowserTool ;;
  run _ <~ registerD1Tool ;;
  run _ <~ registerKvTool ;;
  run _ <~ registerVectorizeTool ;;
  run _ <~ registerDurableTool ;;
  registerRemoteTools.





(** The name of an entry that passes the guard is a string, as the
    registry expects. *)
Definition string_named (config : jsval) : bool :=
  negb (has_name_and_endpoint config)
  || match js_get "name" config with JStr _ => true | _ => false end.

(** The schema of an entry that passes the guard compiles. *)
Definition compiles (config : jsval) : bool :=
  negb (has_name_and_endpoint config)
  || match compile_entry config with Ok _ => true | Throw _ => false end.

(** No descriptor in the schema of an entry that passes the guard is
    [null] where the schema compiler reads it (lemma [compiles_described]:
    these are the entries that compile). *)
Definition schema_described (config : jsval) : bool :=
  negb (has_name_and_endpoint config)
  || forallb (fun kv : string * jsval => Unchecked.described (jsize config) kv.2)
       (own_entries (js_get "schema" config)).

(** The endpoint of an entry that passes the guard is a string, and so is
    its description when it has one. *)
Definition string_described (config : jsval) : bool :=
  negb (has_name_and_endpoint config)
  || (match js_get "endpoint" config with JStr _ => true | _ => false end
      && match js_get "description" config with
         | JStr _ | JUndefined | JNull => true
         | _ => false
         end).

(** An entry the loop can register as the declared types promise. *)
Definition well_formed (config : jsval) : bool :=
  string_named config && string_described config && schema_described config.
End MyMCP.
End MyMCP.

(** ** Vocabulary of the statements *)

(** A level of a descriptor tree is addressed by the path that leads to it:
    into the element descriptor of an array, or into a named property of an
    object. *)
Inductive Step : Type := Items | Property (k : string).

(** The descriptor at a path, descending the way the compiler does: [items]
    is read under an array tag only, [properties] under an object tag only. *)
Fixpoint field_at (path : list Step) (field : RemoteToolField) : option RemoteToolField :=
  match path with
  | [] => Some field
  | Items :: rest =>
      match field_type field, field_items field with
      | TyArray, Some i => field_at rest i
      | _, _ => None
      end
  | Property k :: rest =>
      match field_type field with
      | TyObject =>
          match obj_lookup k (default [] (field_properties field)) with
          | Some v => field_at rest v
          | None => None
          end
      | _ => None
      end
  end.

(** The sub-document of a wire schema at a path: [doc.items], or
    [doc.properties[k]]. *)
Fixpoint schema_at (path : list Step) (doc : jsval) : option jsval :=
  match path with
  | [] => Some doc
  | Items :: rest => schema_at rest (js_get "items" doc)
  | Property k :: rest =>
      match js_get "properties" doc with
      | JObj props =>
          match obj_lookup k props with
          | Some d => schema_at rest d
          | None => None
          end
      | _ => None
      end
  end.

(** Every [properties] record in the tree is a JavaScript object: its keys
    are pairwise distinct. *)
Fixpoint wf_field (field : RemoteToolField) : bool :=
  match field with
  | mkField _ _ _ its props =>
      match its with Some i => wf_field i | None => true end
      && match props with
         | Some entries =>
             bool_decide (NoDup entries.*1)
             && forallb (fun kv : string * RemoteToolField => wf_field kv.2) entries
         | None => true
         end
  end.

(** The wire document [doc] lists the properties of the object descriptor
    [level] and requires exactly those not marked optional. *)
Definition level_ok (level : RemoteToolField) (doc : jsval) : Prop :=
  exists (props : list (string * jsval)) (required : list string),
    js_get "properties" doc = JObj props
    /\ props.*1 = (default [] (field_properties level)).*1
    /\ js_get "required" doc = JArr (JStr <$> required)
    /\ NoDup required
    /\ forall k, k ∈ required <->
         exists v, obj_lookup k (default [] (field_properties level)) = Some v
                   /\ field_optional v = false.

(** The object descriptor a tool configuration's [schema] record amounts to. *)
Definition schema_root (schema : option (list (string * RemoteToolField))) : RemoteToolField :=
  mkField TyObject None false None schema.

(** The messages handed to [receive], respectively to the inbound callback,
    of session [id] in a run of events. *)
Definition received (id : string) (evs : list Event) : list jsval :=
  omap (fun ev => match ev with
                  | Receive id' m => if String.eqb id id' then Some m else None
                  | _ => None
                  end) evs.

(** The states the update hook was notified of in a run of events. *)
Definition state_updates (evs : list Event) : list AgentState :=
  omap (fun ev => match ev with StateUpdate s => Some s | _ => None end) evs.

Definition dispatched (id : string) (evs : list Event) : list jsval :=
  omap (fun ev => match ev with
                  | OnMessage id' m => if String.eqb id id' then Some m else None
                  | _ => None
                  end) evs.

(** The response of a successful POST. *)
Definition ok_response : Response :=
  {| status := 200; body := Json (JObj [("ok", JBool true)]);
     headers := [("content-type", "application/json")] |}.

(** The undeclared entries of an argument object that reach the handler
    of a configured tool: all but those named [__proto__]. *)
Definition forwarded (extras : list (string * jsval)) : list (string * jsval) :=
  List.filter (fun kv : string * jsval => writable kv.1) extras.

(** The arguments a schema-less tool's handler is called with: [args ?? {}]. *)
Definition passed_through (args : jsval) : jsval := coalesce args (JObj []).

(** ** Sample data *)

Module Sample.

Definition leaf (ty : FieldType) (opt : bool) : RemoteToolField :=
  mkField ty None opt None None.

(** [{ city: string, units?: string,
       window: { from: number, to?: number, tags?: string[] } }] *)
Definition forecast_schema : list (string * RemoteToolField) :=
  [("city", leaf TyString false);
   ("units", leaf TyString true);
   ("window",
     mkField TyObject (Some "time window") false None
       (Some [("from", leaf TyNumber false);
              ("to", leaf TyNumber true);
              ("tags", mkField TyArray None true (Some (leaf TyString false)) None)]))].

Definition forecast_field : RemoteToolField :=
  mkField TyObject (Some "forecast query") false None (Some forecast_schema).

Definition forecast : RemoteToolConfig :=
  {| config_name := Some "forecast"; config_description := None;
     config_endpoint := Some "https://tools.example/forecast";
     config_method := None; config_headers := None;
     config_schema := Some forecast_schema |}.

(** An entry without a name. *)
Definition nameless : RemoteToolConfig :=
  {| config_name := None; config_description := Some "no name";
     config_endpoint := Some "https://tools.example/anonymous";
     config_method := None; config_headers := None; config_schema := None |}.

(** An entry that reuses the name of a built-in tool. *)
Definition shadow_kv : RemoteToolConfig :=
  {| config_name := Some "kv"; config_description := None;
     config_endpoint := Some "https://tools.example/kv";
     config_method := None; config_headers := None; config_schema := None |}.

Definition handler_result (h : Handler) (p : HandlerParams) : Result CallToolResult :=
  Ok {| isError := false; content_text := "done"; metadata_endpoint := "sample" |}.

(** An entry whose schema holds [null] where a descriptor is expected:
    [{ name: "lookup", endpoint: ..., schema: { key: null } }]. *)
Definition null_descriptor : jsval :=
  JObj [("name", JStr "lookup");
        ("endpoint", JStr "https://tools.example/lookup");
        ("schema", JObj [("key", JNull)])].

(** A platform whose refinements accept everything, whose handlers all
    answer the same and whose [JSON.parse] knows four configuration
    texts. *)
Definition platform : Platform :=
  {| check_ok := fun _ _ => true;
     JSON_parse := fun raw =>
       if String.eqb raw "one-nameless-one-forecast"
       then Some (JArr [config_json nameless; config_json forecast])
       else if String.eqb raw "one-nameless-one-kv"
       then Some (JArr [config_json nameless; config_json shadow_kv])
       else if String.eqb raw "one-forecast-one-null-descriptor"
       then Some (JArr [config_json forecast; null_descriptor])
       else if String.eqb raw "an-object" then Some (JObj [("name", JStr "forecast")])
       else None;
     String_of := fun _ => "[object Object]";
     run_handler := handler_result |}.

Definition env_of (raw : option string) : Env := {| MCP_REMOTE_TOOLS := raw |}.

(** A tool registered without a schema, and an agent whose [init]
    registers just that tool. *)
Definition ping : ToolDefinition :=
  {| def_name := "ping"; def_description := "Answer every call.";
     def_schema := None; def_annotations := None;
     def_jsonSchemaOverride := None; def_handler := DurableTask |}.

Definition ping_init : M unit := registerTool ping.

(** A request on the split channel mounted at [/sse]. *)
Definition sse_request (method path : string) (json : option jsval) : Request :=
  {| req_method := method; req_pathname := path; req_upgrade := None; req_json := json |}.

Definition message (n : Z) : jsval :=
  JObj [("jsonrpc", JStr "2.0"); ("id", JNum n); ("method", JStr "tools/list")].

(** An agent with one open split-channel session [s-1]. *)
Definition with_session : McpAgent :=
  (handleSseRequest ping_init "s-1" (sse_request "GET" "/sse" None)
     (env_of None) 0 "/sse" new_agent).2.
End Sample.

(** ** Further vocabulary *)

(** Two agents hold the same registry, the same flag and have entered
    [init] equally often. *)
Definition same_registry (a a' : McpAgent) : Prop :=
  tools a' = tools a /\ initialized a' = initialized a /\ init_count a' = init_count a.

(** ** Listing and invoking tools over plain HTTP
       ([listTools] in [src/agents/mcp.ts], the routes of [src/index.ts]) *)





(** The answer of [c.json(value, status)]. *)
Record Reply : Type := mkReply { reply_status : nat; reply_json : jsval }.

(** The JSON form of a tool result, as [wrapToolResult] and [wrapError]
    build it. *)
Definition result_json (r : CallToolResult) : jsval :=
  JObj ((if isError r then [("isError", JBool true)] else [])
        ++ [("content", JArr [JObj [("type", JStr "text"); ("text", JStr (content_text r))]]);
            ("metadata", JObj [("endpoint", JStr (metadata_endpoint r))])]).

(** [error instanceof Error ? error.message : String(error)] for the errors
    of this layer; the texts of the validation library and of the runtime
    are theirs ([runtime_message]). *)
Definition error_message (runtime_message : Error -> string) (err : Error) : string :=
  match err with
  | ToolAlreadyRegistered name => "Tool " +:+ name +:+ " already registered"
  | ToolNotFound name => "Tool " +:+ name +:+ " not found"
  | HandlerError message => message
  | TypeError message => message
  | ValidationError _ | BodyNotJson | StackOverflow => runtime_message err
  end.

Definition error_reply (message : string) : Reply :=
  {| reply_status := 400; reply_json := JObj [("error", JStr message)] |}.

Section Routes.
Context {platform : Platform}.
Variable init : M unit.
Variable zodToJsonSchema : ZodType -> string -> jsval.
Variable runtime_message : Error -> string.


(** [POST /api/tools/:name].  [body] is the outcome of [c.req.json()]: its
    value, or the message of the error it threw. *)
Definition api_invoke (name : string) (body : string + jsval) (request : Request)
    (e : Env) (c : ExecutionContext) (a : McpAgent) : Reply * McpAgent :=
  match body with
  | inl reason => (error_reply ("Invalid JSON body: " +:+ reason), a)
  | inr value =>
      match value with
      | JNull | JUndefined =>
          (error_reply
             (error_message runtime_message
                (TypeError "Cannot read properties of null (reading 'arguments')")), a)
      | _ =>
          match invokeTool init name (coalesce (js_get "arguments" value) (JObj []))
                  (Some request) e c a with
          | (Ok result, a') => ({| reply_status := 200; reply_json := result_json result |}, a')
          | (Throw err, a') => (error_reply (error_message runtime_message err), a')
          end
      end
  end.
End Routes.

(** ** Calling a remote tool ([src/agents/my-mcp.ts]) *)

Module RemoteCall.

(** What the handler hands to [fetch]: the endpoint, the query parameters
    set on its URL, the method, the headers and the body. *)
Record FetchCall : Type := mkCall {
  call_endpoint : string;
  call_query : list (string * string);
  call_method : string;
  call_headers : list (string * string);
  call_body : option string }.

Record FetchResponse : Type := mkFetched {
  response_ok : bool;
  response_status : nat;
  response_text : string }.

Section RemoteCall.
(** The runtime: [JSON.parse], [JSON.stringify] with and without
    indentation, [String.prototype.toUpperCase], whether [new URL] accepts a
    text, and [fetch]. *)
Variable JSON_parse_value : string -> option jsval.
Variable JSON_stringify : jsval -> string.
Variable JSON_stringify_indented : jsval -> string.
Variable toUpperCase : string -> string.
Variable URL_ok : string -> bool.
Variable fetch : FetchCall -> Result FetchResponse.

(** [parseResponse] on the text of a response. *)
Definition parseResponse (text : string) : jsval :=
  if String.eqb text "" then JNull
  else match JSON_parse_value text with
       | Some value => value
       | None => JStr text
       end.

(** [wrapToolResult] *)
Definition wrapToolResult (result : jsval) (endpoint : string) : CallToolResult :=
  {| isError := false;
     content_text :=
       match result with
       | JStr text => text
       | _ => JSON_stringify_indented (coalesce result JNull)
       end;
     metadata_endpoint := endpoint |}.

(** [wrapError]; the third argument is not used. *)
Definition wrapError (message endpoint : string) (data : jsval) : CallToolResult :=
  {| isError := true; content_text := message; metadata_endpoint := endpoint |}.

(** [{ "content-type": "application/json", ...(config.headers ?? {}) }] *)
Definition request_headers (config : RemoteToolConfig) : list (string * string) :=
  fold_left (fun o kv => obj_set kv.1 kv.2 o) (default [] (config_headers config))
    [("content-type", "application/json")].

(** The parameters the GET branch sets: one per argument that is neither
    [undefined] nor [null], strings as they are, other values as JSON. *)
Definition query_of (args : jsval) : list (string * string) :=
  fromEntries
    (omap (fun kv : string * jsval =>
             if nullish kv.2 then None
             else Some (kv.1, match kv.2 with
                              | JStr text => text
                              | value => JSON_stringify value
                              end))
       match args with JObj fields => fields | _ => [] end).

(** The request the handler of a configured tool sends. *)
Definition remote_call (config : RemoteToolConfig) (endpoint : string) (args : jsval)
  : FetchCall :=
  let method := toUpperCase (default "POST" (config_method config)) in
  if String.eqb method "GET" then
    {| call_endpoint := endpoint; call_query := query_of args; call_method := method;
       call_headers := request_headers config; call_body := None |}
  else
    {| call_endpoint := endpoint; call_query := []; call_method := method;
       call_headers := request_headers config;
       call_body := Some (JSON_stringify args) |}.

(** The handler [registerRemoteTools] installs for an entry with name
    [name] and endpoint [endpoint]. *)
Definition remote_handler (config : RemoteToolConfig) (name endpoint : string)
    (args : jsval) : Result CallToolResult :=
  let call := remote_call config endpoint args in
  if String.eqb (call_method call) "GET" && negb (URL_ok endpoint) then
    Throw (TypeError "Invalid URL")
  else
    match fetch call with
    | Throw err => Throw err
    | Ok response =>
        let payload := parseResponse (response_text response) in
        if negb (response_ok response) then
          let message :=
            match payload with
            | JStr text => text
            | _ => "Remote tool " +:+ name +:+ " failed with status "
                     +:+ pretty (response_status response)
            end in
          Ok (wrapError message endpoint payload)
        else Ok (wrapToolResult payload endpoint)
    end.
End RemoteCall.
End RemoteCall.

(** ** The long-running task object ([src/durable/long-task.ts]) *)

Module LongTask.

Inductive TaskStatus : Type := Queued | Running | Completed | Failed | Cancelled.

Record TaskResult : Type := mkTaskResult { result_message : string; result_data : jsval }.

Record StoredTask : Type := mkTask {
  task_id : string;
  task_status : TaskStatus;
  task_operation : string;
  task_data : jsval;
  task_createdAt : string;
  task_updatedAt : string;
  task_runAt : Z;
  task_durationMs : Z;
  task_result : option TaskResult;
  task_error : option string }.

(** [DurableTaskPayload]; an absent [data] is [undefined]. *)
Record Payload : Type := mkPayload {
  payload_operation : string;
  payload_data : jsval;
  payload_durationMs : option Z }.

(** The state of the object: its storage and the one alarm it can have
    pending; [setAlarm] replaces a pending alarm. *)
Record DurableObject : Type := mkObject {
  storage : gmap string StoredTask;
  alarm_at : option Z }.

Definition empty_object : DurableObject := {| storage := ∅; alarm_at := None |}.

Record TaskRequest : Type := mkTaskRequest {
  tr_method : string;
  tr_pathname : string;
  tr_payload : option Payload }.       (* [request.json()], [None] when it throws *)

Inductive ReplyBody : Type :=
| TaskBody (task : StoredTask)
| TasksBody (tasks : list StoredTask)
| ErrorBody (error : string).

Record TaskReply : Type := mkTaskReply { tr_status : nat; tr_body : ReplyBody }.

Definition STORAGE_PREFIX : string := "task:".

(** [s.replace(/\\/+$/, empty)]: the trailing slashes are removed. *)
Fixpoint strip_trailing_slashes (s : string) : string :=
  match s with
  | "" => ""
  | String ch rest =>
      match strip_trailing_slashes rest with
      | "" => if Ascii.eqb ch "/" then "" else String ch ""
      | kept => String ch kept
      end
  end.

Definition set_storage (s : gmap string StoredTask) (d : DurableObject) : DurableObject :=
  {| storage := s; alarm_at := alarm_at d |}.

Definition setAlarm (at_ms : Z) (d : DurableObject) : DurableObject :=
  {| storage := storage d; alarm_at := Some at_ms |}.

(** [putTask] *)
Definition putTask (task : StoredTask) (d : DurableObject) : DurableObject :=
  set_storage (<[STORAGE_PREFIX +:+ task_id task := task]> (storage d)) d.

(** [getTask] *)
Definition getTask (id : string) (d : DurableObject) : option StoredTask :=
  storage d !! (STORAGE_PREFIX +:+ id).

Section LongTask.
(** The clock's text form and the collation of the runtime. *)
Variable toISOString : Z -> string.
Variable localeCompare : string -> string -> Z.

(** The comparator of [listTasks]: [a] may stay before [b] when
    [a.createdAt.localeCompare(b.createdAt)] is not positive. *)
Definition created_before (t1 t2 : StoredTask) : Prop :=
  (localeCompare (task_createdAt t1) (task_createdAt t2) <= 0)%Z.

#[local] Instance created_before_dec : RelDecision created_before.
Proof. intros t1 t2. unfold created_before. apply _. Defined.

(** The order in which the storage lists its entries. *)
Definition key_before (kv1 kv2 : string * StoredTask) : Prop := String.leb kv1.1 kv2.1 = true.

#[local] Instance key_before_dec : RelDecision key_before.
Proof. intros kv1 kv2. unfold key_before. apply _. Defined.

(** [listTasks]: the entries under the prefix, which the storage lists in
    key order, sorted by creation time. *)
Definition listTasks (d : DurableObject) : list StoredTask :=
  merge_sort created_before
    (merge_sort key_before
       (List.filter (fun kv : string * StoredTask => String.prefix STORAGE_PREFIX kv.1)
          (map_to_list (storage d)))).*2.

(** [Math.max(100, Math.min(payload.durationMs ?? 1500, 60_000))] *)
Definition clamp_duration (requested : option Z) : Z :=
  Z.max 100 (Z.min (default 1500%Z requested) 60000).

(** [startTask]; [uuid] is what [crypto.randomUUID()] returns, [date] the
    reading of [new Date()] and [clock] the later reading of [Date.now()]. *)
Definition startTask (payload : Payload) (uuid : string) (date clock : Z)
    (d : DurableObject) : StoredTask * DurableObject :=
  let durationMs := clamp_duration (payload_durationMs payload) in
  let runAt := (clock + durationMs)%Z in
  let task :=
    {| task_id := uuid; task_status := Running;
       task_operation := payload_operation payload;
       task_data := coalesce (payload_data payload) JNull;
       task_createdAt := toISOString date; task_updatedAt := toISOString date;
       task_runAt := runAt; task_durationMs := durationMs;
       task_result := None; task_error := None |} in
  (task, setAlarm runAt (putTask task d)).

(** What the alarm writes for a due task; nothing in the guarded block can
    throw, so the [catch] branch that would mark the task failed is never
    taken. *)
Definition completed (date : Z) (task : StoredTask) : StoredTask :=
  {| task_id := task_id task; task_status := Completed;
     task_operation := task_operation task; task_data := task_data task;
     task_createdAt := task_createdAt task; task_updatedAt := toISOString date;
     task_runAt := task_runAt task; task_durationMs := task_durationMs task;
     task_result :=
       Some {| result_message := "Operation " +:+ task_operation task +:+ " completed";
               result_data := coalesce (task_data task) JNull |};
     task_error := task_error task |}.

Definition is_running (task : StoredTask) : bool :=
  match task_status task with Running => true | _ => false end.

(** Running and not yet due at [now]: the tasks the loop of [alarm] takes
    into account for the next alarm. *)
Definition is_waiting (now : Z) (task : StoredTask) : bool :=
  is_running task && negb (task_runAt task <=? now)%Z.

(** One turn of the loop of [alarm]; [date_of] gives the reading of
    [new Date()] taken when a task is completed, [next] is [nextRunAt]
    ([0] counts as unset, like [undefined]). *)
Definition alarm_step (now : Z) (date_of : string -> Z)
    (acc : DurableObject * option Z) (task : StoredTask) : DurableObject * option Z :=
  let (d, next) := acc in
  if is_running task && (task_runAt task <=? now)%Z then
    (putTask (completed (date_of (task_id task)) task) d, next)
  else if is_running task then
    (d, Some match next with
             | Some n => if (n =? 0)%Z then task_runAt task else Z.min n (task_runAt task)
             | None => task_runAt task
             end)
  else (d, next).

(** [alarm]; [now] is the reading of [Date.now()]. *)
Definition alarm (now : Z) (date_of : string -> Z) (d : DurableObject) : DurableObject :=
  let (d', next) := fold_left (alarm_step now date_of) (listTasks d) (d, None) in
  match next with
  | Some n => if (n =? 0)%Z then d' else setAlarm n d'
  | None => d'
  end.

Definition cancelled (date : Z) (task : StoredTask) : StoredTask :=
  {| task_id := task_id task; task_status := Cancelled;
     task_operation := task_operation task; task_data := task_data task;
     task_createdAt := task_createdAt task; task_updatedAt := toISOString date;
     task_runAt := task_runAt task; task_durationMs := task_durationMs task;
     task_result := task_result task; task_error := task_error task |}.

Definition unsupported : TaskReply :=
  {| tr_status := 405; tr_body := ErrorBody "Unsupported request" |}.

Definition not_found : TaskReply := {| tr_status := 404; tr_body := ErrorBody "Not found" |}.

(** [fetch] *)
Definition fetch (request : TaskRequest) (uuid : string) (date clock : Z)
    (d : DurableObject) : Result TaskReply * DurableObject :=
  let path := strip_trailing_slashes (tr_pathname request) in
  let collection := String.eqb path "" || String.eqb path "/task" in
  let single := String.prefix "/task/" path in
  if String.eqb (tr_method request) "POST" then
    if collection then
      match tr_payload request with
      | None => (Throw BodyNotJson, d)
      | Some payload =>
          let (task, d') := startTask payload uuid date clock d in
          (Ok {| tr_status := 201; tr_body := TaskBody task |}, d')
      end
    else (Ok unsupported, d)
  else if String.eqb (tr_method request) "GET" then
    if collection then (Ok {| tr_status := 200; tr_body := TasksBody (listTasks d) |}, d)
    else if single then
      match getTask (remove_first "/task/" path) d with
      | None => (Ok not_found, d)
      | Some task => (Ok {| tr_status := 200; tr_body := TaskBody task |}, d)
      end
    else (Ok unsupported, d)
  else if String.eqb (tr_method request) "DELETE" then
    if single then
      match getTask (remove_first "/task/" path) d with
      | None => (Ok not_found, d)
      | Some task =>
          let task' := cancelled date task in
          (Ok {| tr_status := 200; tr_body := TaskBody task' |}, putTask task' d)
      end
    else (Ok unsupported, d)
  else (Ok unsupported, d).

(** What happens to the object over time: a request arrives, or the alarm
    fires. *)
Inductive Operation : Type :=
| Fetch (request : TaskRequest) (uuid : string) (date clock : Z)
| Alarm (now : Z) (date_of : string -> Z).

Definition run_operation (d : DurableObject) (op : Operation) : DurableObject :=
  match op with
  | Fetch request uuid date clock => (fetch request uuid date clock d).2
  | Alarm now date_of => alarm now date_of d
  end.

Definition run_operations (ops : list Operation) : DurableObject :=
  fold_left run_operation ops empty_object.
End LongTask.

(** What holds of every task the object ever stores: it sits under the key
    made from its identifier, its status is running, completed or
    cancelled, its duration lies between 100 and 60000 milliseconds, a
    running task carries no result and a completed one does, and no task
    carries an error. *)
Definition task_ok (key : string) (task : StoredTask) : Prop :=
  key = STORAGE_PREFIX +:+ task_id task
  /\ (task_status task = Running \/ task_status task = Completed
      \/ task_status task = Cancelled)
  /\ (100 <= task_durationMs task <= 60000)%Z
  /\ (task_status task = Running -> task_result task = None)
  /\ (task_status task = Completed -> is_Some (task_result task))
  /\ task_error task = None.

Definition object_ok (d : DurableObject) : Prop :=
  forall key task, storage d !! key = Some task -> task_ok key task.

(** A task is due at [now]. *)
Definition due (now : Z) (task : StoredTask) : Prop :=
  task_status task = Running /\ (task_runAt task <= now)%Z.

(** A task is still waiting after [now]. *)
Definition waiting (now : Z) (task : StoredTask) : Prop :=
  task_status task = Running /\ (now < task_runAt task)%Z.
End LongTask.

(** * Properties *)

(** ** Objects as entry lists *)

Lemma obj_lookup_None {A : Type} (k : string) (fields : list (string * A)) :
  obj_lookup k fields = None <-> k ∉ fields.*1.
Proof.
  induction fields as [|[k' v] rest IH]; simpl.
  - split; [intros _; apply not_elem_of_nil | done].
  - rewrite not_elem_of_cons. destruct (String.eqb_spec k k') as [->|Hne].
    + split; [discriminate | intros [? _]; congruence].
    + rewrite IH. tauto.
Qed.

Lemma obj_lookup_Some_elem {A : Type} (k : string) (v : A) (fields : list (string * A)) :
  obj_lookup k fields = Some v -> (k, v) ∈ fields.
Proof.
  induction fields as [|[k' v'] rest IH]; simpl; [discriminate|].
  destruct (String.eqb_spec k k') as [->|Hne].
  - intros [= ->]. apply list_elem_of_here.
  - intros H. apply list_elem_of_further, IH, H.
Qed.

Lemma obj_lookup_elem {A : Type} (k : string) (v : A) (fields : list (string * A)) :
  NoDup fields.*1 -> (k, v) ∈ fields -> obj_lookup k fields = Some v.
Proof.
  induction fields as [|[k' v'] rest IH]; simpl.
  - intros _ H. by apply elem_of_nil in H.
  - rewrite NoDup_cons. intros [Hfresh Hnd] Hin.
    apply elem_of_cons in Hin as [[= -> ->]|Hin].
    + by rewrite String.eqb_refl.
    + destruct (String.eqb_spec k k') as [->|Hne]; [|by apply IH].
      exfalso. apply Hfresh. apply list_elem_of_fmap. by exists (k', v).
Qed.

Lemma obj_lookup_app {A : Type} (k : string) (l1 l2 : list (string * A)) :
  obj_lookup k (l1 ++ l2)
  = match obj_lookup k l1 with Some v => Some v | None => obj_lookup k l2 end.
Proof.
  induction l1 as [|[k' v'] rest IH]; simpl; [done|].
  by destruct (String.eqb k k').
Qed.

Lemma obj_lookup_fmap {A B : Type} (f : A -> B) (k : string) (l : list (string * A)) :
  obj_lookup k ((fun kv : string * A => (kv.1, f kv.2)) <$> l) = f <$> obj_lookup k l.
Proof.
  induction l as [|[k' v'] rest IH]; simpl; [done|].
  by destruct (String.eqb k k').
Qed.

Lemma keys_fmap {A B : Type} (f : string * A -> B) (l : list (string * A)) :
  ((fun kv : string * A => (kv.1, f kv)) <$> l).*1 = l.*1.
Proof. induction l as [|[k v] rest IH]; [done|]. cbn. f_equal. exact IH. Qed.

Lemma obj_set_fresh {A : Type} (k : string) (v : A) (o : list (string * A)) :
  k ∉ o.*1 -> obj_set k v o = o ++ [(k, v)].
Proof.
  induction o as [|[k' v'] rest IH]; simpl; [done|].
  rewrite not_elem_of_cons. intros [Hne Hrest].
  destruct (String.eqb_spec k k') as [->|_]; [done|]. by rewrite IH.
Qed.

Lemma fold_obj_set_nodup {A : Type} (entries acc : list (string * A)) :
  NoDup (acc ++ entries).*1 ->
  fold_left (fun o kv => obj_set kv.1 kv.2 o) entries acc = acc ++ entries.
Proof.
  revert acc. induction entries as [|[k v] rest IH]; intros acc Hnd; simpl.
  - by rewrite app_nil_r.
  - rewrite obj_set_fresh.
    + rewrite IH; rewrite <- app_assoc; [done|exact Hnd].
    + rewrite fmap_app in Hnd. apply NoDup_app in Hnd as (_ & Hdisj & _).
      intros Hin. apply (Hdisj k Hin). simpl. apply list_elem_of_here.
Qed.

(** On distinct keys [Object.fromEntries] rebuilds the entries as given. *)
Lemma fromEntries_nodup {A : Type} (entries : list (string * A)) :
  NoDup entries.*1 -> fromEntries entries = entries.
Proof. intros Hnd. unfold fromEntries. by rewrite fold_obj_set_nodup. Qed.

Lemma obj_has_set {A : Type} (k k' : string) (v : A) (o : list (string * A)) :
  obj_has k' (obj_set k v o) = String.eqb k' k || obj_has k' o.
Proof.
  unfold obj_has. induction o as [|[k0 v0] rest IH]; simpl.
  - by destruct (String.eqb k' k).
  - destruct (String.eqb_spec k k0) as [->|Hne]; simpl.
    + by destruct (String.eqb k' k0).
    + destruct (String.eqb_spec k' k0) as [->|Hne'].
      * by rewrite orb_true_r.
      * exact IH.
Qed.

Lemma obj_has_cons {A : Type} (k k' : string) (v : A) (rest : list (string * A)) :
  obj_has k ((k', v) :: rest) = String.eqb k k' || obj_has k rest.
Proof. unfold obj_has. simpl. by destruct (String.eqb k k'). Qed.

Lemma obj_has_fold_set {A : Type} (k : string) (entries acc : list (string * A)) :
  obj_has k (fold_left (fun o kv => obj_set kv.1 kv.2 o) entries acc)
  = obj_has k acc || obj_has k entries.
Proof.
  revert acc. induction entries as [|[k' v] rest IH]; intros acc; simpl.
  - change (obj_has k (@nil (string * A))) with false. by rewrite orb_false_r.
  - rewrite IH, obj_has_set, obj_has_cons.
    destruct (String.eqb k k'), (obj_has k acc), (obj_has k rest); done.
Qed.

(** [Object.fromEntries] keeps exactly the keys it is given. *)
Lemma obj_has_fromEntries {A : Type} (k : string) (entries : list (string * A)) :
  obj_has k (fromEntries entries) = obj_has k entries.
Proof. unfold fromEntries. by rewrite obj_has_fold_set. Qed.

Lemma obj_has_fmap {A B : Type} (f : string * A -> B) (k : string) (l : list (string * A)) :
  obj_has k ((fun kv : string * A => (kv.1, f kv)) <$> l) = obj_has k l.
Proof.
  unfold obj_has. induction l as [|[k' v'] rest IH]; simpl; [done|].
  by destruct (String.eqb k k').
Qed.

Lemma obj_has_false {A : Type} (k : string) (fields : list (string * A)) :
  obj_has k fields = false <-> k ∉ fields.*1.
Proof.
  rewrite <- obj_lookup_None. unfold obj_has.
  destruct (obj_lookup k fields); split; congruence.
Qed.

(** ** Schema compiler *)

Lemma required_keys_sub (entries : list (string * RemoteToolField)) (k : string) :
  k ∈ required_keys entries -> k ∈ entries.*1.
Proof.
  unfold required_keys. induction entries as [|[k' v'] rest IH]; simpl; [done|].
  destruct (field_optional v'); simpl.
  - intros H. apply list_elem_of_further, IH, H.
  - rewrite !elem_of_cons. intros [->|H]; [by left | right; by apply IH].
Qed.

Lemma required_keys_nodup (entries : list (string * RemoteToolField)) :
  NoDup entries.*1 -> NoDup (required_keys entries).
Proof.
  induction entries as [|[k v] rest IH]; simpl.
  - intros _. unfold required_keys. simpl. apply NoDup_nil_2.
  - rewrite NoDup_cons. intros [Hfresh Hnd].
    unfold required_keys. simpl. destruct (field_optional v); simpl.
    + by apply IH.
    + apply NoDup_cons. split; [|by apply IH].
      intros Hin. apply Hfresh. by apply required_keys_sub.
Qed.

Lemma required_keys_spec (entries : list (string * RemoteToolField)) (k : string) :
  NoDup entries.*1 ->
  k ∈ required_keys entries <->
  exists v, obj_lookup k entries = Some v /\ field_optional v = false.
Proof.
  induction entries as [|[k' v'] rest IH]; simpl.
  - intros _. unfold required_keys. simpl. split.
    + intros H. by apply elem_of_nil in H.
    + intros (v & H & _). discriminate.
  - rewrite NoDup_cons. intros [Hfresh Hnd]. specialize (IH Hnd).
    destruct (String.eqb_spec k k') as [->|Hne].
    + split.
      * intros Hin. exists v'. split; [done|].
        destruct (field_optional v') eqn:Hopt; [|done].
        exfalso. apply Hfresh. apply required_keys_sub.
        unfold required_keys in *. simpl in Hin. by rewrite Hopt in Hin.
      * intros (v & [= <-] & Hopt). unfold required_keys. simpl.
        rewrite Hopt. simpl. apply list_elem_of_here.
    + rewrite <- IH. unfold required_keys. simpl.
      destruct (field_optional v'); simpl; [done|].
      rewrite elem_of_cons. split; [intros [?|?]; [congruence|done] | by right].
Qed.

Lemma wf_field_items ty d o i props :
  wf_field (mkField ty d o (Some i) props) = true -> wf_field i = true.
Proof. simpl. intros H. by apply andb_true_iff in H as [? _]. Qed.

Lemma wf_field_properties ty d o its entries :
  wf_field (mkField ty d o its (Some entries)) = true ->
  NoDup entries.*1 /\ forall k v, obj_lookup k entries = Some v -> wf_field v = true.
Proof.
  simpl. intros H. apply andb_true_iff in H as [_ H].
  apply andb_true_iff in H as [Hnd Hall]. apply bool_decide_eq_true in Hnd.
  split; [done|]. intros k v Hk. apply obj_lookup_Some_elem in Hk.
  rewrite forallb_forall in Hall. apply (Hall (k, v)). by apply list_elem_of_In.
Qed.

(** The document of an object descriptor, and the top-level document of a
    tool, satisfy [level_ok] for their own level. *)
Lemma level_ok_here (descr : list (string * jsval)) (level : RemoteToolField) :
  NoDup (default [] (field_properties level)).*1 ->
  obj_lookup "properties" descr = None ->
  obj_lookup "required" descr = None ->
  level_ok level
    (JObj (descr ++
       [("properties",
          JObj (fromEntries
                  ((fun kv : string * RemoteToolField => (kv.1, jsonSchemaFromField kv.2))
                     <$> default [] (field_properties level))));
        ("required", JArr (JStr <$> required_keys (default [] (field_properties level))))])).
Proof.
  intros Hnd Hp Hr. set (entries := default [] (field_properties level)) in *.
  exists ((fun kv : string * RemoteToolField => (kv.1, jsonSchemaFromField kv.2)) <$> entries),
    (required_keys entries).
  assert (Hkeys : ((fun kv : string * RemoteToolField =>
                      (kv.1, jsonSchemaFromField kv.2)) <$> entries).*1 = entries.*1)
    by apply (keys_fmap (fun kv => jsonSchemaFromField kv.2)).
  split_and!.
  - simpl. rewrite obj_lookup_app, Hp. simpl. rewrite fromEntries_nodup; [done|].
    by rewrite Hkeys.
  - exact Hkeys.
  - simpl. rewrite obj_lookup_app, Hr. done.
  - by apply required_keys_nodup.
  - intros k. by apply required_keys_spec.
Qed.

Lemma jsonSchemaFromField_object (field : RemoteToolField) :
  field_type field = TyObject ->
  jsonSchemaFromField field
  = JObj ([("type", JStr "object"); ("description", js_opt_string (field_description field))]
          ++ [("properties",
                JObj (fromEntries
                        ((fun kv : string * RemoteToolField =>
                            (kv.1, jsonSchemaFromField kv.2))
                           <$> default [] (field_properties field))));
              ("required",
                JArr (JStr <$> required_keys (default [] (field_properties field))))]).
Proof. destruct field as [ty d o its [entries|]]; simpl; by intros ->. Qed.

Lemma wf_field_nodup (field : RemoteToolField) :
  wf_field field = true -> NoDup (default [] (field_properties field)).*1.
Proof.
  destruct field as [ty d o its [entries|]]; intros H; simpl.
  - by apply wf_field_properties in H as [? _].
  - apply NoDup_nil_2.
Qed.

(** Below the root, the generated document is read at a path exactly where
    the descriptor is. *)
Lemma schema_at_descend (path : list Step) :
  forall (field level : RemoteToolField),
    wf_field field = true ->
    field_at path field = Some level ->
    field_type level = TyObject ->
    exists doc, schema_at path (jsonSchemaFromField field) = Some doc /\ level_ok level doc.
Proof.
  induction path as [|[|k] rest IH]; intros field level Hwf Hat Hobj.
  - injection Hat as <-. eexists. split; [done|].
    rewrite (jsonSchemaFromField_object _ Hobj).
    apply level_ok_here; [by apply wf_field_nodup|done|done].
  - destruct field as [ty d o [i|] props]; simpl in Hat; destruct ty; try discriminate.
    apply wf_field_items in Hwf. simpl. by apply IH.
  - destruct field as [ty d o its [entries|]]; simpl in Hat; destruct ty; try discriminate.
    destruct (obj_lookup k entries) as [v|] eqn:Hk; [|discriminate].
    apply wf_field_properties in Hwf as [Hnd Hall].
    destruct (IH v level (Hall k v Hk) Hat Hobj) as (doc & Hdoc & Hok).
    exists doc. split; [|done]. simpl.
    rewrite fromEntries_nodup
      by (by rewrite (keys_fmap (fun kv => jsonSchemaFromField kv.2))).
    by rewrite obj_lookup_fmap, Hk.
Qed.

(** C2.  For every descriptor tree whose property records are objects, and
    every object level of it at any depth, the generated wire schema has at
    that level a [required] list without repetition whose members are
    exactly the names of the level's properties not marked optional, next to
    a [properties] record with the level's property names.  The same holds
    for the top-level document [registerRemoteTools] builds from a
    configuration whose [schema] record is the root's property record. *)
Theorem required_exactly_non_optional
    (field : RemoteToolField) (path : list Step) (level : RemoteToolField) :
  wf_field field = true ->
  field_at path field = Some level ->
  field_type level = TyObject ->
  (exists doc, schema_at path (jsonSchemaFromField field) = Some doc /\ level_ok level doc)
  /\ (field_type field = TyObject ->
      exists doc,
        schema_at path (remoteToolJsonSchema (field_properties field)) = Some doc
        /\ level_ok level doc).
Proof.
  intros Hwf Hat Hobj. split; [by apply (schema_at_descend path field)|].
  intros Hroot. destruct path as [|[|k] rest].
  - injection Hat as <-. eexists. split; [done|].
    apply (level_ok_here [("type", JStr "object")]); [by apply wf_field_nodup|done|done].
  - destruct field as [ty d o [i|] props]; simpl in *; subst ty; discriminate.
  - destruct (schema_at_descend (Property k :: rest) field level Hwf Hat Hobj)
      as (doc & Hdoc & Hok).
    exists doc. split; [|done].
    rewrite (jsonSchemaFromField_object _ Hroot) in Hdoc. exact Hdoc.
Qed.

Lemma required_exactly_non_optional_witness :
  let level :=
    mkField TyObject (Some "time window") false None
      (Some [("from", Sample.leaf TyNumber false);
             ("to", Sample.leaf TyNumber true);
             ("tags", mkField TyArray None true (Some (Sample.leaf TyString false)) None)]) in
  wf_field Sample.forecast_field = true
  /\ field_at [Property "window"] Sample.forecast_field = Some level
  /\ field_type level = TyObject
  /\ exists doc,
       schema_at [Property "window"] (jsonSchemaFromField Sample.forecast_field) = Some doc
       /\ level_ok level doc.
Proof.
  intros level. split_and!; [reflexivity..|].
  apply (required_exactly_non_optional Sample.forecast_field [Property "window"] level);
    reflexivity.
Defined.

(** ** Tool registry *)

Lemma registerTool_fresh (a : McpAgent) (d : ToolDefinition) :
  tools a !! def_name d = None ->
  registerTool d a
  = (Ok tt, set_tools (<[def_name d := registration_of d]> (tools a)) a).
Proof. intros H. unfold registerTool. simpl. by rewrite H. Qed.

Lemma registerTool_taken (a : McpAgent) (d : ToolDefinition) :
  is_Some (tools a !! def_name d) ->
  registerTool d a = (Throw (ToolAlreadyRegistered (def_name d)), a).
Proof. intros [t H]. unfold registerTool. simpl. by rewrite H. Qed.

(** C1.  Two definitions under one name, registered on a registry that does
    not know the name yet: whichever goes first is stored, the other one is
    refused with the duplicate-tool error, and the refused call leaves the
    agent as it was, the name still bound to the first definition. *)
Theorem duplicate_registration_fails (a : McpAgent) (d1 d2 : ToolDefinition) :
  def_name d1 = def_name d2 ->
  tools a !! def_name d1 = None ->
  (exists a1,
      registerTool d1 a = (Ok tt, a1)
      /\ registerTool d2 a1 = (Throw (ToolAlreadyRegistered (def_name d1)), a1)
      /\ tools a1 !! def_name d1 = Some (registration_of d1))
  /\ (exists a2,
         registerTool d2 a = (Ok tt, a2)
         /\ registerTool d1 a2 = (Throw (ToolAlreadyRegistered (def_name d1)), a2)
         /\ tools a2 !! def_name d1 = Some (registration_of d2)).
Proof.
  intros Hname Hfresh. split.
  - eexists. split; [by apply registerTool_fresh|]. split.
    + rewrite Hname. apply registerTool_taken. simpl. rewrite <- Hname.
      rewrite lookup_insert_eq. by eexists.
    + simpl. by rewrite lookup_insert_eq.
  - eexists. split; [apply registerTool_fresh; by rewrite <- Hname|]. split.
    + apply registerTool_taken. simpl. rewrite <- Hname.
      rewrite lookup_insert_eq. by eexists.
    + simpl. rewrite <- Hname. by rewrite lookup_insert_eq.
Qed.

Lemma duplicate_registration_fails_witness :
  let other :=
    {| def_name := "ping"; def_description := "A second ping.";
       def_schema := Some ZAny; def_annotations := None;
       def_jsonSchemaOverride := None; def_handler := KvAction |} in
  def_name Sample.ping = def_name other
  /\ tools new_agent !! def_name Sample.ping = None
  /\ (exists a1,
         registerTool Sample.ping new_agent = (Ok tt, a1)
         /\ registerTool other a1 = (Throw (ToolAlreadyRegistered "ping"), a1)
         /\ tools a1 !! "ping" = Some (registration_of Sample.ping)).
Proof.
  intros other. split_and!; [reflexivity..|].
  apply (duplicate_registration_fails new_agent Sample.ping other); reflexivity.
Defined.

(** ** Transports *)

Lemma ws_start_started (t : WorkerWebSocketTransport) : ws_started (ws_start t) = true.
Proof. unfold ws_start. by destruct (ws_started t) eqn:H. Qed.

Lemma ws_start_again (t : WorkerWebSocketTransport) : ws_start (ws_start t) = ws_start t.
Proof. unfold ws_start at 1. by rewrite ws_start_started. Qed.

Lemma sse_start_started (t : WorkerSseTransport) : sse_started (sse_start t) = true.
Proof. unfold sse_start. by destruct (sse_started t) eqn:H. Qed.

Lemma sse_start_again (t : WorkerSseTransport) : sse_start (sse_start t) = sse_start t.
Proof. unfold sse_start at 1. by rewrite sse_start_started. Qed.

Lemma iter_idempotent {A : Type} (f : A -> A) :
  (forall x, f (f x) = f x) -> forall n x, Nat.iter (S n) f x = f x.
Proof.
  intros Hf n x. induction n as [|n IH]; [done|].
  change (f (Nat.iter (S n) f x) = f x). by rewrite IH.
Qed.

(** C8.  On both transports, [n] calls of [start] with [n >= 1] leave the
    transport (started flag and registered listeners) as one call does. *)
Theorem start_idempotent (n : nat) (ws : WorkerWebSocketTransport) (sse : WorkerSseTransport) :
  1 <= n ->
  Nat.iter n ws_start ws = ws_start ws
  /\ listeners (ws_socket (Nat.iter n ws_start ws)) = listeners (ws_socket (ws_start ws))
  /\ Nat.iter n sse_start sse = sse_start sse.
Proof.
  intros Hn. destruct n as [|n]; [lia|]. clear Hn.
  rewrite (iter_idempotent ws_start ws_start_again).
  by rewrite (iter_idempotent sse_start sse_start_again).
Qed.

Lemma start_idempotent_witness :
  let ws := {| ws_started := false; ws_socket := {| listeners := [] |} |} in
  let sse := new_sse_transport "s-1" in
  1 <= 3
  /\ Nat.iter 3 ws_start ws = ws_start ws
  /\ listeners (ws_socket (Nat.iter 3 ws_start ws)) = [MessageEvent; CloseEvent; ErrorEvent]
  /\ Nat.iter 3 sse_start sse = sse_start sse.
Proof.
  intros ws sse. split; [lia|].
  destruct (start_idempotent 3 ws sse) as (H1 & H2 & H3); [lia|].
  split_and!; [exact H1|exact H2|exact H3].
Defined.

(** ** The schema compiler on unchecked values *)


Lemma traverse_fmap {A B C : Type} (f : B -> Result C) (h : A -> B) (g : A -> C)
    (xs : list A) :
  (forall x, x ∈ xs -> f (h x) = Ok (g x)) -> traverse f (h <$> xs) = Ok (g <$> xs).
Proof.
  induction xs as [|x rest IH]; intros H; [done|]. cbn.
  rewrite (H x) by apply list_elem_of_here. cbn.
  rewrite IH; [done|]. intros x' Hin. apply H. by apply list_elem_of_further.
Qed.

Lemma traverse_keys {A B : Type} (f : string * A -> Result (string * B))
    (xs : list (string * A)) (ys : list (string * B)) :
  (forall x y, f x = Ok y -> y.1 = x.1) -> traverse f xs = Ok ys -> ys.*1 = xs.*1.
Proof.
  intros Hf. revert ys. induction xs as [|x rest IH]; intros ys; simpl.
  - by intros [= <-].
  - destruct (f x) as [y|e] eqn:Hx; simpl; [|discriminate].
    destruct (traverse f rest) as [ys'|e] eqn:Hrest; simpl; [|discriminate].
    intros [= <-]. cbn. f_equal; [by apply Hf|by apply IH].
Qed.

Lemma obj_has_keys {A B : Type} (k : string) (l1 : list (string * A))
    (l2 : list (string * B)) :
  l1.*1 = l2.*1 -> obj_has k l1 = obj_has k l2.
Proof.
  unfold obj_has. revert l2. induction l1 as [|[k1 v1] rest IH]; intros [|[k2 v2] l2]; try done.
  simpl. intros [= -> Hrest]. destruct (String.eqb k k2); [done|]. by apply IH.
Qed.

Lemma jsize_pos (v : jsval) : 1 <= jsize v.
Proof. destruct v; simpl; lia. Qed.

Lemma jsize_member (k : string) (v : jsval) (fields : list (string * jsval)) :
  obj_lookup k fields = Some v -> jsize v < jsize (JObj fields).
Proof.
  intros Hk. apply obj_lookup_Some_elem in Hk.
  apply (sum_list_with_in _ (fun kv : string * jsval => jsize kv.2)) in Hk.
  simpl in *. lia.
Qed.

Lemma indexed_elem {A : Type} (xs : list A) :
  forall (n i : nat) (x : A), (i, x) ∈ indexed n xs -> x ∈ xs.
Proof.
  induction xs as [|y rest IH]; intros n i x; simpl.
  - intros H. by apply elem_of_nil in H.
  - intros H. apply elem_of_cons in H as [[= -> ->]|H]; [apply list_elem_of_here|].
    apply list_elem_of_further. by eapply IH.
Qed.

Lemma jsize_entry (k : string) (child parent : jsval) :
  (k, child) ∈ own_entries parent -> jsize child <= jsize parent.
Proof.
  destruct parent as [| |b|n|s|xs|fields]; simpl; intros Hin;
    try (by apply elem_of_nil in Hin).
  - apply list_elem_of_fmap in Hin as ([i ch] & [= -> ->] & Hin). simpl. lia.
  - apply list_elem_of_fmap in Hin as ([i x] & [= -> ->] & Hin). simpl.
    apply indexed_elem in Hin. apply (sum_list_with_in _ jsize) in Hin. lia.
  - apply (sum_list_with_in _ (fun kv : string * jsval => jsize kv.2)) in Hin.
    simpl in Hin. lia.
Qed.

(** What the compiler descends into is smaller than where it comes from. *)
Lemma jsize_get (k : string) (v : jsval) :
  js_get k v = JUndefined \/ jsize (js_get k v) < jsize v.
Proof.
  destruct v as [| |b|n|s|xs|fields]; try (by left).
  unfold js_get. destruct (obj_lookup k fields) as [x|] eqn:Hk; [|by left].
  right. cbn [from_option id]. by apply jsize_member in Hk.
Qed.

Lemma jsize_get_truthy (k : string) (v : jsval) :
  js_truthy (js_get k v) = true -> jsize (js_get k v) < jsize v.
Proof. destruct (jsize_get k v) as [->|H]; [discriminate|done]. Qed.

Lemma jsize_property (key k : string) (child v : jsval) :
  (k, child) ∈ own_entries (js_get key v) -> jsize child < jsize v.
Proof.
  intros Hin. destruct (jsize_get key v) as [Hget|Hlt].
  - rewrite Hget in Hin. by apply elem_of_nil in Hin.
  - apply jsize_entry in Hin. lia.
Qed.



Lemma traverse_ok {A B : Type} (f : A -> Result B) (xs : list A) :
  (exists ys, traverse f xs = Ok ys) <-> forall x, x ∈ xs -> exists y, f x = Ok y.
Proof.
  induction xs as [|x rest IH]; simpl.
  - split; [|by eexists]. intros _ x Hin. by apply elem_of_nil in Hin.
  - split.
    + intros [ys Hys] x' Hin.
      destruct (f x) as [y|e] eqn:Hx; [|discriminate]. simpl in Hys.
      destruct (traverse f rest) as [ys'|e] eqn:Hrest; [|discriminate].
      apply elem_of_cons in Hin as [->|Hin]; [by eexists|].
      apply IH; [by eexists|done].
    + intros H. destruct (H x (list_elem_of_here _ _)) as [y ->]. simpl.
      destruct (proj2 IH) as [ys ->]; [|by eexists].
      intros x' Hin. apply H. by apply list_elem_of_further.
Qed.

(** A value compiles exactly when no descriptor the compiler reads in it
    is [null] or [undefined]. *)
Lemma scalarField_described (fuel : nat) :
  forall field : jsval,
    jsize field <= fuel ->
    (exists schema, Unchecked.scalarField fuel field = Ok schema) <->
    Unchecked.described fuel field = true.
Proof.
  induction fuel as [|fuel IH]; intros field Hsize.
  - pose proof (jsize_pos field). lia.
  - cbn [Unchecked.scalarField Unchecked.described].
    destruct (nullish field); [split; [by intros [? ?]|done]|]. cbn [negb andb].
    destruct (js_get "type" field) as [| |b|n|tag|xs|fs];
      try (split; [done|by eexists]).
    destruct (String.eqb_spec tag "string") as [->|_]; [split; [done|by eexists]|].
    destruct (String.eqb_spec tag "number") as [->|_]; [split; [done|by eexists]|].
    destruct (String.eqb_spec tag "boolean") as [->|_]; [split; [done|by eexists]|].
    destruct (String.eqb tag "array").
    { destruct (js_truthy (js_get "items" field)) eqn:Hitems; [|split; [done|by eexists]].
      apply jsize_get_truthy in Hitems. cbn [negb orb].
      rewrite <- (IH (js_get "items" field)) by lia.
      destruct (Unchecked.scalarField fuel (js_get "items" field)) as [element|e]; simpl.
      - split; by eexists.
      - split; by intros [? ?]. }
    destruct (String.eqb tag "object"); [|split; [done|by eexists]].
    rewrite forallb_forall.
    assert (Hshape : forall shape : Result (list (string * ZodType)),
              (exists schema,
                 and_then shape (fun shape => Ok (ZObject (fromEntries shape) None))
                 = Ok schema)
              <-> exists ys, shape = Ok ys).
    { intros [ys|e]; simpl; split; try (by eexists); by intros [? ?]. }
    rewrite Hshape, traverse_ok. clear Hshape.
    split.
    + intros H [k child] Hin%list_elem_of_In. specialize (H _ Hin). cbn in *.
      apply jsize_property in Hin. apply IH; [lia|].
      destruct (nullish child); [by destruct H|].
      destruct (Unchecked.scalarField fuel child); [by eexists|by destruct H].
    + intros H [k child] Hin. specialize (H _ (proj1 (list_elem_of_In _ _) Hin)). cbn in *.
      apply jsize_property in Hin. apply IH in H as [schema Hschema]; [|lia].
      assert (Hnull : nullish child = false).
      { destruct fuel; [pose proof (jsize_pos child); lia|].
        cbn in Hschema. by destruct (nullish child). }
      rewrite Hnull, Hschema. by eexists.
Qed.

Lemma jsonSchemaFromField_described (fuel : nat) :
  forall field : jsval,
    jsize field <= fuel ->
    (exists doc, Unchecked.jsonSchemaFromField fuel field = Ok doc) <->
    Unchecked.described fuel field = true.
Proof.
  induction fuel as [|fuel IH]; intros field Hsize.
  - pose proof (jsize_pos field). lia.
  - cbn [Unchecked.jsonSchemaFromField Unchecked.described].
    destruct (nullish field); [split; [by intros [? ?]|done]|]. cbn [negb andb]. cbv zeta.
    destruct (js_get "type" field) as [| |b|n|tag|xs|fs];
      try (split; [done|by eexists]).
    destruct (String.eqb_spec tag "string") as [->|_]; [split; [done|by eexists]|].
    destruct (String.eqb_spec tag "number") as [->|_]; [split; [done|by eexists]|].
    destruct (String.eqb_spec tag "boolean") as [->|_]; [split; [done|by eexists]|].
    destruct (String.eqb tag "array").
    { destruct (js_truthy (js_get "items" field)) eqn:Hitems; [|split; [done|by eexists]].
      apply jsize_get_truthy in Hitems. cbn [negb orb].
      rewrite <- (IH (js_get "items" field)) by lia.
      destruct (Unchecked.jsonSchemaFromField fuel (js_get "items" field)) as [items|e]; simpl.
      - split; by eexists.
      - split; by intros [? ?]. }
    destruct (String.eqb tag "object"); [|split; [done|by eexists]].
    rewrite forallb_forall.
    set (entries := own_entries (js_get "properties" field)).
    assert (Hdoc : forall properties : Result (list (string * jsval)),
              (exists doc,
                 and_then properties
                   (fun properties =>
                      Ok (JObj [("type", JStr "object");
                                ("description", js_get "description" field);
                                ("properties", JObj (fromEntries properties));
                                ("required",
                                  JArr (JStr <$> Unchecked.required_keys entries))]))
                 = Ok doc)
              <-> exists ys, properties = Ok ys).
    { intros [ys|e]; simpl; split; try (by eexists); by intros [? ?]. }
    rewrite Hdoc, traverse_ok. clear Hdoc.
    split.
    + intros H [k child] Hin%list_elem_of_In. specialize (H _ Hin). cbn in *.
      apply jsize_property in Hin. apply IH; [lia|].
      destruct (Unchecked.jsonSchemaFromField fuel child); [by eexists|by destruct H].
    + intros H [k child] Hin. specialize (H _ (proj1 (list_elem_of_In _ _) Hin)). cbn in *.
      apply jsize_property in Hin. apply IH in H as [doc ->]; [|lia]. by eexists.
Qed.

(** *** On values of the declared types the two compilers agree *)

Lemma field_json_reads (field : RemoteToolField) :
  nullish (field_json field) = false
  /\ js_get "type" (field_json field) = default JUndefined (tag_json (field_type field))
  /\ js_get "description" (field_json field) = js_opt_string (field_description field)
  /\ js_truthy (js_get "optional" (field_json field)) = field_optional field
  /\ js_get "items" (field_json field)
     = match field_items field with Some i => field_json i | None => JUndefined end
  /\ js_get "properties" (field_json field)
     = match field_properties field with
       | Some entries => schema_json entries
       | None => JUndefined
       end.
Proof.
  destruct field as [ty d o its props].
  destruct ty, d, o, its, props; split_and!; reflexivity.
Qed.

Lemma required_keys_typed (entries : list (string * RemoteToolField)) :
  Unchecked.required_keys
    ((fun kv : string * RemoteToolField => (kv.1, field_json kv.2)) <$> entries)
  = required_keys entries.
Proof.
  unfold Unchecked.required_keys, required_keys.
  induction entries as [|[k v] rest IH]; [done|]. cbn.
  destruct (field_json_reads v) as (_ & _ & _ & -> & _).
  destruct (field_optional v); cbn; by rewrite IH.
Qed.

Lemma scalarField_typed (fuel : nat) :
  forall field : RemoteToolField,
    jsize (field_json field) <= fuel ->
    Unchecked.scalarField fuel (field_json field) = Ok (scalarField field).
Proof.
  induction fuel as [|fuel IH]; intros field Hsize.
  - pose proof (jsize_pos (field_json field)). lia.
  - destruct (field_json_reads field) as (Hnull & Hty & _ & _ & Hits & Hprops).
    cbn [Unchecked.scalarField]. rewrite Hnull, Hty.
    pose proof (jsize_get_truthy "items" (field_json field)) as Hitems.
    pose proof (fun k child => jsize_property "properties" k child (field_json field))
      as Hchild.
    rewrite Hits in Hitems. rewrite Hits. rewrite Hprops in Hchild. rewrite Hprops.
    clear Hnull Hty Hits Hprops.
    destruct field as [ty d o its props]. cbn [field_type field_items field_properties] in *.
    destruct ty; cbn [tag_json from_option id String.eqb Ascii.eqb Bool.eqb]; try reflexivity.
    + destruct its as [i|]; [|reflexivity].
      assert (Htruthy : js_truthy (field_json i) = true) by (by destruct i).
      rewrite Htruthy. rewrite IH by (specialize (Hitems Htruthy); lia). reflexivity.
    + destruct props as [entries|]; [|reflexivity].
      unfold schema_json in *. cbn [own_entries] in *.
      rewrite (traverse_fmap _ _
                 (fun kv : string * RemoteToolField =>
                    (kv.1, optional_if (field_optional kv.2) (scalarField kv.2)))).
      * reflexivity.
      * intros [k child] Hin. cbn.
        destruct (field_json_reads child) as (-> & _ & _ & -> & _).
        rewrite IH; [reflexivity|].
        specialize (Hchild k (field_json child)).
        assert (Hlt : jsize (field_json child) < jsize (field_json (mkField TyObject d o its (Some entries)))).
        { apply Hchild. apply list_elem_of_fmap. by exists (k, child). }
        lia.
Qed.

Lemma jsonSchemaFromField_typed (fuel : nat) :
  forall field : RemoteToolField,
    jsize (field_json field) <= fuel ->
    Unchecked.jsonSchemaFromField fuel (field_json field) = Ok (jsonSchemaFromField field).
Proof.
  induction fuel as [|fuel IH]; intros field Hsize.
  - pose proof (jsize_pos (field_json field)). lia.
  - destruct (field_json_reads field) as (Hnull & Hty & Hdescr & _ & Hits & Hprops).
    cbn [Unchecked.jsonSchemaFromField]. rewrite Hnull, Hty, Hdescr. cbv zeta.
    pose proof (jsize_get_truthy "items" (field_json field)) as Hitems.
    pose proof (fun k child => jsize_property "properties" k child (field_json field))
      as Hchild.
    rewrite Hits in Hitems. rewrite Hits. rewrite Hprops in Hchild. rewrite Hprops.
    clear Hnull Hty Hdescr Hits Hprops.
    destruct field as [ty d o its props].
    cbn [field_type field_items field_properties field_description] in *.
    destruct ty; cbn [tag_json from_option id String.eqb Ascii.eqb Bool.eqb]; try reflexivity.
    + destruct its as [i|]; [|reflexivity].
      assert (Htruthy : js_truthy (field_json i) = true) by (by destruct i).
      rewrite Htruthy. rewrite IH by (specialize (Hitems Htruthy); lia). reflexivity.
    + destruct props as [entries|]; [|reflexivity].
      unfold schema_json in *. cbn [own_entries] in *.
      rewrite (traverse_fmap _ _
                 (fun kv : string * RemoteToolField => (kv.1, jsonSchemaFromField kv.2))).
      * cbn. by rewrite required_keys_typed.
      * intros [k child] Hin. cbn.
        rewrite IH; [reflexivity|].
        specialize (Hchild k (field_json child)).
        assert (Hlt : jsize (field_json child) < jsize (field_json (mkField TyObject d o its (Some entries)))).
        { apply Hchild. apply list_elem_of_fmap. by exists (k, child). }
        lia.
Qed.

Section CompileEntry.
Context {platform : Platform}.

Lemma config_json_reads (config : RemoteToolConfig) :
  js_get "name" (config_json config) = js_opt_string (config_name config)
  /\ js_get "description" (config_json config) = js_opt_string (config_description config)
  /\ js_get "endpoint" (config_json config) = js_opt_string (config_endpoint config)
  /\ js_get "schema" (config_json config)
     = match config_schema config with
       | Some entries => schema_json entries
       | None => JUndefined
       end.
Proof.
  destruct config as [name descr endpoint method hs schema].
  destruct name, descr, endpoint, method, hs, schema; split_and!; reflexivity.
Qed.

Lemma js_truthy_opt_string (o : option string) :
  js_truthy (js_opt_string o) = bool_decide (is_Some (MyMCP.truthy o)).
Proof. destruct o as [s|]; [|done]. simpl. by destruct (String.eqb s ""). Qed.

(** An entry of the declared type compiles, and to what the typed
    definitions say. *)
Lemma compile_entry_typed (config : RemoteToolConfig) (name endpoint : string) :
  MyMCP.truthy (config_name config) = Some name ->
  MyMCP.truthy (config_endpoint config) = Some endpoint ->
  MyMCP.has_name_and_endpoint (config_json config) = true
  /\ js_get "name" (config_json config) = JStr name
  /\ MyMCP.compile_entry (config_json config)
     = Ok (MyMCP.remote_definition config name endpoint).
Proof.
  intros Hname Hendpoint.
  destruct (config_json_reads config) as (Hn & Hd & He & Hs).
  assert (Hname' : config_name config = Some name).
  { unfold MyMCP.truthy in Hname. destruct (config_name config) as [s|]; [|done].
    destruct (String.eqb s ""); [done|]. by rewrite Hname. }
  assert (Hendpoint' : config_endpoint config = Some endpoint).
  { unfold MyMCP.truthy in Hendpoint. destruct (config_endpoint config) as [s|]; [|done].
    destruct (String.eqb s ""); [done|]. by rewrite Hendpoint. }
  split_and!.
  - unfold MyMCP.has_name_and_endpoint. rewrite Hn, He, !js_truthy_opt_string.
    rewrite Hname, Hendpoint. done.
  - by rewrite Hn, Hname'.
  - unfold MyMCP.compile_entry. cbv zeta.
    pose proof (fun k child => jsize_property "schema" k child (config_json config)) as Hchild.
    set (fuel := jsize (config_json config)) in *.
    rewrite Hn, Hd, He, Hname', Hendpoint'. rewrite Hs in Hchild. rewrite Hs.
    unfold Unchecked.remoteToolShape, Unchecked.remoteToolJsonSchema,
      MyMCP.remote_definition, remoteToolSchema, remoteToolJsonSchema.
    destruct (config_schema config) as [entries|]; cbn [own_entries schema_json] in *.
    + rewrite (traverse_fmap _ _
                 (fun kv : string * RemoteToolField =>
                    (kv.1, optional_if (field_optional kv.2) (scalarField kv.2)))).
      2:{ intros [k child] Hin. cbn [fst snd].
          destruct (field_json_reads child) as (_ & _ & _ & -> & _).
          rewrite scalarField_typed; [reflexivity|].
          assert (Hlt : jsize (field_json child) < fuel).
          { apply (Hchild k). apply list_elem_of_fmap. by exists (k, child). }
          lia. }
      rewrite (traverse_fmap _ _
                 (fun kv : string * RemoteToolField => (kv.1, jsonSchemaFromField kv.2))).
      2:{ intros [k child] Hin. cbn [fst snd].
          rewrite jsonSchemaFromField_typed; [reflexivity|].
          assert (Hlt : jsize (field_json child) < fuel).
          { apply (Hchild k). apply list_elem_of_fmap. by exists (k, child). }
          lia. }
      cbn. rewrite required_keys_typed.
      by destruct (config_description config).
    + cbn. by destruct (config_description config).
Qed.

(** What a compiled entry looks like: the validator is an object schema
    with a [z.any()] catch-all that declares the keys of the entry's
    [schema], and the wire schema lists the same keys. *)
Lemma compile_entry_inv (config : jsval) (definition : ToolDefinition) :
  MyMCP.compile_entry config = Ok definition ->
  exists shape props,
    def_name definition = MyMCP.text (js_get "name" config)
    /\ def_schema definition = Some (ZObject shape (Some ZAny))
    /\ def_jsonSchemaOverride definition
       = Some (JObj [("type", JStr "object");
                     ("properties", JObj props);
                     ("required",
                       JArr (JStr <$> Unchecked.required_keys
                                        (own_entries (js_get "schema" config))))])
    /\ def_handler definition = RemoteProxy config
    /\ (forall k, obj_has k shape = obj_has k (own_entries (js_get "schema" config)))
    /\ (forall k, obj_has k props = obj_has k (own_entries (js_get "schema" config))).
Proof.
  unfold MyMCP.compile_entry. cbv zeta.
  destruct (Unchecked.remoteToolShape _ _) as [shape|e] eqn:Hshape; [|discriminate].
  unfold Unchecked.remoteToolJsonSchema.
  destruct (traverse _ _) as [properties|e] eqn:Hprops; [|discriminate].
  cbn. intros [= <-]. cbn.
  exists (fromEntries shape), (fromEntries properties). split_and!; try reflexivity.
  - intros k. rewrite obj_has_fromEntries. apply obj_has_keys.
    unfold Unchecked.remoteToolShape in Hshape.
    eapply traverse_keys; [|exact Hshape].
    intros [k' child] y. cbn. destruct (Unchecked.scalarField _ child); [|discriminate].
    by intros [= <-].
  - intros k. rewrite obj_has_fromEntries. apply obj_has_keys.
    eapply traverse_keys; [|exact Hprops].
    intros [k' child] y. cbn. destruct (Unchecked.jsonSchemaFromField _ child); [|discriminate].
    by intros [= <-].
Qed.

(** An entry compiles exactly when no descriptor that the schema compiler
    reads in its schema is [null] or [undefined]. *)
Lemma compile_entry_described (config : jsval) :
  (exists definition, MyMCP.compile_entry config = Ok definition) <->
  forallb (fun kv : string * jsval => Unchecked.described (jsize config) kv.2)
    (own_entries (js_get "schema" config)) = true.
Proof.
  pose proof (fun k child => jsize_property "schema" k child config) as Hchild.
  rewrite forallb_forall. unfold MyMCP.compile_entry. cbv zeta.
  unfold Unchecked.remoteToolShape, Unchecked.remoteToolJsonSchema.
  set (entries := own_entries (js_get "schema" config)) in *.
  split.
  - intros [definition Hrun] [k child] Hin%list_elem_of_In.
    destruct (traverse _ entries) as [shape|e] eqn:Hshape in Hrun; [|discriminate].
    assert (Hok : exists ys, traverse
                (fun kv : string * jsval =>
                   and_then (Unchecked.scalarField (jsize config) kv.2)
                     (fun validator =>
                        Ok (kv.1, optional_if (js_truthy (js_get "optional" kv.2)) validator)))
                entries = Ok ys) by by eexists.
    rewrite traverse_ok in Hok. specialize (Hok _ Hin) as [y Hy]. cbn in *.
    apply (scalarField_described (jsize config) child); [specialize (Hchild k child Hin); lia|].
    destruct (Unchecked.scalarField (jsize config) child); [by eexists|discriminate].
  - intros H.
    assert (Hshape : exists ys, traverse
                (fun kv : string * jsval =>
                   and_then (Unchecked.scalarField (jsize config) kv.2)
                     (fun validator =>
                        Ok (kv.1, optional_if (js_truthy (js_get "optional" kv.2)) validator)))
                entries = Ok ys).
    { apply traverse_ok. intros [k child] Hin.
      specialize (H _ (proj1 (list_elem_of_In _ _) Hin)). cbn in *.
      apply (scalarField_described (jsize config) child) in H as [schema ->];
        [by eexists|specialize (Hchild k child Hin); lia]. }
    assert (Hprops : exists ys, traverse
                (fun kv : string * jsval =>
                   and_then (Unchecked.jsonSchemaFromField (jsize config) kv.2)
                     (fun doc => Ok (kv.1, doc)))
                entries = Ok ys).
    { apply traverse_ok. intros [k child] Hin.
      specialize (H _ (proj1 (list_elem_of_In _ _) Hin)). cbn in *.
      apply (jsonSchemaFromField_described (jsize config) child) in H as [doc ->];
        [by eexists|specialize (Hchild k child Hin); lia]. }
    destruct Hshape as [shape ->]. destruct Hprops as [properties ->]. by eexists.
Qed.

Lemma compiles_described (config : jsval) :
  MyMCP.compiles config = MyMCP.schema_described config.
Proof.
  unfold MyMCP.compiles, MyMCP.schema_described.
  destruct (MyMCP.has_name_and_endpoint config); [|done]. cbn [negb orb].
  apply Bool.eq_iff_eq_true. rewrite <- compile_entry_described.
  destruct (MyMCP.compile_entry config) as [definition|e].
  - split; [by eexists|done].
  - split; [done|by intros [? ?]].
Qed.

(** Every entry of the declared type is well formed. *)
Lemma config_json_well_formed (config : RemoteToolConfig) :
  MyMCP.well_formed (config_json config) = true.
Proof.
  unfold MyMCP.well_formed. rewrite <- compiles_described.
  unfold MyMCP.string_named, MyMCP.string_described, MyMCP.compiles.
  destruct (MyMCP.has_name_and_endpoint (config_json config)) eqn:Hguard; [|done].
  cbn [negb orb].
  unfold MyMCP.has_name_and_endpoint in Hguard.
  destruct (config_json_reads config) as (Hn & Hd & He & _).
  rewrite Hn, He, !js_truthy_opt_string in Hguard.
  apply andb_true_iff in Hguard as [[name Hname]%bool_decide_eq_true
                                      [endpoint Hendpoint]%bool_decide_eq_true].
  destruct (compile_entry_typed config name endpoint Hname Hendpoint) as (_ & -> & ->).
  rewrite He, Hd.
  assert (Hendpoint' : exists s, config_endpoint config = Some s).
  { unfold MyMCP.truthy in Hendpoint. destruct (config_endpoint config); [by eexists|done]. }
  destruct Hendpoint' as [s ->]. by destruct (config_description config).
Qed.

End CompileEntry.

(** ** Validation of configured tools *)

Section Validator.
Variable check : Check -> jsval -> bool.

Lemma member_issues_app (ms1 ms2 : list Member) :
  member_issues (ms1 ++ ms2) = member_issues ms1 ++ member_issues ms2.
Proof. unfold member_issues. by rewrite fmap_app, concat_app. Qed.

Lemma merged_fields_app (ms1 ms2 : list Member) :
  merged_fields (ms1 ++ ms2) = merged_fields ms1 ++ merged_fields ms2.
Proof.
  induction ms1 as [|[[k present] [v|issues]] rest IH]; simpl; [done| |done].
  destruct (writable k); [|done].
  destruct v; simpl; try by rewrite IH.
  destruct present; simpl; by rewrite IH.
Qed.

(** Members checked by [z.any()] raise no issue and are written, those
    named [__proto__] apart. *)
Lemma any_members_issues (extras : list (string * jsval)) :
  member_issues ((fun kv : string * jsval => (kv.1, true, zparse check ZAny kv.2)) <$> extras)
  = [].
Proof. induction extras as [|[k v] rest IH]; [done|]. exact IH. Qed.

Lemma any_members_fields (extras : list (string * jsval)) :
  merged_fields ((fun kv : string * jsval => (kv.1, true, zparse check ZAny kv.2)) <$> extras)
  = forwarded extras.
Proof.
  unfold forwarded. induction extras as [|[k v] rest IH]; [done|].
  cbn. destruct (writable k); [|exact IH].
  destruct v; (f_equal; exact IH).
Qed.

Lemma forwarded_all (extras : list (string * jsval)) :
  Forall (fun kv => kv.1 <> "__proto__") extras -> forwarded extras = extras.
Proof.
  unfold forwarded, writable. induction 1 as [|[k v] rest Hk _ IH]; [done|].
  simpl in *. apply String.eqb_neq in Hk. rewrite Hk. simpl. by rewrite IH.
Qed.

Lemma extra_entries_app (shape : list (string * ZodType))
    (fields extras : list (string * jsval)) :
  Forall (fun kv => obj_has kv.1 shape = false) extras ->
  extra_entries shape (fields ++ extras) = extra_entries shape fields ++ extras.
Proof.
  intros Hextra. unfold extra_entries. rewrite List.filter_app. f_equal.
  induction Hextra as [|[k v] rest Hk _ IH]; [done|].
  simpl in *. by rewrite Hk, IH.
Qed.

Lemma declared_lookup_app (shape : list (string * ZodType))
    (fields extras : list (string * jsval)) (k : string) :
  Forall (fun kv => obj_has kv.1 shape = false) extras ->
  k ∈ shape.*1 ->
  obj_lookup k (fields ++ extras) = obj_lookup k fields.
Proof.
  intros Hextra Hk. rewrite obj_lookup_app.
  destruct (obj_lookup k fields); [done|].
  apply obj_lookup_None. intros Hin.
  apply list_elem_of_fmap in Hin as ([k' v] & -> & Hin).
  rewrite Forall_forall in Hextra. specialize (Hextra _ Hin). simpl in Hextra.
  apply obj_has_false in Hextra. by apply Hextra.
Qed.

(** The members declared by the shape are parsed alike with and without
    undeclared entries appended to the input. *)
Lemma declared_members_app (shape : list (string * ZodType))
    (fields extras : list (string * jsval)) :
  Forall (fun kv => obj_has kv.1 shape = false) extras ->
  ((fun kt : string * ZodType =>
      (kt.1, obj_has kt.1 (fields ++ extras),
       zparse check kt.2 (default JUndefined (obj_lookup kt.1 (fields ++ extras)))))
     <$> shape)
  = ((fun kt : string * ZodType =>
        (kt.1, obj_has kt.1 fields,
         zparse check kt.2 (default JUndefined (obj_lookup kt.1 fields))))
       <$> shape).
Proof.
  intros Hextra. apply list_eq. intros i. rewrite !list_lookup_fmap.
  destruct (shape !! i) as [[k t]|] eqn:Hi; [|done]. simpl.
  assert (Hk : k ∈ shape.*1).
  { apply list_elem_of_fmap. exists (k, t). split; [done|].
    by apply list_elem_of_lookup_2 in Hi. }
  unfold obj_has. by rewrite (declared_lookup_app shape fields extras k Hextra Hk).
Qed.

(** With a [z.any()] catch-all, undeclared entries appended to a valid
    input keep it valid and are appended to the output as they are, those
    named [__proto__] apart. *)
Lemma catchall_keeps_extras (shape : list (string * ZodType))
    (fields extras : list (string * jsval)) (v : jsval) :
  Forall (fun kv => obj_has kv.1 shape = false) extras ->
  zparse check (ZObject shape (Some ZAny)) (JObj fields) = Valid v ->
  exists out,
    v = JObj out
    /\ zparse check (ZObject shape (Some ZAny)) (JObj (fields ++ extras))
       = Valid (JObj (out ++ forwarded extras)).
Proof.
  intros Hextra. cbn [zparse].
  rewrite (declared_members_app shape fields extras Hextra).
  rewrite (extra_entries_app shape fields extras Hextra).
  rewrite fmap_app, app_assoc.
  set (ms := (_ <$> shape) ++ (_ <$> extra_entries shape fields)).
  unfold mergeObject. rewrite member_issues_app, merged_fields_app.
  rewrite any_members_issues, any_members_fields, app_nil_r.
  destruct (member_issues ms); [|discriminate].
  intros [= <-]. by eexists.
Qed.
End Validator.

(** ** Invocation *)

Section Invocation.
Context {platform : Platform}.
Variable init : M unit.

(** Once the flag is set the lazy initializer only refreshes the
    environment and the context. *)
Lemma ensureInitialized_done (a : McpAgent) (e : Env) (c : ExecutionContext) :
  initialized a = true ->
  ensureInitialized init e c a = (Ok tt, set_env_ctx e c a).
Proof. intros H. unfold ensureInitialized. by rewrite H. Qed.

(** C4.  Whatever the arguments, invoking a name the registry does not
    hold after the lazy initializer has returned throws the not-found
    error, and the agent is left exactly as the initializer left it: no
    [parseAsync] and no handler call has taken place, so the failure is
    never a validation failure. *)
Theorem unknown_tool_not_found (a a1 : McpAgent) (name : string) (args : jsval)
    (request : option Request) (e : Env) (c : ExecutionContext) :
  ensureInitialized init e c a = (Ok tt, a1) ->
  tools a1 !! name = None ->
  invokeTool init name args request e c a = (Throw (ToolNotFound name), a1)
  /\ (forall issues,
        (invokeTool init name args request e c a).1 <> Throw (ValidationError issues))
  /\ trace (invokeTool init name args request e c a).2 = trace a1.
Proof.
  intros Hinit Hname.
  assert (H : invokeTool init name args request e c a = (Throw (ToolNotFound name), a1)).
  { unfold invokeTool, bind. rewrite Hinit. by rewrite Hname. }
  rewrite H. by split_and!.
Qed.

(** C7.  A tool registered without a schema is called with the arguments
    it was invoked with, unchanged, or with the empty object when they are
    [undefined] or [null]; nothing is validated, and the outcome is the
    handler's.  The same holds for the callback handed to the protocol
    server. *)
Theorem schemaless_tool_accepts_anything (a a1 : McpAgent) (name : string)
    (tool : ToolRegistration) (args : jsval) (request : option Request)
    (e : Env) (c : ExecutionContext) :
  ensureInitialized init e c a = (Ok tt, a1) ->
  tools a1 !! name = Some tool ->
  tool_schema tool = None ->
  (let params :=
     {| hp_args := passed_through args; hp_env := env a1; hp_state := state a1;
        hp_request := request; hp_executionCtx := executionCtx a1 |} in
   invokeTool init name args request e c a
   = (run_handler (tool_handler tool) params,
      emit [HandlerCall (tool_name tool) params] a1))
  /\ (let params :=
        {| hp_args := passed_through args; hp_env := Some e; hp_state := state a1;
           hp_request := request; hp_executionCtx := Some c |} in
      toolCallback e c tool args request a1
      = (run_handler (tool_handler tool) params,
         emit [HandlerCall (tool_name tool) params] a1))
  /\ passed_through JUndefined = JObj []
  /\ passed_through JNull = JObj []
  /\ (forall fields, passed_through (JObj fields) = JObj fields).
Proof.
  intros Hinit Hname Hschema. split_and!; try done.
  - unfold invokeTool, bind. rewrite Hinit, Hname, Hschema. done.
  - unfold toolCallback, bind. rewrite Hschema. done.
Qed.

(** C9, amended.  A remote tool as [registerRemoteTools] compiles it from
    a configuration entry: whenever an argument object passes its validator,
    the same object with further entries under undeclared names passes as
    well; the validated arguments are the former ones followed by these
    entries as they were given, those named [__proto__] left out, and that
    is what the handler is called with; the advertised wire schema has no
    property under any of these names. *)
Theorem remote_tool_keeps_extra_properties (a a1 : McpAgent)
    (config : jsval) (definition : ToolDefinition) (validator : ZodType) (name : string)
    (fields extras : list (string * jsval)) (v : jsval)
    (request : option Request) (e : Env) (c : ExecutionContext) :
  ensureInitialized init e c a = (Ok tt, a1) ->
  MyMCP.compile_entry config = Ok definition ->
  def_schema definition = Some validator ->
  tools a1 !! name = Some (registration_of definition) ->
  Forall (fun kv => obj_has kv.1 (own_entries (js_get "schema" config)) = false) extras ->
  zparse check_ok validator (JObj fields) = Valid v ->
  exists out,
    v = JObj out
    /\ zparse check_ok validator (JObj (fields ++ extras))
       = Valid (JObj (out ++ forwarded extras))
    /\ (Forall (fun kv => kv.1 <> "__proto__") extras -> forwarded extras = extras)
    /\ (let params :=
          {| hp_args := JObj (out ++ forwarded extras); hp_env := env a1;
             hp_state := state a1; hp_request := request;
             hp_executionCtx := executionCtx a1 |} in
        invokeTool init name (JObj (fields ++ extras)) request e c a
        = (run_handler (RemoteProxy config) params,
           emit [HandlerCall (def_name definition) params]
             (emit [ParseAsync name (JObj (fields ++ extras))] a1)))
    /\ exists doc props,
         def_jsonSchemaOverride definition = Some doc
         /\ js_get "properties" doc = JObj props
         /\ Forall (fun kv => obj_lookup kv.1 props = None) extras.
Proof.
  intros Hinit Hcompile Hvalidator Hname Hextra Hvalid.
  destruct (compile_entry_inv config definition Hcompile)
    as (shape & props & Hdefname & Hschema & Hjson & Hhandler & Hshape & Hprops).
  rewrite Hschema in Hvalidator. injection Hvalidator as <-.
  assert (Hundeclared : Forall (fun kv : string * jsval => obj_has kv.1 shape = false) extras).
  { eapply Forall_impl; [exact Hextra|]. intros [k x] Hk. simpl in *. by rewrite Hshape. }
  destruct (catchall_keeps_extras check_ok shape fields extras v Hundeclared Hvalid)
    as (out & -> & Hout).
  exists out. split_and!; [done|exact Hout|apply forwarded_all| |].
  - unfold invokeTool, bind. rewrite Hinit, Hname.
    cbn [tool_schema registration_of]. rewrite Hschema.
    unfold coalesce, parseAsync. cbn [nullish]. rewrite Hout.
    unfold call_handler. cbn [tool_name tool_handler registration_of]. by rewrite Hhandler.
  - eexists _, props. split; [exact Hjson|]. split; [reflexivity|].
    eapply Forall_impl; [exact Hextra|]. intros [k x] Hk. simpl in *.
    apply obj_lookup_None. apply obj_has_false. by rewrite Hprops.
Qed.
End Invocation.

Lemma unknown_tool_not_found_witness :
  let init := MyMCP.init (platform := Sample.platform) in
  let e := Sample.env_of None in
  let a1 := (ensureInitialized init e 0 new_agent).2 in
  ensureInitialized init e 0 new_agent = (Ok tt, a1)
  /\ tools a1 !! "missing-tool" = None
  /\ invokeTool (platform := Sample.platform) init "missing-tool" (JObj []) None e 0 new_agent
     = (Throw (ToolNotFound "missing-tool"), a1).
Proof.
  intros init e a1.
  assert (H1 : ensureInitialized init e 0 new_agent = (Ok tt, a1)) by (vm_compute; reflexivity).
  assert (H2 : tools a1 !! "missing-tool" = None) by (vm_compute; reflexivity).
  split_and!; [exact H1|exact H2|].
  exact (proj1 (unknown_tool_not_found (platform := Sample.platform) init
                  new_agent a1 "missing-tool" (JObj []) None e 0 H1 H2)).
Defined.

Lemma schemaless_tool_accepts_anything_witness :
  let e := Sample.env_of None in
  let a1 := (ensureInitialized Sample.ping_init e 0 new_agent).2 in
  let args := JObj [("anything", JNum 1); ("at", JArr [JNull]); ("all", JStr "x")] in
  let params :=
    {| hp_args := args; hp_env := Some e; hp_state := {| remoteTools := [] |};
       hp_request := None; hp_executionCtx := Some 0 |} in
  ensureInitialized Sample.ping_init e 0 new_agent = (Ok tt, a1)
  /\ tools a1 !! "ping" = Some (registration_of Sample.ping)
  /\ tool_schema (registration_of Sample.ping) = None
  /\ invokeTool (platform := Sample.platform) Sample.ping_init "ping" args None e 0 new_agent
     = (Sample.handler_result DurableTask params, emit [HandlerCall "ping" params] a1).
Proof.
  intros e a1 args params.
  assert (H1 : ensureInitialized Sample.ping_init e 0 new_agent = (Ok tt, a1))
    by (vm_compute; reflexivity).
  assert (H2 : tools a1 !! "ping" = Some (registration_of Sample.ping))
    by (vm_compute; reflexivity).
  split_and!; [exact H1|exact H2|reflexivity|].
  exact (proj1 (schemaless_tool_accepts_anything (platform := Sample.platform)
                  Sample.ping_init new_agent a1 "ping" (registration_of Sample.ping)
                  args None e 0 H1 H2 eq_refl)).
Defined.

Lemma remote_tool_keeps_extra_properties_witness :
  let init := MyMCP.init (platform := Sample.platform) in
  let e := Sample.env_of (Some "one-nameless-one-forecast") in
  let a1 := (ensureInitialized init e 0 new_agent).2 in
  let definition :=
    MyMCP.remote_definition Sample.forecast "forecast" "https://tools.example/forecast" in
  let validator := remoteToolSchema (config_schema Sample.forecast) in
  let fields := [("city", JStr "Oslo"); ("window", JObj [("from", JNum 1)])] in
  let extras := [("verbose", JBool true); ("trace", JObj [("id", JStr "t-7")])] in
  ensureInitialized init e 0 new_agent = (Ok tt, a1)
  /\ MyMCP.compile_entry (platform := Sample.platform) (config_json Sample.forecast)
     = Ok definition
  /\ tools a1 !! "forecast" = Some (registration_of definition)
  /\ Forall (fun kv => obj_has kv.1 (own_entries (js_get "schema" (config_json Sample.forecast)))
                       = false) extras
  /\ zparse (check_ok (Platform := Sample.platform)) validator (JObj fields)
     = Valid (JObj fields)
  /\ exists out,
       JObj fields = JObj out
       /\ zparse (check_ok (Platform := Sample.platform)) validator (JObj (fields ++ extras))
          = Valid (JObj (out ++ extras)).
Proof.
  intros init e a1 definition validator fields extras.
  assert (H1 : ensureInitialized init e 0 new_agent = (Ok tt, a1)) by (vm_compute; reflexivity).
  assert (H2 : MyMCP.compile_entry (platform := Sample.platform) (config_json Sample.forecast)
               = Ok definition) by (vm_compute; reflexivity).
  assert (H3 : tools a1 !! "forecast" = Some (registration_of definition))
    by (vm_compute; reflexivity).
  assert (H4 : Forall (fun kv => obj_has kv.1
                                   (own_entries (js_get "schema" (config_json Sample.forecast)))
                                 = false) extras)
    by (repeat constructor).
  assert (H5 : zparse (check_ok (Platform := Sample.platform)) validator (JObj fields)
               = Valid (JObj fields)) by (vm_compute; reflexivity).
  split_and!; [exact H1|exact H2|exact H3|exact H4|exact H5|].
  destruct (remote_tool_keeps_extra_properties (platform := Sample.platform) init
              new_agent a1 (config_json Sample.forecast) definition validator "forecast"
              fields extras (JObj fields) None e 0 H1 H2 eq_refl H3 H4 H5)
    as (out & Hout & Hparse & Hall & _).
  exists out. split; [exact Hout|].
  rewrite Hall in Hparse; [exact Hparse|]. repeat constructor; discriminate.
Defined.

(** C9 as stated fails: an undeclared property named [__proto__] (an own
    property of the object that [JSON.parse] returns for the request body)
    passes the validator of the configured tool [forecast] but is not in the
    validated arguments, and the handler is called without it. *)
Lemma proto_property_is_not_forwarded :
  let init := MyMCP.init (platform := Sample.platform) in
  let e := Sample.env_of (Some "one-nameless-one-forecast") in
  let validator := remoteToolSchema (config_schema Sample.forecast) in
  let fields := [("city", JStr "Oslo"); ("window", JObj [("from", JNum 1)])] in
  let extras := [("__proto__", JObj [("admin", JBool true)])] in
  let outcome :=
    invokeTool (platform := Sample.platform) init "forecast" (JObj (fields ++ extras))
      None e 0 new_agent in
  tool_schema <$> tools outcome.2 !! "forecast" = Some (Some validator)
  /\ Forall (fun kv => obj_has kv.1 (default [] (config_schema Sample.forecast)) = false) extras
  /\ zparse (check_ok (Platform := Sample.platform)) validator (JObj (fields ++ extras))
     = Valid (JObj fields)
  /\ (exists result, outcome.1 = Ok result)
  /\ omap (fun ev => match ev with
                     | HandlerCall "forecast" params => Some (hp_args params)
                     | _ => None
                     end) (trace outcome.2)
     = [JObj fields].
Proof.
  vm_compute. split_and!; [done|repeat constructor|done|by eexists|done].
Qed.

(** ** Split-channel sessions *)

Section Sessions.
Variable init : M unit.

Lemma received_deliver (id : string) (t : WorkerSseTransport) (messages : list jsval) :
  received id (deliver id t messages) = messages.
Proof.
  unfold deliver, received, receive.
  induction messages as [|m rest IH]; [done|].
  destruct (sse_onmessage t); cbn; rewrite String.eqb_refl; f_equal; exact IH.
Qed.

Lemma dispatched_deliver (id : string) (t : WorkerSseTransport) (messages : list jsval) :
  sse_onmessage t = true -> dispatched id (deliver id t messages) = messages.
Proof.
  intros Hcb. unfold deliver, dispatched, receive. rewrite Hcb.
  induction messages as [|m rest IH]; [done|].
  cbn. rewrite String.eqb_refl. f_equal. exact IH.
Qed.

(** A request that names a stored session and is neither an opening GET
    nor without identifier reaches the method dispatch. *)
Lemma handleSseRequest_found (uuid : string) (request : Request) (e : Env)
    (c : ExecutionContext) (endpoint id : string) (session : SseSession) (a : McpAgent) :
  sessionId_of endpoint request = id ->
  id <> "" ->
  sseSessions a !! id = Some session ->
  handleSseRequest init uuid request e c endpoint a
  = if String.eqb (req_method request) "POST" then
      match req_json request with
      | None => (Throw BodyNotJson, a)
      | Some body =>
          (Ok ok_response,
           emit (deliver id (session_transport session)
                   match body with JArr xs => xs | _ => [body] end) a)
      end
    else if String.eqb (req_method request) "DELETE" then
      (Ok {| status := 204; body := NoBody; headers := [] |},
       set_sseSessions (delete id (sseSessions a)) (emit (cleanup session).2 a))
    else (Ok {| status := 405; body := Text "Unsupported method"; headers := [] |}, a).
Proof.
  intros Hid Hne Hs. unfold handleSseRequest. rewrite Hid.
  assert (Hempty : String.eqb id "" = false) by by apply String.eqb_neq.
  rewrite Hempty, andb_false_r, Hs. done.
Qed.

(** A request that names no stored session is answered 404. *)
Lemma handleSseRequest_missing (uuid : string) (request : Request) (e : Env)
    (c : ExecutionContext) (endpoint id : string) (a : McpAgent) :
  sessionId_of endpoint request = id ->
  id <> "" ->
  sseSessions a !! id = None ->
  handleSseRequest init uuid request e c endpoint a
  = (Ok {| status := 404; body := Text "Session not found"; headers := [] |}, a).
Proof.
  intros Hid Hne Hs. unfold handleSseRequest. rewrite Hid.
  assert (Hempty : String.eqb id "" = false) by by apply String.eqb_neq.
  rewrite Hempty, andb_false_r, Hs. done.
Qed.

(** C6.  A POST to a live session whose body is an array hands the
    array's messages to the session's transport, each once and in array
    order, and answers 200 with [{ok:true}]; a body that is a single
    object hands over that one message.  With the inbound callback
    attached the callback sees the same messages in the same order. *)
Theorem post_delivers_in_order (uuid : string) (request : Request) (e : Env)
    (c : ExecutionContext) (endpoint id : string) (session : SseSession) (a : McpAgent) :
  sessionId_of endpoint request = id ->
  id <> "" ->
  sseSessions a !! id = Some session ->
  req_method request = "POST" ->
  (forall messages, req_json request = Some (JArr messages) ->
     exists evs,
       handleSseRequest init uuid request e c endpoint a = (Ok ok_response, emit evs a)
       /\ received id evs = messages
       /\ length (received id evs) = length messages
       /\ (sse_onmessage (session_transport session) = true ->
           dispatched id evs = messages))
  /\ (forall fields, req_json request = Some (JObj fields) ->
        exists evs,
          handleSseRequest init uuid request e c endpoint a = (Ok ok_response, emit evs a)
          /\ received id evs = [JObj fields]
          /\ (sse_onmessage (session_transport session) = true ->
              dispatched id evs = [JObj fields])).
Proof.
  intros Hid Hne Hs Hpost.
  pose proof (handleSseRequest_found uuid request e c endpoint id session a Hid Hne Hs) as H.
  rewrite Hpost in H. simpl in H. split.
  - intros messages Hbody. rewrite Hbody in H. eexists. split; [exact H|].
    rewrite received_deliver. split_and!; [done|done|]. apply dispatched_deliver.
  - intros fields Hbody. rewrite Hbody in H. eexists. split; [exact H|].
    rewrite received_deliver. split; [done|]. apply dispatched_deliver.
Qed.

(** When the server side closes the transport, the session stays in the
    table with its stream closed. *)
Lemma server_close_keeps_session (id : string) (session : SseSession) (a : McpAgent) :
  sseSessions a !! id = Some session ->
  exists session',
    sseSessions (server_close id a).2 !! id = Some session'
    /\ stream_open session' = false
    /\ session_transport session' = session_transport session.
Proof.
  intros Hs. unfold server_close, modify. simpl. rewrite Hs. simpl.
  eexists. rewrite lookup_insert_eq. done.
Qed.

End Sessions.



Lemma post_delivers_in_order_witness :
  let post :=
    Sample.sse_request "POST" "/sse/s-1"
      (Some (JArr [Sample.message 1; Sample.message 2; Sample.message 3])) in
  let session :=
    {| session_id := "s-1"; session_transport := connect (new_sse_transport "s-1");
       stream_open := true; heartbeat_running := true |} in
  sessionId_of "/sse" post = "s-1"
  /\ "s-1" <> ""
  /\ sseSessions Sample.with_session !! "s-1" = Some session
  /\ req_method post = "POST"
  /\ exists evs,
       handleSseRequest Sample.ping_init "s-2" post (Sample.env_of None) 0 "/sse"
         Sample.with_session
       = (Ok ok_response, emit evs Sample.with_session)
       /\ received "s-1" evs = [Sample.message 1; Sample.message 2; Sample.message 3].
Proof.
  intros post session.
  assert (H1 : sessionId_of "/sse" post = "s-1") by (vm_compute; reflexivity).
  assert (H2 : "s-1" <> "") by discriminate.
  assert (H3 : sseSessions Sample.with_session !! "s-1" = Some session)
    by (vm_compute; reflexivity).
  split_and!; [exact H1|exact H2|exact H3|reflexivity|].
  destruct (proj1 (post_delivers_in_order Sample.ping_init "s-2" post (Sample.env_of None) 0
                     "/sse" "s-1" session Sample.with_session H1 H2 H3 eq_refl)
              [Sample.message 1; Sample.message 2; Sample.message 3] eq_refl)
    as (evs & Hrun & Hrecv & _).
  exists evs. split; [exact Hrun|exact Hrecv].
Defined.

(** ** Lazy initialization *)

Section Initializer.
Variable init : M unit.

(** Run alone, an invocation takes its two steps back to back and is the
    uninterrupted [ensureInitialized]. *)
Lemma ensureInitialized_two_steps (e : Env) (c : ExecutionContext) (a : McpAgent) :
  let (i1, a1) := ensureInitialized_step init (Called e c) a in
  let (i2, a2) := ensureInitialized_step init i1 a1 in
  (i2, a2)
  = (Settled (ensureInitialized init e c a).1, (ensureInitialized init e c a).2).
Proof.
  unfold ensureInitialized_step, ensureInitialized.
  destruct (initialized a); simpl; [done|].
  by destruct (init _) as [[[]|err] a'].
Qed.

Lemma ensureInitialized_sets_flag (e : Env) (c : ExecutionContext) (a a1 : McpAgent) :
  ensureInitialized init e c a = (Ok tt, a1) -> initialized a1 = true.
Proof.
  unfold ensureInitialized. destruct (initialized a) eqn:Hflag; simpl.
  - by intros [= <-].
  - destruct (init _) as [[[]|err] a']; [|discriminate]. by intros [= <-].
Qed.

(** Invocations that follow a completed one, each run to its end before
    the next starts, never enter [init] again and leave the registry as it
    is. *)
Lemma sequential_calls_skip_init (e e' : Env) (c c' : ExecutionContext) (a a1 : McpAgent) :
  ensureInitialized init e c a = (Ok tt, a1) ->
  ensureInitialized init e' c' a1 = (Ok tt, set_env_ctx e' c' a1)
  /\ tools (set_env_ctx e' c' a1) = tools a1
  /\ init_count (set_env_ctx e' c' a1) = init_count a1.
Proof.
  intros H. apply ensureInitialized_sets_flag in H.
  unfold ensureInitialized. by rewrite H.
Qed.
End Initializer.

(** C3, at the inputs on which the code departs from it.  (1) Two
    invocations of the lazy initializer on a fresh [MyMCP], the second
    called while the first is suspended at [await this.init()]: [init] is
    entered twice, and the second invocation fails on the first tool it
    tries to register again.  (2) Two invocations one after the other when
    the configuration names a built-in tool: the first fails, the flag stays
    unset, and the second enters [init] again and fails on the first
    built-in. *)
Theorem init_entered_twice (platform : Platform) (c1 c2 : ExecutionContext) :
  (let e := {| MCP_REMOTE_TOOLS := None |} in
   let outcome :=
     run_schedule MyMCP.init [0; 1; 0; 1] [Called e c1; Called e c2] new_agent in
   outcome.1 = [Settled (Ok tt); Settled (Throw (ToolAlreadyRegistered "browser_render"))]
   /\ init_count outcome.2 = 2)
  /\ (let e := Sample.env_of (Some "one-nameless-one-kv") in
      let init := MyMCP.init (platform := Sample.platform) in
      let first := ensureInitialized init e c1 new_agent in
      let second := ensureInitialized init e c2 first.2 in
      first.1 = Throw (ToolAlreadyRegistered "kv")
      /\ initialized first.2 = false
      /\ second.1 = Throw (ToolAlreadyRegistered "browser_render")
      /\ init_count second.2 = 2).
Proof. split; vm_compute; done. Qed.

(** ** Remote tools from the configuration *)

Section RemoteTools.
Context {platform : Platform}.





End RemoteTools.

Section Startup.
Context {platform : Platform}.

Lemma state_updates_app (evs1 evs2 : list Event) :
  state_updates (evs1 ++ evs2) = state_updates evs1 ++ state_updates evs2.
Proof. unfold state_updates. apply omap_app. Qed.





End Startup.



(** * Further properties of the code *)

(** ** Session identifiers in request paths *)

Lemma prefix_append (s r : string) : String.prefix s (s +:+ r) = true.
Proof.
  apply String.prefix_correct. induction s as [|ch s IH]; simpl.
  - by destruct r.
  - by rewrite IH.
Qed.

Lemma index_of_prefix (s r : string) : String.index 0 s (s +:+ r) = Some 0.
Proof.
  destruct (s +:+ r) as [|ch rest] eqn:Heq.
  - destruct s; [done|discriminate].
  - cbn [String.index]. by rewrite <- Heq, prefix_append.
Qed.

Lemma substring_all (s : string) : String.substring 0 (String.length s) s = s.
Proof. induction s as [|ch s IH]; simpl; [done|]. by rewrite IH. Qed.

Lemma substring_after (s r : string) :
  String.substring (String.length s) (String.length (s +:+ r) - String.length s) (s +:+ r) = r.
Proof.
  induction s as [|ch s IH]; simpl.
  - rewrite Nat.sub_0_r. apply substring_all.
  - exact IH.
Qed.

(** Removing the mount path from a path that starts with it leaves the
    rest of the path. *)
Lemma remove_first_prefix (endpoint rest : string) :
  remove_first endpoint (endpoint +:+ rest) = rest.
Proof.
  unfold remove_first. rewrite index_of_prefix. simpl.
  replace (String.substring 0 0 (endpoint +:+ rest)) with "" by by destruct (endpoint +:+ rest).
  simpl. apply substring_after.
Qed.

Lemma append_empty_r (s : string) : s +:+ "" = s.
Proof. induction s as [|ch s IH]; [done|]. exact (f_equal (String ch) IH). Qed.

Lemma strip_leading_slashes_clean (s : string) :
  (forall rest, s <> String "/"%char rest) -> strip_leading_slashes s = s.
Proof.
  destruct s as [|ch s]; [done|]. intros Hclean. simpl.
  destruct (Ascii.ascii_dec ch "/"%char) as [->|Hne]; [by destruct (Hclean s)|].
  destruct ch as [[] [] [] [] [] [] [] []]; try done.
Qed.

(** X1.  A request whose path is the mount path followed by a slash and an
    identifier that does not itself begin with a slash addresses that
    identifier; the mount path alone, with or without a trailing slash,
    addresses none. *)
Theorem session_id_of_path (endpoint id method : string) (upgrade : option string)
    (json : option jsval) :
  (forall rest, id <> String "/"%char rest) ->
  sessionId_of endpoint (mkRequest method (endpoint +:+ "/" +:+ id) upgrade json) = id
  /\ sessionId_of endpoint (mkRequest method endpoint upgrade json) = ""
  /\ sessionId_of endpoint (mkRequest method (endpoint +:+ "/") upgrade json) = "".
Proof.
  intros Hclean. unfold sessionId_of. simpl. split_and!.
  - rewrite remove_first_prefix. simpl. by apply strip_leading_slashes_clean.
  - pose proof (remove_first_prefix endpoint "") as H.
    rewrite append_empty_r in H. by rewrite H.
  - by rewrite remove_first_prefix.
Qed.

Lemma session_id_of_path_witness :
  (forall rest, "s-1" <> String "/"%char rest)
  /\ sessionId_of "/sse" (mkRequest "POST" "/sse/s-1" None None) = "s-1".
Proof.
  assert (H : forall rest, "s-1" <> String "/"%char rest) by (intros rest; discriminate).
  split; [exact H|].
  exact (proj1 (session_id_of_path "/sse" "s-1" "POST" None None H)).
Defined.

(** ** Life cycle of split-channel sessions *)

Section SessionLifecycle.
Variable init : M unit.

(** The opening request: a GET without identifier, once the initializer has
    returned. *)
Lemma handleSseRequest_open (uuid : string) (request : Request) (e : Env)
    (c : ExecutionContext) (endpoint : string) (a a0 : McpAgent) :
  req_method request = "GET" ->
  sessionId_of endpoint request = "" ->
  ensureInitialized init e c a = (Ok tt, a0) ->
  handleSseRequest init uuid request e c endpoint a
  = (Ok {| status := 200; body := EventStream uuid;
           headers := [("content-type", "text/event-stream; charset=utf-8");
                       ("cache-control", "no-cache, no-transform");
                       ("connection", "keep-alive");
                       ("x-mcp-session", uuid);
                       ("access-control-expose-headers", "x-mcp-session")] |},
     set_sseSessions
       (<[uuid := {| session_id := uuid;
                    session_transport := connect (new_sse_transport uuid);
                    stream_open := true; heartbeat_running := true |}]>
          (sseSessions a0)) a0).
Proof.
  intros Hget Hid Hinit. unfold handleSseRequest. rewrite Hget, Hid. simpl.
  unfold bind. by rewrite Hinit.
Qed.

(** X2.  Opening a session answers 200 with the event stream, carries the
    fresh identifier in the [x-mcp-session] header and leaves the registry
    alone; a POST that addresses this identifier afterwards is answered 200
    and its messages reach the inbound callback of the session, in order. *)
Theorem opened_session_is_reachable (uuid uuid' : string) (opening post : Request)
    (e e' : Env) (c c' : ExecutionContext) (endpoint : string) (a a0 : McpAgent)
    (messages : list jsval) :
  req_method opening = "GET" ->
  sessionId_of endpoint opening = "" ->
  ensureInitialized init e c a = (Ok tt, a0) ->
  uuid <> "" ->
  req_method post = "POST" ->
  sessionId_of endpoint post = uuid ->
  req_json post = Some (JArr messages) ->
  exists response a1 evs,
    handleSseRequest init uuid opening e c endpoint a = (Ok response, a1)
    /\ status response = 200
    /\ body response = EventStream uuid
    /\ obj_lookup "x-mcp-session" (headers response) = Some uuid
    /\ tools a1 = tools a0
    /\ handleSseRequest init uuid' post e' c' endpoint a1 = (Ok ok_response, emit evs a1)
    /\ received uuid evs = messages
    /\ dispatched uuid evs = messages.
Proof.
  intros Hget Hnone Hinit Hne Hpost Hid Hbody.
  rewrite (handleSseRequest_open uuid opening e c endpoint a a0 Hget Hnone Hinit).
  do 3 eexists. split; [reflexivity|]. split_and!; try reflexivity.
  - rewrite (handleSseRequest_found init uuid' post e' c' endpoint uuid _ _ Hid Hne)
      by (simpl; apply lookup_insert_eq).
    rewrite Hpost, Hbody. reflexivity.
  - apply received_deliver.
  - by apply dispatched_deliver.
Qed.

(** X3.  A DELETE on a live identifier answers 204, stops the heartbeat,
    closes the transport and the protocol server in that order, removes that
    identifier and no other, and leaves registry and shared state alone; a
    second DELETE on the identifier is answered 404. *)
Theorem delete_closes_only_that_session (uuid : string) (request : Request) (e : Env)
    (c : ExecutionContext) (endpoint id : string) (session : SseSession) (a : McpAgent) :
  sessionId_of endpoint request = id ->
  id <> "" ->
  sseSessions a !! id = Some session ->
  req_method request = "DELETE" ->
  exists a',
    handleSseRequest init uuid request e c endpoint a
    = (Ok {| status := 204; body := NoBody; headers := [] |}, a')
    /\ sseSessions a' !! id = None
    /\ (forall other, other <> id -> sseSessions a' !! other = sseSessions a !! other)
    /\ tools a' = tools a
    /\ state a' = state a
    /\ (stream_open session = true ->
        sse_onclose (session_transport session) = true ->
        trace a' = trace a ++ [ClearInterval (session_id session);
                               OnClose (session_id session);
                               ServerClose (session_id session)])
    /\ handleSseRequest init uuid request e c endpoint a'
       = (Ok {| status := 404; body := Text "Session not found"; headers := [] |}, a').
Proof.
  intros Hid Hne Hs Hdel.
  rewrite (handleSseRequest_found init uuid request e c endpoint id session a Hid Hne Hs).
  rewrite Hdel. simpl. eexists. split; [reflexivity|]. split_and!; try reflexivity.
  - simpl. apply lookup_delete_eq.
  - intros other Hother. simpl. by rewrite lookup_delete_ne.
  - intros Hopen Hcb. simpl. unfold cleanup, transport_close. simpl.
    by rewrite Hopen, Hcb.
  - apply (handleSseRequest_missing init uuid request e c endpoint id); [done..|].
    simpl. apply lookup_delete_eq.
Qed.

(** X4.  Cancelling the stream of a live session removes that identifier
    and no other and runs its cleanup once; cancelling an identifier that is
    not stored changes nothing, so a second cancel is a no-op. *)
Theorem cancel_removes_only_that_session (id : string) (a : McpAgent) :
  let a' := (stream_cancel id a).2 in
  sseSessions a' !! id = None
  /\ (forall other, other <> id -> sseSessions a' !! other = sseSessions a !! other)
  /\ tools a' = tools a
  /\ (forall session, sseSessions a !! id = Some session ->
        sse_onclose (session_transport session) = true ->
        trace a' = trace a ++ [ClearInterval (session_id session);
                               ConsoleWarn "SSE stream already closed";
                               OnClose (session_id session);
                               ServerClose (session_id session)])
  /\ (sseSessions a !! id = None -> a' = a)
  /\ (stream_cancel id a').2 = a'.
Proof.
  assert (Hgone : forall b, sseSessions b !! id = None -> (stream_cancel id b).2 = b).
  { intros b Hb. unfold stream_cancel, modify. simpl. rewrite Hb.
    rewrite delete_id by done. by destruct b. }
  intros a'.
  assert (Hid : sseSessions a' !! id = None).
  { unfold a', stream_cancel, modify. simpl. apply lookup_delete_eq. }
  split_and!.
  - exact Hid.
  - intros other Hother. unfold a', stream_cancel, modify. simpl.
    rewrite lookup_delete_ne by done. by destruct (sseSessions a !! id).
  - unfold a', stream_cancel, modify. simpl. by destruct (sseSessions a !! id).
  - intros session Hs Hcb. unfold a', stream_cancel, modify. simpl. rewrite Hs. simpl.
    by rewrite Hcb.
  - apply Hgone.
  - by apply Hgone.
Qed.

(** X5.  The requests the handler turns down leave the agent exactly as it
    was, the lazy initializer included: no identifier on anything but a GET
    is answered 400, an unknown identifier 404, a live identifier with a
    method other than POST and DELETE (a GET among them) 405, and a POST
    whose body is not JSON fails without delivering anything. *)
Theorem rejected_requests_change_nothing (uuid : string) (request : Request) (e : Env)
    (c : ExecutionContext) (endpoint id : string) (a : McpAgent) :
  sessionId_of endpoint request = id ->
  let answer := handleSseRequest init uuid request e c endpoint a in
  (id = "" -> req_method request <> "GET" ->
     answer = (Ok {| status := 400; body := Text "Missing session ID"; headers := [] |}, a))
  /\ (id <> "" -> sseSessions a !! id = None ->
        answer = (Ok {| status := 404; body := Text "Session not found"; headers := [] |}, a))
  /\ (id <> "" -> is_Some (sseSessions a !! id) ->
        req_method request <> "POST" -> req_method request <> "DELETE" ->
        answer = (Ok {| status := 405; body := Text "Unsupported method"; headers := [] |}, a))
  /\ (id <> "" -> is_Some (sseSessions a !! id) ->
        req_method request = "POST" -> req_json request = None ->
        answer = (Throw BodyNotJson, a)).
Proof.
  intros Hid. simpl. split_and!.
  - intros -> Hmethod. unfold handleSseRequest. rewrite Hid.
    apply String.eqb_neq in Hmethod. by rewrite Hmethod.
  - intros Hne Hs. by apply (handleSseRequest_missing init uuid request e c endpoint id).
  - intros Hne [session Hs] Hpost Hdelete.
    rewrite (handleSseRequest_found init uuid request e c endpoint id session a Hid Hne Hs).
    apply String.eqb_neq in Hpost, Hdelete. by rewrite Hpost, Hdelete.
  - intros Hne [session Hs] Hpost Hbody.
    rewrite (handleSseRequest_found init uuid request e c endpoint id session a Hid Hne Hs).
    by rewrite Hpost, Hbody.
Qed.
End SessionLifecycle.

Lemma opened_session_is_reachable_witness :
  let opening := Sample.sse_request "GET" "/sse" None in
  let post := Sample.sse_request "POST" "/sse/s-1" (Some (JArr [Sample.message 1; Sample.message 2])) in
  let e := Sample.env_of None in
  let a0 := (ensureInitialized Sample.ping_init e 0 new_agent).2 in
  ensureInitialized Sample.ping_init e 0 new_agent = (Ok tt, a0)
  /\ sessionId_of "/sse" opening = ""
  /\ sessionId_of "/sse" post = "s-1"
  /\ exists response a1 evs,
       handleSseRequest Sample.ping_init "s-1" opening e 0 "/sse" new_agent = (Ok response, a1)
       /\ status response = 200
       /\ handleSseRequest Sample.ping_init "s-2" post e 1 "/sse" a1
          = (Ok ok_response, emit evs a1)
       /\ dispatched "s-1" evs = [Sample.message 1; Sample.message 2].
Proof.
  intros opening post e a0.
  assert (H0 : ensureInitialized Sample.ping_init e 0 new_agent = (Ok tt, a0))
    by (vm_compute; reflexivity).
  assert (H1 : sessionId_of "/sse" opening = "") by (vm_compute; reflexivity).
  assert (H2 : sessionId_of "/sse" post = "s-1") by (vm_compute; reflexivity).
  assert (H3 : "s-1" <> "") by discriminate.
  split_and!; [exact H0|exact H1|exact H2|].
  destruct (opened_session_is_reachable Sample.ping_init "s-1" "s-2" opening post e e 0 1
              "/sse" new_agent a0 [Sample.message 1; Sample.message 2]
              eq_refl H1 H0 H3 eq_refl H2 eq_refl)
    as (response & a1 & evs & Hopen & Hstatus & _ & _ & _ & Hpost & _ & Hdispatched).
  exists response, a1, evs. split_and!; [exact Hopen|exact Hstatus|exact Hpost|exact Hdispatched].
Defined.

Lemma delete_closes_only_that_session_witness :
  let request := Sample.sse_request "DELETE" "/sse/s-1" None in
  let session :=
    {| session_id := "s-1"; session_transport := connect (new_sse_transport "s-1");
       stream_open := true; heartbeat_running := true |} in
  sessionId_of "/sse" request = "s-1"
  /\ "s-1" <> ""
  /\ sseSessions Sample.with_session !! "s-1" = Some session
  /\ exists a',
       handleSseRequest Sample.ping_init "s-2" request (Sample.env_of None) 0 "/sse"
         Sample.with_session
       = (Ok {| status := 204; body := NoBody; headers := [] |}, a')
       /\ sseSessions a' !! "s-1" = None.
Proof.
  intros request session.
  assert (H1 : sessionId_of "/sse" request = "s-1") by (vm_compute; reflexivity).
  assert (H2 : "s-1" <> "") by discriminate.
  assert (H3 : sseSessions Sample.with_session !! "s-1" = Some session)
    by (vm_compute; reflexivity).
  split_and!; [exact H1|exact H2|exact H3|].
  destruct (delete_closes_only_that_session Sample.ping_init "s-2" request
              (Sample.env_of None) 0 "/sse" "s-1" session Sample.with_session
              H1 H2 H3 eq_refl)
    as (a' & Hrun & Hgone & _).
  exists a'. split; [exact Hrun|exact Hgone].
Defined.

Lemma rejected_requests_change_nothing_witness :
  let request := Sample.sse_request "PUT" "/sse/s-1" None in
  sessionId_of "/sse" request = "s-1"
  /\ handleSseRequest Sample.ping_init "s-2" request (Sample.env_of None) 0 "/sse"
       Sample.with_session
     = (Ok {| status := 405; body := Text "Unsupported method"; headers := [] |},
        Sample.with_session).
Proof.
  intros request.
  assert (H1 : sessionId_of "/sse" request = "s-1") by (vm_compute; reflexivity).
  split; [exact H1|].
  destruct (rejected_requests_change_nothing Sample.ping_init "s-2" request
              (Sample.env_of None) 0 "/sse" "s-1" Sample.with_session H1)
    as (_ & _ & H405 & _).
  apply H405; [discriminate| |discriminate|discriminate].
  vm_compute. by eexists.
Defined.

(** ** Validation gates the handler; the handler sees the current state *)

Section Gate.
Context {platform : Platform}.
Variable init : M unit.

(** X6.  For a tool with a schema the handler runs only on arguments the
    schema accepts, and it receives the parsed value, not the raw one: a
    rejected argument object makes the invocation throw the validation
    error with the schema's issues, and no handler call takes place. *)
Theorem arguments_are_validated_before_the_handler (a a1 : McpAgent) (name : string)
    (tool : ToolRegistration) (schema : ZodType) (args : jsval)
    (request : option Request) (e : Env) (c : ExecutionContext) :
  ensureInitialized init e c a = (Ok tt, a1) ->
  tools a1 !! name = Some tool ->
  tool_schema tool = Some schema ->
  (forall issues,
      zparse check_ok schema (coalesce args (JObj [])) = Invalid issues ->
      invokeTool init name args request e c a
      = (Throw (ValidationError issues),
         emit [ParseAsync name (coalesce args (JObj []))] a1))
  /\ (forall v,
        zparse check_ok schema (coalesce args (JObj [])) = Valid v ->
        let params :=
          {| hp_args := v; hp_env := env a1; hp_state := state a1;
             hp_request := request; hp_executionCtx := executionCtx a1 |} in
        invokeTool init name args request e c a
        = (run_handler (tool_handler tool) params,
           emit [HandlerCall (tool_name tool) params]
             (emit [ParseAsync name (coalesce args (JObj []))] a1))).
Proof.
  intros Hinit Hname Hschema. split.
  - intros issues Hparse. unfold invokeTool, bind. rewrite Hinit, Hname, Hschema.
    unfold parseAsync. by rewrite Hparse.
  - intros v Hparse. unfold invokeTool, bind. rewrite Hinit, Hname, Hschema.
    unfold parseAsync. by rewrite Hparse.
Qed.

(** X7.  On an initialized agent, a state installed with [setState] is the
    state the handler of the very next invocation is called with, together
    with the environment and the context of that invocation, whatever they
    were before; the update hook has fired exactly once more. *)
Theorem handler_sees_latest_state_and_env (a : McpAgent) (next : AgentState)
    (name : string) (tool : ToolRegistration) (args v : jsval)
    (request : option Request) (e : Env) (c : ExecutionContext) :
  initialized a = true ->
  tools a !! name = Some tool ->
  match tool_schema tool with
  | Some schema => zparse check_ok schema (coalesce args (JObj [])) = Valid v
  | None => v = coalesce args (JObj [])
  end ->
  exists a',
    bind (setState next) (fun _ => invokeTool init name args request e c) a
    = (run_handler (tool_handler tool)
         {| hp_args := v; hp_env := Some e; hp_state := next;
            hp_request := request; hp_executionCtx := Some c |},
       a')
    /\ state a' = next
    /\ state_updates (trace a') = state_updates (trace a) ++ [next]
    /\ tools a' = tools a.
Proof.
  intros Hflag Hname Hparse.
  unfold bind at 1. unfold setState, modify. cbv beta iota.
  unfold invokeTool, bind.
  rewrite ensureInitialized_done by done. cbv beta iota.
  cbn [tools set_env_ctx emit set_state]. rewrite Hname.
  destruct (tool_schema tool) as [schema|].
  - unfold parseAsync. rewrite Hparse. eexists. split; [reflexivity|].
    split_and!; [done| |done]. cbn [trace emit set_env_ctx set_state call_handler snd].
    rewrite !state_updates_app. simpl. by rewrite !app_nil_r.
  - subst v. eexists. split; [reflexivity|].
    split_and!; [done| |done]. cbn [trace emit set_env_ctx set_state call_handler snd ret].
    rewrite !state_updates_app. simpl. by rewrite !app_nil_r.
Qed.
End Gate.

Lemma arguments_are_validated_before_the_handler_witness :
  let init := MyMCP.init (platform := Sample.platform) in
  let e := Sample.env_of (Some "one-nameless-one-forecast") in
  let a1 := (ensureInitialized init e 0 new_agent).2 in
  let tool :=
    registration_of
      (MyMCP.remote_definition Sample.forecast "forecast" "https://tools.example/forecast") in
  let args := JObj [("city", JNum 7)] in
  ensureInitialized init e 0 new_agent = (Ok tt, a1)
  /\ tools a1 !! "forecast" = Some tool
  /\ zparse (check_ok (Platform := Sample.platform)) (remoteToolSchema (Some Sample.forecast_schema)) args
     = Invalid [[Key "city"]; [Key "window"]]
  /\ invokeTool (platform := Sample.platform) init "forecast" args None e 0 new_agent
     = (Throw (ValidationError [[Key "city"]; [Key "window"]]),
        emit [ParseAsync "forecast" args] a1).
Proof.
  intros init e a1 tool args.
  assert (H1 : ensureInitialized init e 0 new_agent = (Ok tt, a1)) by (vm_compute; reflexivity).
  assert (H2 : tools a1 !! "forecast" = Some tool) by (vm_compute; reflexivity).
  assert (H3 : zparse (check_ok (Platform := Sample.platform))
                 (remoteToolSchema (Some Sample.forecast_schema)) args
               = Invalid [[Key "city"]; [Key "window"]]) by (vm_compute; reflexivity).
  split_and!; [exact H1|exact H2|exact H3|].
  exact (proj1 (arguments_are_validated_before_the_handler (platform := Sample.platform)
                  init new_agent a1 "forecast" tool _ args None e 0 H1 H2 eq_refl)
           _ H3).
Defined.

Lemma handler_sees_latest_state_and_env_witness :
  let e := Sample.env_of None in
  let a := (ensureInitialized Sample.ping_init e 0 new_agent).2 in
  let next := {| remoteTools := ["later"] |} in
  initialized a = true
  /\ tools a !! "ping" = Some (registration_of Sample.ping)
  /\ exists a',
       bind (setState next)
         (fun _ => invokeTool (platform := Sample.platform) Sample.ping_init "ping"
                     JUndefined None (Sample.env_of (Some "an-object")) 5) a
       = (Sample.handler_result DurableTask
            {| hp_args := JObj []; hp_env := Some (Sample.env_of (Some "an-object"));
               hp_state := next; hp_request := None; hp_executionCtx := Some 5 |},
          a')
       /\ state a' = next.
Proof.
  intros e a next.
  assert (H1 : initialized a = true) by (vm_compute; reflexivity).
  assert (H2 : tools a !! "ping" = Some (registration_of Sample.ping))
    by (vm_compute; reflexivity).
  split_and!; [exact H1|exact H2|].
  destruct (handler_sees_latest_state_and_env (platform := Sample.platform) Sample.ping_init
              a next "ping" (registration_of Sample.ping) JUndefined (JObj []) None
              (Sample.env_of (Some "an-object")) 5 H1 H2 eq_refl)
    as (a' & Hrun & Hstate & _).
  exists a'. split; [exact Hrun|exact Hstate].
Defined.

(** ** Validator and wire schema side by side *)

Section SideBySide.
Variable check : Check -> jsval -> bool.

Lemma scalarField_not_optional (field : RemoteToolField) (inner : ZodType) :
  scalarField field <> ZOptional inner.
Proof. destruct field as [[] d o its props]; discriminate. Qed.

(** The shape [scalarField] and [registerRemoteTools] build from a property
    record. *)
Lemma shape_lookup (entries : list (string * RemoteToolField)) (k : string) :
  NoDup entries.*1 ->
  obj_lookup k
    (fromEntries
       ((fun kv : string * RemoteToolField =>
           (kv.1, optional_if (field_optional kv.2) (scalarField kv.2))) <$> entries))
  = (fun v => optional_if (field_optional v) (scalarField v)) <$> obj_lookup k entries.
Proof.
  intros Hnd. rewrite fromEntries_nodup.
  - apply (obj_lookup_fmap (fun v => optional_if (field_optional v) (scalarField v))).
  - by rewrite (keys_fmap (fun kv => optional_if (field_optional kv.2) (scalarField kv.2))).
Qed.

Lemma scalarField_object (field : RemoteToolField) :
  field_type field = TyObject ->
  scalarField field
  = ZObject
      (fromEntries
         ((fun kv : string * RemoteToolField =>
             (kv.1, optional_if (field_optional kv.2) (scalarField kv.2)))
            <$> default [] (field_properties field)))
      None.
Proof. destruct field as [ty d o its [entries|]]; simpl; by intros ->. Qed.

(** X8.  The validator and the wire schema of an object level are derived
    from the same flags: a property is listed in [required] exactly when the
    validator's shape holds it unwrapped, and is wrapped in [optional]
    exactly when it is declared and not listed.  This holds for the
    top-level validator of a configured tool and for the validator of every
    object descriptor. *)
Theorem validator_and_wire_schema_agree (entries : list (string * RemoteToolField)) :
  NoDup entries.*1 ->
  exists shape,
    remoteToolSchema (Some entries) = ZObject shape (Some ZAny)
    /\ (forall field, field_type field = TyObject -> field_properties field = Some entries ->
          scalarField field = ZObject shape None
          /\ js_get "required" (jsonSchemaFromField field)
             = JArr (JStr <$> required_keys entries))
    /\ js_get "required" (remoteToolJsonSchema (Some entries))
       = JArr (JStr <$> required_keys entries)
    /\ (forall k, k ∈ required_keys entries <->
          exists z, obj_lookup k shape = Some z /\ forall inner, z <> ZOptional inner)
    /\ (forall k, k ∈ entries.*1 -> k ∉ required_keys entries ->
          exists inner, obj_lookup k shape = Some (ZOptional inner)).
Proof.
  intros Hnd.
  exists (fromEntries
            ((fun kv : string * RemoteToolField =>
                (kv.1, optional_if (field_optional kv.2) (scalarField kv.2))) <$> entries)).
  split; [reflexivity|]. split_and!.
  - intros field Hobj Hprops. split.
    + rewrite (scalarField_object field Hobj), Hprops. reflexivity.
    + rewrite (jsonSchemaFromField_object field Hobj), Hprops. reflexivity.
  - reflexivity.
  - intros k. rewrite (shape_lookup entries k Hnd).
    rewrite (required_keys_spec entries k Hnd). split.
    + intros (v & -> & Hopt). eexists. split; [reflexivity|].
      rewrite Hopt. apply scalarField_not_optional.
    + intros (z & Hz & Hplain). destruct (obj_lookup k entries) as [v|]; [|discriminate].
      exists v. split; [done|]. injection Hz as <-.
      destruct (field_optional v); [|done]. by destruct (Hplain (scalarField v)).
  - intros k Hin Hnot. rewrite (shape_lookup entries k Hnd).
    destruct (obj_lookup k entries) as [v|] eqn:Hk.
    + simpl. destruct (field_optional v) eqn:Hopt; [by eexists|].
      destruct Hnot. apply (required_keys_spec entries k Hnd). by exists v.
    + apply obj_lookup_None in Hk. by destruct Hk.
Qed.

(** X9.  The validator of an object descriptor, as used for every nested
    object, drops what it does not declare: entries under undeclared names
    appended to the input change neither the verdict nor the output.  (Only
    the top level of a configured tool keeps them, see C9.) *)
Theorem nested_object_drops_unknown_keys (field : RemoteToolField)
    (fields extras : list (string * jsval)) :
  field_type field = TyObject ->
  Forall (fun kv => obj_has kv.1 (default [] (field_properties field)) = false) extras ->
  zparse check (scalarField field) (JObj (fields ++ extras))
  = zparse check (scalarField field) (JObj fields).
Proof.
  intros Hobj Hextra. rewrite (scalarField_object field Hobj). cbn [zparse].
  rewrite declared_members_app; [done|].
  eapply Forall_impl; [exact Hextra|]. intros [k x] Hk. simpl in *.
  rewrite obj_has_fromEntries.
  by rewrite (obj_has_fmap (fun kv => optional_if (field_optional kv.2) (scalarField kv.2))).
Qed.

Lemma obj_lookup_filter_ne {A : Type} (k k' : string) (fields : list (string * A)) :
  k' <> k ->
  obj_lookup k' (List.filter (fun kv => negb (String.eqb kv.1 k)) fields)
  = obj_lookup k' fields.
Proof.
  intros Hne. induction fields as [|[k0 v0] rest IH]; [done|]. simpl.
  destruct (String.eqb_spec k0 k) as [->|Hk0]; simpl.
  - apply String.eqb_neq in Hne. by rewrite Hne.
  - by rewrite IH.
Qed.

Lemma extra_entries_filter_declared (shape : list (string * ZodType)) (k : string)
    (fields : list (string * jsval)) :
  obj_has k shape = true ->
  extra_entries shape (List.filter (fun kv => negb (String.eqb kv.1 k)) fields)
  = extra_entries shape fields.
Proof.
  intros Hk. unfold extra_entries.
  induction fields as [|[k0 v0] rest IH]; [done|]. simpl.
  destruct (String.eqb_spec k0 k) as [->|Hk0]; simpl.
  - by rewrite Hk.
  - by rewrite IH.
Qed.

(** A declared member checked by [z.any()] can be left out of the input
    without raising an issue. *)
Lemma any_member_can_be_left_out (shape : list (string * ZodType)) (k : string)
    (fields : list (string * jsval)) :
  (forall t, (k, t) ∈ shape -> t = ZAny) ->
  member_issues
    ((fun kt : string * ZodType =>
        (kt.1, obj_has kt.1 (List.filter (fun kv => negb (String.eqb kv.1 k)) fields),
         zparse check kt.2
           (default JUndefined
              (obj_lookup kt.1 (List.filter (fun kv => negb (String.eqb kv.1 k)) fields)))))
       <$> shape)
  = member_issues
      ((fun kt : string * ZodType =>
          (kt.1, obj_has kt.1 fields,
           zparse check kt.2 (default JUndefined (obj_lookup kt.1 fields))))
         <$> shape).
Proof.
  intros Hany. unfold member_issues. f_equal. rewrite <- !list_fmap_compose.
  apply list_fmap_ext. intros i [k' t] Hi. simpl.
  destruct (decide (k' = k)) as [->|Hne].
  - rewrite (Hany t) by (by apply list_elem_of_lookup_2 in Hi). done.
  - by rewrite obj_lookup_filter_ne.
Qed.

(** X10.  A property that is not marked optional and whose type tag is none
    of the five known ones is listed as required in the wire schema, but
    the validator compiles it to [z.any()] and does not enforce its
    presence: whenever an argument object is accepted, the same object
    without that property is accepted too. *)
Theorem required_property_of_unknown_type_is_not_enforced
    (entries : list (string * RemoteToolField)) (k : string) (v : RemoteToolField)
    (fields : list (string * jsval)) (out : jsval) :
  NoDup entries.*1 ->
  obj_lookup k entries = Some v ->
  field_type v = TyOther ->
  field_optional v = false ->
  zparse check (remoteToolSchema (Some entries)) (JObj fields) = Valid out ->
  k ∈ required_keys entries
  /\ js_get "required" (remoteToolJsonSchema (Some entries))
     = JArr (JStr <$> required_keys entries)
  /\ exists out',
       zparse check (remoteToolSchema (Some entries))
         (JObj (List.filter (fun kv => negb (String.eqb kv.1 k)) fields))
       = Valid out'.
Proof.
  intros Hnd Hk Hty Hopt Hvalid. split_and!.
  - apply (required_keys_spec entries k Hnd). by exists v.
  - reflexivity.
  - revert Hvalid. unfold remoteToolSchema. cbn [zparse from_option id].
    set (shape := fromEntries _).
    assert (Hshape : forall t, (k, t) ∈ shape -> t = ZAny).
    { intros t Hin. unfold shape in Hin. rewrite fromEntries_nodup in Hin
        by (by rewrite (keys_fmap (fun kv => optional_if (field_optional kv.2)
                                               (scalarField kv.2)))).
      apply list_elem_of_fmap in Hin as ([k0 v0] & [= -> ->] & Hin).
      apply (obj_lookup_elem _ _ _ Hnd) in Hin. rewrite Hk in Hin. injection Hin as <-.
      rewrite Hopt. simpl. by destruct v as [[] d o its props]. }
    assert (Hhas : obj_has k shape = true).
    { unfold shape. rewrite obj_has_fromEntries.
      rewrite (obj_has_fmap (fun kv => optional_if (field_optional kv.2) (scalarField kv.2))).
      unfold obj_has. by rewrite Hk. }
    rewrite (extra_entries_filter_declared shape k fields Hhas).
    unfold mergeObject. rewrite !member_issues_app.
    rewrite (any_member_can_be_left_out shape k fields Hshape).
    destruct (_ ++ _); [|discriminate]. intros _. by eexists.
Qed.
End SideBySide.

Lemma validator_and_wire_schema_agree_witness :
  NoDup Sample.forecast_schema.*1
  /\ exists shape,
       remoteToolSchema (Some Sample.forecast_schema) = ZObject shape (Some ZAny)
       /\ (forall k, k ∈ required_keys Sample.forecast_schema <->
             exists z, obj_lookup k shape = Some z /\ forall inner, z <> ZOptional inner).
Proof.
  assert (H : NoDup Sample.forecast_schema.*1) by (apply (proj1 (bool_decide_eq_true _)); reflexivity).
  split; [exact H|].
  destruct (validator_and_wire_schema_agree Sample.forecast_schema H)
    as (shape & Hshape & _ & _ & Hreq & _).
  exists shape. split; [exact Hshape|exact Hreq].
Defined.

Lemma nested_object_drops_unknown_keys_witness :
  let window :=
    mkField TyObject (Some "time window") false None
      (Some [("from", Sample.leaf TyNumber false); ("to", Sample.leaf TyNumber true)]) in
  let extras := [("zone", JStr "UTC")] in
  field_type window = TyObject
  /\ Forall (fun kv => obj_has kv.1 (default [] (field_properties window)) = false) extras
  /\ zparse (fun _ _ => true) (scalarField window) (JObj ([("from", JNum 1)] ++ extras))
     = Valid (JObj [("from", JNum 1)]).
Proof.
  intros window extras.
  assert (H : Forall (fun kv => obj_has kv.1 (default [] (field_properties window)) = false)
                extras) by (repeat constructor).
  split_and!; [reflexivity|exact H|].
  rewrite (nested_object_drops_unknown_keys (fun _ _ => true) window [("from", JNum 1)]
             extras eq_refl H).
  reflexivity.
Defined.

Lemma required_property_of_unknown_type_is_not_enforced_witness :
  let entries :=
    [("query", Sample.leaf TyString false); ("options", Sample.leaf TyOther false)] in
  let fields := [("query", JStr "rain"); ("options", JNum 3)] in
  NoDup entries.*1
  /\ obj_lookup "options" entries = Some (Sample.leaf TyOther false)
  /\ zparse (fun _ _ => true) (remoteToolSchema (Some entries)) (JObj fields)
     = Valid (JObj fields)
  /\ "options" ∈ required_keys entries
  /\ exists out',
       zparse (fun _ _ => true) (remoteToolSchema (Some entries)) (JObj [("query", JStr "rain")])
       = Valid out'.
Proof.
  intros entries fields.
  assert (H1 : NoDup entries.*1) by (apply (proj1 (bool_decide_eq_true _)); reflexivity).
  assert (H2 : zparse (fun _ _ => true) (remoteToolSchema (Some entries)) (JObj fields)
               = Valid (JObj fields)) by reflexivity.
  split_and!; [exact H1|reflexivity|exact H2|..];
    destruct (required_property_of_unknown_type_is_not_enforced (fun _ _ => true) entries
                "options" (Sample.leaf TyOther false) fields (JObj fields)
                H1 eq_refl eq_refl eq_refl H2) as (Hreq & _ & Hless).
  - exact Hreq.
  - exact Hless.
Defined.

(** ** The registry over the life of the agent *)

Section RegistryGrowth.
Context {platform : Platform}.

Lemma registerTool_grows (d : ToolDefinition) (a : McpAgent) :
  tools a ⊆ tools (registerTool d a).2.
Proof.
  unfold registerTool. cbv zeta. destruct (tools a !! def_name d) eqn:H; simpl; [done|].
  by apply insert_subseteq.
Qed.

Lemma bind_grows {A B : Type} (m : M A) (k : A -> M B) :
  (forall a, tools a ⊆ tools (m a).2) ->
  (forall x a, tools a ⊆ tools (k x a).2) ->
  forall a, tools a ⊆ tools (bind m k a).2.
Proof.
  intros Hm Hk a. unfold bind. specialize (Hm a).
  destruct (m a) as [[x|err] a']; simpl in *; [|done].
  etrans; [exact Hm|apply Hk].
Qed.

Lemma register_configs_grows (configs : list jsval) :
  forall registered a, tools a ⊆ tools (MyMCP.register_configs configs registered a).2.
Proof.
  induction configs as [|config rest IH]; intros registered a; simpl; [done|].
  destruct (MyMCP.has_name_and_endpoint config); [|apply IH].
  apply bind_grows; [done|]. intros definition.
  apply bind_grows; [apply registerTool_grows|]. intros _ a'. apply IH.
Qed.

Lemma registerRemoteTools_grows (a : McpAgent) :
  tools a ⊆ tools (MyMCP.registerRemoteTools a).2.
Proof.
  unfold MyMCP.registerRemoteTools. destruct (env a) as [e|]; [|done].
  destruct (MyMCP.truthy (MCP_REMOTE_TOOLS e)) as [raw|]; [|done].
  destruct (JSON_parse raw) as [data|]; [|done].
  apply bind_grows; [apply register_configs_grows|].
  intros [|n names] a'; done.
Qed.

Lemma init_grows (a : McpAgent) : tools a ⊆ tools (MyMCP.init a).2.
Proof.
  unfold MyMCP.init.
  repeat (apply bind_grows; [intros a'; apply registerTool_grows|intros _]).
  apply registerRemoteTools_grows.
Qed.

Lemma ensureInitialized_grows (e : Env) (c : ExecutionContext) (a : McpAgent) :
  tools a ⊆ tools (ensureInitialized MyMCP.init e c a).2.
Proof.
  unfold ensureInitialized. destruct (initialized a); simpl; [done|].
  pose proof (init_grows (emit [InitCall] (set_env_ctx e c a))) as H.
  by destruct (MyMCP.init _) as [[[]|err] a'].
Qed.

(** X11.  No operation of the agent removes a tool from the registry or
    puts another registration in its place: after the lazy initializer, an
    invocation, any split-channel request, a stream cancellation or a
    server-side close, the registry extends the registry before. *)
Theorem registered_tools_stay (a : McpAgent) :
  (forall e c, tools a ⊆ tools (ensureInitialized MyMCP.init e c a).2)
  /\ (forall name args request e c,
        tools a ⊆ tools (invokeTool MyMCP.init name args request e c a).2)
  /\ (forall uuid request e c endpoint,
        tools a ⊆ tools (handleSseRequest MyMCP.init uuid request e c endpoint a).2)
  /\ (forall id, tools (stream_cancel id a).2 = tools a)
  /\ (forall id, tools (server_close id a).2 = tools a).
Proof.
  split_and!.
  - intros e c. apply ensureInitialized_grows.
  - intros name args request e c. unfold invokeTool.
    apply bind_grows; [apply ensureInitialized_grows|]. intros _.
    apply bind_grows; [intros a'; by destruct (tools a' !! name)|]. intros tool.
    apply bind_grows; [|done].
    intros a'. destruct (tool_schema tool) as [schema|]; [|done].
    unfold parseAsync. by destruct (zparse _ _ _).
  - intros uuid request e c endpoint. unfold handleSseRequest.
    destruct (String.eqb (req_method request) "GET" && _).
    + apply bind_grows; [apply ensureInitialized_grows|]. intros _.
      apply bind_grows; done.
    + destruct (String.eqb _ ""); [done|].
      destruct (sseSessions a !! _) as [session|]; [|done].
      destruct (String.eqb (req_method request) "POST").
      * by destruct (req_json request).
      * by destruct (String.eqb (req_method request) "DELETE").
  - intros id. unfold stream_cancel, modify. simpl. by destruct (sseSessions a !! id).
  - intros id. unfold server_close, modify. simpl. by destruct (sseSessions a !! id).
Qed.



End RegistryGrowth.


Section StaysInitialized.
Context {platform : Platform}.
Variable init : M unit.

Lemma init_count_emit (evs : list Event) (a : McpAgent) :
  Forall (fun ev => ev <> InitCall) evs -> init_count (emit evs a) = init_count a.
Proof.
  intros Hevs. unfold init_count. simpl. rewrite List.filter_app, length_app.
  assert (Hnone : List.filter (fun ev => match ev with InitCall => true | _ => false end) evs
                  = []).
  { induction Hevs as [|ev rest Hev _ IH]; [done|]. simpl. by destruct ev. }
  rewrite Hnone. simpl. lia.
Qed.

Lemma same_registry_emit (evs : list Event) (a b : McpAgent) :
  same_registry a b ->
  Forall (fun ev => ev <> InitCall) evs -> same_registry a (emit evs b).
Proof.
  intros (H1 & H2 & H3) Hevs. unfold same_registry.
  rewrite init_count_emit by done. by split_and!.
Qed.

Lemma same_registry_env (e : Env) (c : ExecutionContext) (a : McpAgent) :
  same_registry a (set_env_ctx e c a).
Proof. by unfold same_registry. Qed.

Lemma same_registry_refl (a : McpAgent) : same_registry a a.
Proof. by unfold same_registry. Qed.

Lemma deliver_no_init (id : string) (t : WorkerSseTransport) (messages : list jsval) :
  Forall (fun ev => ev <> InitCall) (deliver id t messages).
Proof.
  unfold deliver, receive. induction messages as [|m rest IH]; [constructor|].
  simpl. destruct (sse_onmessage t); repeat (constructor; [discriminate|]); exact IH.
Qed.

Lemma cleanup_no_init (session : SseSession) :
  Forall (fun ev => ev <> InitCall) (cleanup session).2.
Proof.
  unfold cleanup, transport_close. simpl.
  destruct (stream_open session), (sse_onclose (session_transport session)); simpl;
    repeat (constructor; try discriminate).
Qed.

(** X13.  Once the flag is set, no entry point enters [init] again: the
    lazy initializer, an invocation and every split-channel request leave
    the registry, the flag and the number of [init] runs as they were,
    whatever [init] is. *)
Theorem initialized_agent_stays_initialized (a : McpAgent) :
  initialized a = true ->
  (forall e c, same_registry a (ensureInitialized init e c a).2)
  /\ (forall name args request e c,
        same_registry a (invokeTool init name args request e c a).2)
  /\ (forall uuid request e c endpoint,
        same_registry a (handleSseRequest init uuid request e c endpoint a).2).
Proof.
  intros Hflag. split_and!.
  - intros e c. rewrite ensureInitialized_done by done. apply same_registry_env.
  - intros name args request e c. unfold invokeTool, bind.
    rewrite ensureInitialized_done by done. cbn [tools set_env_ctx].
    destruct (tools a !! name) as [tool|]; [|apply same_registry_env].
    destruct (tool_schema tool) as [schema|].
    + unfold parseAsync. destruct (zparse _ _ _); simpl;
        repeat (apply same_registry_emit; [|repeat constructor; discriminate]);
        apply same_registry_env.
    + simpl. apply same_registry_emit; [|repeat constructor; discriminate].
      apply same_registry_env.
  - intros uuid request e c endpoint. unfold handleSseRequest.
    destruct (String.eqb (req_method request) "GET" && _).
    + unfold bind. rewrite ensureInitialized_done by done. simpl.
      by unfold same_registry.
    + destruct (String.eqb _ ""); [apply same_registry_refl|].
      destruct (sseSessions a !! _) as [session|]; [|apply same_registry_refl].
      destruct (String.eqb (req_method request) "POST").
      * destruct (req_json request); [|apply same_registry_refl].
        apply same_registry_emit; [apply same_registry_refl|apply deliver_no_init].
      * destruct (String.eqb (req_method request) "DELETE"); [|apply same_registry_refl].
        destruct (same_registry_emit (cleanup session).2 a a (same_registry_refl a)
                    (cleanup_no_init session)) as (H1 & H2 & H3).
        by unfold same_registry.
Qed.
End StaysInitialized.

Lemma initialized_agent_stays_initialized_witness :
  let e := Sample.env_of None in
  let a := (ensureInitialized (MyMCP.init (platform := Sample.platform)) e 0 new_agent).2 in
  initialized a = true
  /\ same_registry a
       (invokeTool (platform := Sample.platform) (MyMCP.init (platform := Sample.platform))
          "kv" (JObj [("action", JStr "list")]) None e 1 a).2.
Proof.
  intros e a.
  assert (H : initialized a = true) by (vm_compute; reflexivity).
  split; [exact H|].
  apply (initialized_agent_stays_initialized (platform := Sample.platform)
           (MyMCP.init (platform := Sample.platform)) a H).
Defined.

(** ** Listing and invoking over plain HTTP *)

Section PlainHttp.
Context {platform : Platform}.
Variable zodToJsonSchema : ZodType -> string -> jsval.
Variable runtime_message : Error -> string.




Variable init : M unit.

Lemma api_invoke_value (a : McpAgent) (name : string) (value : jsval) (request : Request)
    (e : Env) (c : ExecutionContext) :
  nullish value = false ->
  api_invoke init runtime_message name (inr value) request e c a
  = match invokeTool init name (coalesce (js_get "arguments" value) (JObj []))
            (Some request) e c a with
    | (Ok result, a') => ({| reply_status := 200; reply_json := result_json result |}, a')
    | (Throw err, a') => (error_reply (error_message runtime_message err), a')
    end.
Proof. by destruct value. Qed.

(** X15.  [POST /api/tools/:name] answers 200 with the result exactly
    when the invocation returns one, and answers every failure with status
    400 and the error's message, leaving the agent as the invocation left
    it: a failure of the lazy initializer, a name that is not registered
    ([Tool <name> not found]), arguments the tool's schema rejects (in which
    case the handler is not called) and an exception of the handler.  A body
    that is not JSON gives 400 without the agent being touched or
    initialized, and so does a body that is [null].  The status is never
    anything but 200 or 400. *)
Theorem api_invoke_reports_failures (a : McpAgent) (name : string) (body : string + jsval)
    (request : Request) (e : Env) (c : ExecutionContext) :
  let answer := api_invoke init runtime_message name body request e c a in
  (reply_status answer.1 = 200 \/ reply_status answer.1 = 400)
  /\ (forall reason, body = inl reason ->
        answer = (error_reply ("Invalid JSON body: " +:+ reason), a))
  /\ (forall value, body = inr value -> nullish value = true ->
        reply_status answer.1 = 400 /\ answer.2 = a)
  /\ (forall value, body = inr value -> nullish value = false ->
        let args := coalesce (js_get "arguments" value) (JObj []) in
        let invocation := invokeTool init name args (Some request) e c a in
        answer.2 = invocation.2
        /\ (forall result, invocation.1 = Ok result ->
              answer.1 = {| reply_status := 200; reply_json := result_json result |})
        /\ (forall err, invocation.1 = Throw err ->
              answer.1 = error_reply (error_message runtime_message err))
        /\ (reply_status answer.1 = 200 <-> exists result, invocation.1 = Ok result)
        /\ (forall err a1, ensureInitialized init e c a = (Throw err, a1) ->
              answer = (error_reply (error_message runtime_message err), a1))
        /\ (forall a1, ensureInitialized init e c a = (Ok tt, a1) ->
              tools a1 !! name = None ->
              answer = (error_reply ("Tool " +:+ name +:+ " not found"), a1))
        /\ (forall a1 tool schema issues,
              ensureInitialized init e c a = (Ok tt, a1) ->
              tools a1 !! name = Some tool ->
              tool_schema tool = Some schema ->
              zparse check_ok schema args = Invalid issues ->
              answer = (error_reply (runtime_message (ValidationError issues)),
                        emit [ParseAsync name args] a1))
        /\ (forall a1 tool parsed,
              ensureInitialized init e c a = (Ok tt, a1) ->
              tools a1 !! name = Some tool ->
              match tool_schema tool with
              | Some schema => zparse check_ok schema args = Valid parsed
              | None => parsed = args
              end ->
              let params :=
                {| hp_args := parsed; hp_env := env a1; hp_state := state a1;
                   hp_request := Some request; hp_executionCtx := executionCtx a1 |} in
              answer.1
              = match run_handler (tool_handler tool) params with
                | Ok result => {| reply_status := 200; reply_json := result_json result |}
                | Throw err => error_reply (error_message runtime_message err)
                end)).
Proof.
  intros answer. split_and!.
  - unfold answer, api_invoke. destruct body as [reason|value]; [by right|].
    destruct value; try (by right);
      destruct (invokeTool _ _ _ _ _ _ _) as [[result|err] a']; simpl; tauto.
  - by intros reason ->.
  - intros value -> Hnull. unfold answer, api_invoke. by destruct value.
  - intros value Hbody Hnull args invocation. unfold answer. rewrite Hbody.
    rewrite (api_invoke_value a name value request e c Hnull). fold args. fold invocation.
    assert (Hargs : coalesce args (JObj []) = args).
    { unfold args, coalesce. by destruct (nullish (js_get "arguments" value)) eqn:H;
        [|rewrite H]. }
    split; [|split; [|split; [|split; [|split_and!]]]].
    + by destruct invocation as [[result|err] a'].
    + intros result. destruct invocation as [[result'|err] a']; simpl; [|done].
      by intros [= ->].
    + intros err. destruct invocation as [[result'|err'] a']; simpl; [done|].
      by intros [= ->].
    + destruct invocation as [[result'|err'] a']; simpl; split; try done.
      * by eexists.
      * by intros [result [=]].
    + intros err a1 Hinit. unfold invocation, invokeTool, bind. by rewrite Hinit.
    + intros a1 Hinit Hname. unfold invocation, invokeTool, bind. by rewrite Hinit, Hname.
    + intros a1 tool schema issues Hinit Hname Hschema Hparse.
      unfold invocation, invokeTool, bind. rewrite Hinit, Hname, Hschema, Hargs.
      unfold parseAsync. by rewrite Hparse.
    + intros a1 tool parsed Hinit Hname Hparsed.
      unfold invocation, invokeTool, bind. rewrite Hinit, Hname, Hargs.
      destruct (tool_schema tool) as [schema|].
      * unfold parseAsync. rewrite Hparsed. unfold call_handler.
        cbn [env state executionCtx emit]. by destruct (run_handler (tool_handler tool) _).
      * subst parsed. unfold ret, call_handler.
        by destruct (run_handler (tool_handler tool) _).
Qed.
End PlainHttp.


Lemma api_invoke_reports_failures_witness :
  let init := MyMCP.init (platform := Sample.platform) in
  let e := Sample.env_of None in
  let request := Sample.sse_request "POST" "/api/tools/kv" None in
  let post := fun name body =>
    (api_invoke (platform := Sample.platform) init (fun _ => "invalid") name (inr body)
       request e 0 new_agent).1 in
  reply_status (post "kv" (JObj [("arguments", JObj [("action", JStr "list")])])) = 200
  /\ post "kv" (JObj [("arguments", JObj [])]) = error_reply "invalid"
  /\ post "nope" (JObj []) = error_reply "Tool nope not found".
Proof.
  intros init e request post. unfold post. split_and!.
  - destruct (api_invoke_reports_failures (platform := Sample.platform) (fun _ => "invalid")
                init new_agent "kv"
                (inr (JObj [("arguments", JObj [("action", JStr "list")])])) request e 0)
      as (_ & _ & _ & H).
    destruct (H _ eq_refl eq_refl) as (_ & _ & _ & Hiff & _).
    apply Hiff. vm_compute. by eexists.
  - destruct (api_invoke_reports_failures (platform := Sample.platform) (fun _ => "invalid")
                init new_agent "kv" (inr (JObj [("arguments", JObj [])])) request e 0)
      as (_ & _ & _ & H).
    destruct (H _ eq_refl eq_refl) as (_ & _ & Hthrow & _).
    apply (Hthrow (ValidationError [[Key "action"]])). vm_compute. reflexivity.
  - destruct (api_invoke_reports_failures (platform := Sample.platform) (fun _ => "invalid")
                init new_agent "nope" (inr (JObj [])) request e 0)
      as (_ & _ & _ & H).
    destruct (H _ eq_refl eq_refl) as (_ & _ & Hthrow & _).
    apply (Hthrow (ToolNotFound "nope")). vm_compute. reflexivity.
Defined.

(** ** The request and the result of a remote tool *)

Section RemoteCallProperties.
Import RemoteCall.
Variable JSON_parse_value : string -> option jsval.
Variable JSON_stringify : jsval -> string.
Variable JSON_stringify_indented : jsval -> string.
Variable toUpperCase : string -> string.
Variable URL_ok : string -> bool.
Variable fetch : FetchCall -> Result FetchResponse.

Lemma obj_lookup_set {A : Type} (k k' : string) (v : A) (o : list (string * A)) :
  obj_lookup k' (obj_set k v o) = if String.eqb k' k then Some v else obj_lookup k' o.
Proof.
  induction o as [|[k0 v0] rest IH]; simpl; [done|].
  destruct (String.eqb_spec k k0) as [->|Hne]; simpl.
  - by destruct (String.eqb k' k0).
  - destruct (String.eqb_spec k' k0) as [->|Hne'].
    + apply String.eqb_neq in Hne. rewrite String.eqb_sym in Hne. by rewrite Hne.
    + exact IH.
Qed.

Lemma obj_lookup_fold_set {A : Type} (k : string) (entries acc : list (string * A)) :
  NoDup entries.*1 ->
  obj_lookup k (fold_left (fun o kv => obj_set kv.1 kv.2 o) entries acc)
  = match obj_lookup k entries with Some v => Some v | None => obj_lookup k acc end.
Proof.
  revert acc. induction entries as [|[k' v] rest IH]; intros acc Hnd; simpl; [done|].
  apply NoDup_cons in Hnd as [Hfresh Hnd]. rewrite IH by done. simpl in *.
  rewrite obj_lookup_set.
  destruct (String.eqb_spec k k') as [->|Hne].
  - apply obj_lookup_None in Hfresh. by rewrite Hfresh.
  - done.
Qed.

(** X16.  The request sent for a configured tool goes to the configured
    endpoint with the upper-cased method, POST when none is configured.
    Every configured header is sent, and [content-type] is
    [application/json] unless the configuration sets that very key.  With
    method GET there is no body, and the query carries the arguments that
    are neither [null] nor [undefined], in their order, strings as they
    are and other values as JSON; with any other method the body is the
    JSON text of the arguments and no query parameter is set. *)
Theorem remote_call_shape (config : RemoteToolConfig) (endpoint : string)
    (fields : list (string * jsval)) :
  NoDup fields.*1 ->
  NoDup (default [] (config_headers config)).*1 ->
  let call := remote_call JSON_stringify toUpperCase config endpoint (JObj fields) in
  call_endpoint call = endpoint
  /\ call_method call = toUpperCase (default "POST" (config_method config))
  /\ (forall k v, obj_lookup k (default [] (config_headers config)) = Some v ->
        obj_lookup k (call_headers call) = Some v)
  /\ (obj_lookup "content-type" (default [] (config_headers config)) = None ->
        obj_lookup "content-type" (call_headers call) = Some "application/json")
  /\ (call_method call = "GET" ->
        call_body call = None
        /\ call_query call
           = omap (fun kv : string * jsval =>
                     if nullish kv.2 then None
                     else Some (kv.1, match kv.2 with
                                      | JStr text => text
                                      | value => JSON_stringify value
                                      end)) fields)
  /\ (call_method call <> "GET" ->
        call_body call = Some (JSON_stringify (JObj fields)) /\ call_query call = []).
Proof.
  intros Hfields Hheaders call.
  assert (Hh : call_headers call = request_headers config).
  { unfold call, remote_call. by destruct (String.eqb _ "GET"). }
  assert (Hm : call_method call = toUpperCase (default "POST" (config_method config))).
  { unfold call, remote_call. by destruct (String.eqb _ "GET"). }
  split_and!.
  - unfold call, remote_call. by destruct (String.eqb _ "GET").
  - exact Hm.
  - intros k v Hk. rewrite Hh. unfold request_headers.
    rewrite obj_lookup_fold_set by done. by rewrite Hk.
  - intros Hk. rewrite Hh. unfold request_headers.
    rewrite obj_lookup_fold_set by done. by rewrite Hk.
  - intros Hget. rewrite Hm in Hget. unfold call, remote_call. rewrite Hget. simpl.
    split; [done|]. unfold query_of. apply fromEntries_nodup.
    clear -Hfields. induction fields as [|[k v] rest IH]; [apply NoDup_nil_2|].
    apply NoDup_cons in Hfields as [Hfresh Hnd]. simpl.
    destruct (nullish v); simpl; [by apply IH|].
    apply NoDup_cons. split; [|by apply IH].
    intros Hin. apply Hfresh. apply list_elem_of_fmap in Hin as ([k' x] & -> & Hin).
    apply list_elem_of_omap in Hin as ([k0 v0] & Hin & Hsome).
    simpl in Hsome. destruct (nullish v0); [discriminate|]. injection Hsome as <- _.
    apply list_elem_of_fmap. by exists (k0, v0).
  - intros Hother. rewrite Hm in Hother. unfold call, remote_call.
    apply String.eqb_neq in Hother. by rewrite Hother.
Qed.

(** [parseResponse] keeps a text that is not JSON as it is. *)
Lemma parseResponse_text (text : string) :
  text <> "" -> JSON_parse_value text = None ->
  parseResponse JSON_parse_value text = JStr text.
Proof.
  intros Hne Hparse. unfold parseResponse. apply String.eqb_neq in Hne.
  by rewrite Hne, Hparse.
Qed.

(** X17.  When the endpoint is accepted as a URL and the request is
    answered, then whatever the answer is, the handler of a configured tool
    returns a result and does not throw: the result is marked as an error
    exactly when the response status is not a success; a body that is
    neither empty nor JSON is passed on as the text, word for word; a
    failed response with an empty body or a JSON body that is not a string
    yields [Remote tool <name> failed with status <status>]; a successful
    response with an empty body yields the JSON text of [null]. *)
Theorem remote_result_of_response (config : RemoteToolConfig) (name endpoint : string)
    (args : jsval) (response : FetchResponse) :
  fetch (remote_call JSON_stringify toUpperCase config endpoint args) = Ok response ->
  URL_ok endpoint = true ->
  exists r,
    remote_handler JSON_parse_value JSON_stringify JSON_stringify_indented toUpperCase
      URL_ok fetch config name endpoint args = Ok r
    /\ isError r = negb (response_ok response)
    /\ metadata_endpoint r = endpoint
    /\ (response_text response <> "" ->
        JSON_parse_value (response_text response) = None ->
        content_text r = response_text response)
    /\ (response_ok response = false ->
        (response_text response = ""
         \/ exists value, JSON_parse_value (response_text response) = Some value
                          /\ forall text, value <> JStr text) ->
        content_text r
        = "Remote tool " +:+ name +:+ " failed with status "
            +:+ pretty (response_status response))
    /\ (response_ok response = true -> response_text response = "" ->
        content_text r = JSON_stringify_indented JNull).
Proof.
  intros Hfetch Hurl. unfold remote_handler. cbv zeta. rewrite Hfetch, Hurl.
  rewrite andb_false_r.
  destruct (response_ok response) eqn:Hok; simpl.
  - eexists. split; [reflexivity|]. split_and!; try done.
    + intros Hne Hparse. simpl. by rewrite parseResponse_text.
    + intros _ ->. by simpl.
  - eexists. split; [reflexivity|]. split_and!; try done.
    + intros Hne Hparse. simpl. by rewrite parseResponse_text.
    + intros _ [->|(value & Hparse & Hvalue)]; simpl; [done|].
      unfold parseResponse. destruct (String.eqb _ ""); [done|].
      rewrite Hparse. destruct value; try done. by destruct (Hvalue s).
Qed.
End RemoteCallProperties.

Lemma remote_call_shape_witness :
  let config :=
    {| config_name := Some "search"; config_description := None;
       config_endpoint := Some "https://tools.example/search";
       config_method := Some "get";
       config_headers := Some [("authorization", "Bearer t")];
       config_schema := None |} in
  let fields := [("q", JStr "rain"); ("page", JNum 2); ("cursor", JNull)] in
  let upper := fun s : string => if String.eqb s "get" then "GET" else s in
  let call :=
    RemoteCall.remote_call (fun _ => "2") upper config "https://tools.example/search"
      (JObj fields) in
  NoDup fields.*1
  /\ NoDup (default [] (config_headers config)).*1
  /\ RemoteCall.call_method call = "GET"
  /\ RemoteCall.call_body call = None
  /\ RemoteCall.call_query call = [("q", "rain"); ("page", "2")].
Proof.
  intros config fields upper call.
  assert (H1 : NoDup fields.*1) by (apply (proj1 (bool_decide_eq_true _)); reflexivity).
  assert (H2 : NoDup (default [] (config_headers config)).*1)
    by (apply (proj1 (bool_decide_eq_true _)); reflexivity).
  split_and!; [exact H1|exact H2|reflexivity|..];
    destruct (remote_call_shape (fun _ => "2") upper config "https://tools.example/search"
                fields H1 H2) as (_ & _ & _ & _ & Hget & _);
    destruct (Hget eq_refl) as [Hbody Hquery].
  - exact Hbody.
  - exact Hquery.
Defined.

Lemma remote_result_of_response_witness :
  let config :=
    {| config_name := Some "search"; config_description := None;
       config_endpoint := Some "https://tools.example/search";
       config_method := None; config_headers := None; config_schema := None |} in
  let fetch := fun _ : RemoteCall.FetchCall =>
    Ok {| RemoteCall.response_ok := false; RemoteCall.response_status := 503;
          RemoteCall.response_text := "" |} in
  exists r,
    RemoteCall.remote_handler (fun _ => None) (fun _ => "{}") (fun _ => "null") id
      (fun _ => true) fetch config "search" "https://tools.example/search" (JObj []) = Ok r
    /\ isError r = true
    /\ content_text r = "Remote tool search failed with status 503".
Proof.
  intros config fetch.
  destruct (remote_result_of_response (fun _ => None) (fun _ => "{}") (fun _ => "null") id
              (fun _ => true) fetch config "search" "https://tools.example/search" (JObj [])
              _ eq_refl eq_refl)
    as (r & Hrun & Herr & _ & _ & Hfailed & _).
  exists r. split_and!; [exact Hrun|exact Herr|].
  rewrite Hfailed; [reflexivity|reflexivity|by left].
Defined.

(** ** The long-running task object *)

Section LongTaskProperties.
Import LongTask.
Variable toISOString : Z -> string.
Variable localeCompare : string -> string -> Z.

Lemma strip_trailing_slashes_keeps (p s : string) :
  s <> "" -> strip_trailing_slashes s = s -> strip_trailing_slashes (p +:+ s) = p +:+ s.
Proof.
  intros Hne Hs. induction p as [|ch p IH]; [done|].
  change (strip_trailing_slashes (String ch (p +:+ s)) = String ch (p +:+ s)).
  cbn [strip_trailing_slashes]. rewrite IH.
  destruct (p +:+ s) eqn:Happ; [|done].
  destruct p; [by destruct Hne|discriminate].
Qed.

(** The path of a single task, for an identifier that is not empty and
    does not end in a slash. *)
Lemma task_path (id : string) :
  id <> "" -> strip_trailing_slashes id = id ->
  let path := strip_trailing_slashes ("/task/" +:+ id) in
  String.eqb path "" || String.eqb path "/task" = false
  /\ String.prefix "/task/" path = true
  /\ remove_first "/task/" path = id.
Proof.
  intros Hne Hid path. unfold path.
  rewrite (strip_trailing_slashes_keeps "/task/" id Hne Hid).
  split_and!.
  - destruct id; [done|]. reflexivity.
  - apply prefix_append.
  - apply remove_first_prefix.
Qed.

Lemma key_inj (id1 id2 : string) :
  STORAGE_PREFIX +:+ id1 = STORAGE_PREFIX +:+ id2 -> id1 = id2.
Proof. apply (inj (String.app STORAGE_PREFIX)). Qed.

(** In an object whose tasks sit under their own keys, [listTasks] is a
    rearrangement of the stored tasks. *)
Lemma listTasks_stored (d : DurableObject) :
  object_ok d -> listTasks localeCompare d ≡ₚ (map_to_list (storage d)).*2.
Proof.
  intros Hok. unfold listTasks. rewrite merge_sort_Permutation.
  apply fmap_Permutation. rewrite merge_sort_Permutation.
  assert (Hall : Forall (fun kv : string * StoredTask =>
                           String.prefix STORAGE_PREFIX kv.1 = true)
                   (map_to_list (storage d))).
  { apply Forall_forall. intros [k t] Hin. apply elem_of_map_to_list in Hin.
    destruct (Hok k t Hin) as [-> _]. simpl. apply prefix_append. }
  induction Hall as [|kv rest Hkv _ IH]; [done|]. simpl. rewrite Hkv. by f_equiv.
Qed.

Lemma elem_of_listTasks (d : DurableObject) (task : StoredTask) :
  object_ok d ->
  task ∈ listTasks localeCompare d <->
  storage d !! (STORAGE_PREFIX +:+ task_id task) = Some task.
Proof.
  intros Hok. rewrite (listTasks_stored d Hok). rewrite list_elem_of_fmap. split.
  - intros ([k t] & -> & Hin). apply elem_of_map_to_list in Hin.
    destruct (Hok k t Hin) as [-> _]. done.
  - intros Hin. exists (STORAGE_PREFIX +:+ task_id task, task). split; [done|].
    by apply elem_of_map_to_list.
Qed.

Lemma listTasks_keys_nodup (d : DurableObject) :
  object_ok d ->
  NoDup ((fun t => STORAGE_PREFIX +:+ task_id t) <$> listTasks localeCompare d).
Proof.
  intros Hok. rewrite (listTasks_stored d Hok).
  assert (Hkeys : (fun t => STORAGE_PREFIX +:+ task_id t) <$> (map_to_list (storage d)).*2
                  = (map_to_list (storage d)).*1).
  { rewrite <- list_fmap_compose. apply list_fmap_ext. intros i [k t] Hi. simpl.
    apply list_elem_of_lookup_2, elem_of_map_to_list in Hi.
    by destruct (Hok k t Hi) as [-> _]. }
  rewrite Hkeys. apply NoDup_fst_map_to_list.
Qed.

(** What the loop of [alarm] makes of a task. *)
Lemma alarm_loop_storage (now : Z) (date_of : string -> Z) (tasks : list StoredTask) :
  forall d next,
    NoDup ((fun t => STORAGE_PREFIX +:+ task_id t) <$> tasks) ->
    (forall t, t ∈ tasks -> storage d !! (STORAGE_PREFIX +:+ task_id t) = Some t) ->
    let d' := (fold_left (alarm_step toISOString now date_of) tasks (d, next)).1 in
    (forall t, t ∈ tasks ->
       storage d' !! (STORAGE_PREFIX +:+ task_id t)
       = Some (if is_running t && (task_runAt t <=? now)%Z
               then completed toISOString (date_of (task_id t)) t else t))
    /\ (forall k, k ∉ (fun t => STORAGE_PREFIX +:+ task_id t) <$> tasks ->
          storage d' !! k = storage d !! k)
    /\ alarm_at d' = alarm_at d.
Proof.
  induction tasks as [|task rest IH]; intros d next Hnd Hstored.
  - simpl. split_and!; [|done|done]. intros t Hin. by apply elem_of_nil in Hin.
  - cbn [fmap list_fmap] in Hnd. apply NoDup_cons in Hnd as [Hfresh Hnd].
    cbn [fold_left]. set (acc := alarm_step toISOString now date_of (d, next) task).
    assert (Hacc : alarm_at acc.1 = alarm_at d
                   /\ storage acc.1 !! (STORAGE_PREFIX +:+ task_id task)
                      = Some (if is_running task && (task_runAt task <=? now)%Z
                              then completed toISOString (date_of (task_id task)) task
                              else task)
                   /\ forall k, k <> STORAGE_PREFIX +:+ task_id task ->
                                storage acc.1 !! k = storage d !! k).
    { unfold acc, alarm_step.
      destruct (is_running task && (task_runAt task <=? now)%Z) eqn:Hdue.
      - simpl. rewrite lookup_insert_eq. split_and!; [done|done|].
        intros k Hk. by rewrite lookup_insert_ne.
      - assert (Hsame : (if is_running task
                         then (d, Some match next with
                                       | Some n => if (n =? 0)%Z then task_runAt task
                                                   else Z.min n (task_runAt task)
                                       | None => task_runAt task
                                       end)
                         else (d, next)).1 = d) by by destruct (is_running task).
        rewrite Hsame. split_and!; [done| |done].
        apply Hstored, list_elem_of_here. }
    destruct Hacc as (Halarm & Hthis & Hother).
    destruct acc as [d1 next1]. simpl in Halarm, Hthis, Hother.
    destruct (IH d1 next1 Hnd) as (Hrest & Hframe & Halarm').
    { intros t Hin. rewrite Hother.
      - apply Hstored. by apply list_elem_of_further.
      - intros Heq. apply Hfresh. rewrite <- Heq. apply list_elem_of_fmap. by exists t. }
    split_and!.
    + intros t Hin. apply elem_of_cons in Hin as [->|Hin]; [|by apply Hrest].
      rewrite Hframe by done. exact Hthis.
    + intros k Hk. cbn [fmap list_fmap] in Hk. apply not_elem_of_cons in Hk as [Hk1 Hk2].
      rewrite Hframe by done. by apply Hother.
    + by rewrite Halarm'.
Qed.

Lemma alarm_storage_unfold (now : Z) (date_of : string -> Z) (d : DurableObject) :
  storage (alarm toISOString localeCompare now date_of d)
  = storage (fold_left (alarm_step toISOString now date_of) (listTasks localeCompare d)
               (d, None)).1.
Proof.
  unfold alarm. destruct (fold_left _ _ _) as [d' [n|]]; [|done].
  by destruct (n =? 0)%Z.
Qed.

Lemma alarm_storage (now : Z) (date_of : string -> Z) (d : DurableObject) (key : string) :
  object_ok d ->
  storage (alarm toISOString localeCompare now date_of d) !! key
  = (fun task =>
       if is_running task && (task_runAt task <=? now)%Z
       then completed toISOString (date_of (task_id task)) task
       else task) <$> storage d !! key.
Proof.
  intros Hok. rewrite alarm_storage_unfold.
  destruct (alarm_loop_storage now date_of (listTasks localeCompare d) d None
              (listTasks_keys_nodup d Hok)) as (Hlisted & Hframe & _).
  { intros t Ht. by apply elem_of_listTasks. }
  destruct (storage d !! key) as [task|] eqn:Hkey.
  - destruct (Hok key task Hkey) as [-> _]. simpl. apply Hlisted.
    by apply elem_of_listTasks.
  - simpl. rewrite Hframe; [done|].
    intros Hin. apply list_elem_of_fmap in Hin as (t & -> & Ht).
    apply elem_of_listTasks in Ht; [|done]. by rewrite Ht in Hkey.
Qed.

(** The [nextRunAt] the loop of [alarm] ends with, started from
    [undefined]: the least due time among the waiting tasks. *)
Lemma alarm_loop_next (now : Z) (date_of : string -> Z) (tasks : list StoredTask) :
  forall d next,
    (forall t, t ∈ tasks -> is_waiting now t = true -> task_runAt t <> 0%Z) ->
    (forall n, next = Some n -> n <> 0%Z) ->
    match (fold_left (alarm_step toISOString now date_of) tasks (d, next)).2 with
    | None => next = None /\ forall t, t ∈ tasks -> is_waiting now t = false
    | Some m =>
        m <> 0%Z
        /\ (forall t, t ∈ tasks -> is_waiting now t = true -> (m <= task_runAt t)%Z)
        /\ (forall n, next = Some n -> (m <= n)%Z)
        /\ (next = Some m
            \/ exists t, t ∈ tasks /\ is_waiting now t = true /\ task_runAt t = m)
    end.
Proof.
  induction tasks as [|task rest IH]; intros d next Hnonzero Hnext.
  - simpl. destruct next as [n|].
    + split_and!; [by apply Hnext| |by intros ? [= ->]|by left].
      intros t Hin. by apply elem_of_nil in Hin.
    + split; [done|]. intros t Hin. by apply elem_of_nil in Hin.
  - cbn [fold_left]. unfold alarm_step at 2.
    assert (Hrest : forall t, t ∈ rest -> is_waiting now t = true -> task_runAt t <> 0%Z).
    { intros t Hin. apply Hnonzero. by apply list_elem_of_further. }
    destruct (is_running task && (task_runAt task <=? now)%Z) eqn:Hdue.
    { assert (Hw : is_waiting now task = false).
      { unfold is_waiting. apply andb_true_iff in Hdue as [-> ->]. done. }
      specialize (IH (putTask (completed toISOString (date_of (task_id task)) task) d)
                    next Hrest Hnext).
      destruct (fold_left _ rest _).2 as [m|].
      - destruct IH as (Hm & Hmin & Hle & Hwit). split_and!; [done| |done|].
        + intros t Hin Ht. apply elem_of_cons in Hin as [->|Hin]; [congruence|by apply Hmin].
        + destruct Hwit as [?|(t & Hin & Ht & Hr)]; [by left|right].
          exists t. split; [by apply list_elem_of_further|done].
      - destruct IH as [-> Hnone]. split; [done|].
        intros t Hin. apply elem_of_cons in Hin as [->|Hin]; [done|by apply Hnone]. }
    destruct (is_running task) eqn:Hrun.
    + assert (Hw : is_waiting now task = true).
      { unfold is_waiting. rewrite Hrun. simpl in *. by rewrite Hdue. }
      pose proof (Hnonzero task (list_elem_of_here _ _) Hw) as Hr.
      set (next1 := match next with
                    | Some n => if (n =? 0)%Z then task_runAt task
                                else Z.min n (task_runAt task)
                    | None => task_runAt task
                    end).
      assert (Hnext1 : next1 <> 0%Z /\ (next1 <= task_runAt task)%Z
                       /\ (forall n, next = Some n -> (next1 <= n)%Z)
                       /\ (next = Some next1 \/ next1 = task_runAt task)).
      { unfold next1. destruct next as [n|].
        - pose proof (Hnext n eq_refl) as Hn. apply Z.eqb_neq in Hn. rewrite Hn.
          apply Z.eqb_neq in Hn. split_and!; [lia|lia|intros ? [= <-]; lia|].
          destruct (Z.min_spec n (task_runAt task)) as [[_ ->]|[_ ->]]; [by left|by right].
        - split_and!; [done|lia|done|by right]. }
      destruct Hnext1 as (Hz & Hle1 & Hle2 & Hor).
      specialize (IH d (Some next1) Hrest).
      destruct (fold_left _ rest _).2 as [m|].
      * destruct IH as (Hm & Hmin & Hle & Hwit); [by intros ? [= <-]|].
        specialize (Hle next1 eq_refl). split_and!; [done| | |].
        -- intros t Hin Ht. apply elem_of_cons in Hin as [->|Hin]; [lia|by apply Hmin].
        -- intros n Hn. specialize (Hle2 n Hn). lia.
        -- destruct Hwit as [[= ->]|(t & Hin & Ht & Hrt)].
           ++ destruct Hor as [?|Heq]; [by left|right].
              exists task. split_and!; [apply list_elem_of_here|done|done].
           ++ right. exists t. split; [by apply list_elem_of_further|done].
      * destruct IH as [Hcontra _]; [by intros ? [= <-]|discriminate].
    + assert (Hw : is_waiting now task = false) by (unfold is_waiting; by rewrite Hrun).
      specialize (IH d next Hrest Hnext).
      destruct (fold_left _ rest _).2 as [m|].
      * destruct IH as (Hm & Hmin & Hle & Hwit). split_and!; [done| |done|].
        -- intros t Hin Ht. apply elem_of_cons in Hin as [->|Hin]; [congruence|by apply Hmin].
        -- destruct Hwit as [?|(t & Hin & Ht & Hr)]; [by left|right].
           exists t. split; [by apply list_elem_of_further|done].
      * destruct IH as [-> Hnone]. split; [done|].
        intros t Hin. apply elem_of_cons in Hin as [->|Hin]; [done|by apply Hnone].
Qed.

(** *** The invariant of the stored tasks *)

Lemma object_ok_put (task : StoredTask) (d : DurableObject) :
  object_ok d -> task_ok (STORAGE_PREFIX +:+ task_id task) task -> object_ok (putTask task d).
Proof.
  intros Hok Htask key t. unfold putTask. simpl.
  destruct (decide (key = STORAGE_PREFIX +:+ task_id task)) as [->|Hne].
  - rewrite lookup_insert_eq. by intros [= <-].
  - rewrite lookup_insert_ne by done. apply Hok.
Qed.

Lemma clamp_duration_bounds (requested : option Z) :
  (100 <= clamp_duration requested <= 60000)%Z.
Proof. unfold clamp_duration. lia. Qed.

Lemma task_ok_completed (key : string) (date : Z) (task : StoredTask) :
  task_ok key task -> task_ok key (completed toISOString date task).
Proof.
  intros (Hkey & _ & Hduration & _ & _ & Herror). unfold task_ok. simpl.
  split_and!; [done|by right; left|lia|lia|done|by eexists|done].
Qed.

Lemma task_ok_cancelled (key : string) (date : Z) (task : StoredTask) :
  task_ok key task -> task_ok key (cancelled toISOString date task).
Proof.
  intros (Hkey & _ & Hduration & _ & _ & Herror). unfold task_ok. simpl.
  split_and!; [done|by right; right|lia|lia|done|done|done].
Qed.

Lemma object_ok_alarm (now : Z) (date_of : string -> Z) (d : DurableObject) :
  object_ok d -> object_ok (alarm toISOString localeCompare now date_of d).
Proof.
  intros Hok key task'. rewrite (alarm_storage now date_of d key Hok).
  destruct (storage d !! key) as [task|] eqn:Hkey; [|discriminate]. simpl.
  intros [= <-]. specialize (Hok key task Hkey).
  destruct (is_running task && _); [by apply task_ok_completed|done].
Qed.

Lemma object_ok_fetch (request : TaskRequest) (uuid : string) (date clock : Z)
    (d : DurableObject) :
  object_ok d -> object_ok (fetch toISOString localeCompare request uuid date clock d).2.
Proof.
  intros Hok. unfold fetch. cbv zeta.
  destruct (String.eqb (tr_method request) "POST").
  { destruct (_ || _); [|done]. destruct (tr_payload request) as [payload|]; [|done].
    simpl. intros key t. simpl.
    destruct (decide (key = STORAGE_PREFIX +:+ uuid)) as [->|Hne].
    - rewrite lookup_insert_eq. intros [= <-]. unfold task_ok. simpl.
      pose proof (clamp_duration_bounds (payload_durationMs payload)).
      split_and!; [done|by left|lia|lia|done|done|done].
    - rewrite lookup_insert_ne by done. apply Hok. }
  destruct (String.eqb (tr_method request) "GET").
  { destruct (_ || _); [done|]. destruct (String.prefix _ _); [|done].
    by destruct (getTask _ d). }
  destruct (String.eqb (tr_method request) "DELETE"); [|done].
  destruct (String.prefix _ _); [|done].
  destruct (getTask _ d) as [task|] eqn:Hget; [|done]. simpl.
  apply object_ok_put; [done|]. simpl.
  unfold getTask in Hget. destruct (Hok _ _ Hget) as [Hkey _].
  apply task_ok_cancelled. rewrite <- Hkey. by apply Hok.
Qed.

Lemma run_operations_ok (ops : list Operation) :
  object_ok (run_operations toISOString localeCompare ops).
Proof.
  unfold run_operations.
  assert (H : forall d, object_ok d ->
                object_ok (fold_left (run_operation toISOString localeCompare) ops d)).
  { induction ops as [|op rest IH]; intros d Hd; [done|]. simpl. apply IH.
    destruct op; simpl; [by apply object_ok_fetch|by apply object_ok_alarm]. }
  apply H. intros key task. unfold empty_object. simpl. by rewrite lookup_empty.
Qed.

(** X18.  When the alarm fires, every stored task that is running and due
    is stored as completed, with the result message naming its operation
    and with its data; every other task, and so every completed or
    cancelled one, is left exactly as it was, and no key appears or
    disappears. *)
Theorem alarm_completes_exactly_the_due_tasks (now : Z) (date_of : string -> Z)
    (d : DurableObject) (key : string) :
  object_ok d ->
  storage (alarm toISOString localeCompare now date_of d) !! key
  = (fun task =>
       if is_running task && (task_runAt task <=? now)%Z
       then completed toISOString (date_of (task_id task)) task
       else task) <$> storage d !! key.
Proof. apply alarm_storage. Qed.

(** X19.  When the alarm has run at a time [now >= 0], the object is
    re-armed for the earliest due time among the tasks still waiting, which
    lies after [now]; when no task is waiting no alarm is set. *)
Theorem alarm_rearms_for_the_earliest_waiting_task (now : Z) (date_of : string -> Z)
    (d : DurableObject) :
  object_ok d ->
  (0 <= now)%Z ->
  let d' := alarm toISOString localeCompare now date_of d in
  ((forall key task, storage d !! key = Some task -> is_waiting now task = false) ->
   alarm_at d' = alarm_at d)
  /\ (forall key task, storage d !! key = Some task -> is_waiting now task = true ->
        exists m key' task',
          alarm_at d' = Some m
          /\ (now < m)%Z
          /\ storage d !! key' = Some task'
          /\ is_waiting now task' = true
          /\ task_runAt task' = m
          /\ forall key'' task'',
               storage d !! key'' = Some task'' -> is_waiting now task'' = true ->
               (m <= task_runAt task'')%Z).
Proof.
  intros Hok Hnow d'.
  assert (Hwaiting : forall t, is_waiting now t = true -> (now < task_runAt t)%Z).
  { intros t Ht. unfold is_waiting in Ht. apply andb_true_iff in Ht as [_ Ht].
    apply negb_true_iff, Z.leb_gt in Ht. lia. }
  destruct (alarm_loop_storage now date_of (listTasks localeCompare d) d None
              (listTasks_keys_nodup d Hok)) as (_ & _ & Halarm).
  { intros t Ht. by apply elem_of_listTasks. }
  assert (Hnext := alarm_loop_next now date_of (listTasks localeCompare d) d None).
  unfold d', alarm.
  destruct (fold_left _ _ _) as [d1 next1]. simpl in Halarm, Hnext.
  assert (Hstored : forall key task, storage d !! key = Some task ->
                                     task ∈ listTasks localeCompare d).
  { intros key task Hkey. apply elem_of_listTasks; [done|].
    by destruct (Hok key task Hkey) as [<- _]. }
  assert (Hlisted : forall task, task ∈ listTasks localeCompare d ->
                                 storage d !! (STORAGE_PREFIX +:+ task_id task) = Some task).
  { intros task. by apply elem_of_listTasks. }
  assert (Hnonzero : forall t, t ∈ listTasks localeCompare d ->
                               is_waiting now t = true -> task_runAt t <> 0%Z).
  { intros t _ Ht. apply Hwaiting in Ht. lia. }
  specialize (Hnext Hnonzero (fun n (H : None = Some n) => match H with end)).
  destruct next1 as [m|].
  - destruct Hnext as (Hm & Hmin & _ & Hwit). apply Z.eqb_neq in Hm. rewrite Hm.
    destruct Hwit as [?|(t & Hin & Ht & Hr)]; [discriminate|]. split.
    + intros Hnobody. specialize (Hnobody _ t (Hlisted t Hin)). congruence.
    + intros key task Hkey Hw. exists m, (STORAGE_PREFIX +:+ task_id t), t.
      split_and!; [done| |by apply Hlisted|done|done|].
      * rewrite <- Hr. by apply Hwaiting.
      * intros key'' task'' Hkey'' Hw''. apply Hmin; [by eapply Hstored|done].
  - destruct Hnext as [_ Hnone]. split.
    + intros _. exact Halarm.
    + intros key task Hkey Hw. specialize (Hnone task (Hstored key task Hkey)). congruence.
Qed.

(** X20.  Whatever requests arrive and whenever the alarm fires, starting
    from the empty object, every stored task sits under the key made from
    its own identifier, has a duration between 100 and 60000 milliseconds,
    carries a result once completed and none while running, and is running,
    completed or cancelled: the statuses [queued] and [failed] never occur,
    and no task ever carries an error. *)
Theorem stored_tasks_stay_well_formed (ops : list Operation) :
  object_ok (run_operations toISOString localeCompare ops)
  /\ forall key task,
       storage (run_operations toISOString localeCompare ops) !! key = Some task ->
       task_status task <> Failed /\ task_status task <> Queued /\ task_error task = None.
Proof.
  split; [apply run_operations_ok|].
  intros key task Hkey. destruct (run_operations_ok ops key task Hkey)
    as (_ & Hstatus & _ & _ & _ & Herror).
  split_and!; [|  |done]; intros Heq; rewrite Heq in Hstatus; by destruct Hstatus as [?|[?|?]].
Qed.

(** X21.  A POST to the collection stores a running task under the fresh
    identifier and answers 201 with it.  Its duration is the requested one
    clamped to the range from 100 to 60000 milliseconds (100 for a request
    below, 60000 for a request above, the request itself in between), 1500
    when none is requested; it is due that long after the clock reading, and the one
    alarm of the object is set to that time, replacing a pending alarm.
    The task can be read back under its identifier, and no other task is
    touched. *)
Theorem started_task_is_stored_and_scheduled (request : TaskRequest) (payload : Payload)
    (uuid : string) (date clock : Z) (d : DurableObject) :
  tr_method request = "POST" ->
  strip_trailing_slashes (tr_pathname request) = ""
  \/ strip_trailing_slashes (tr_pathname request) = "/task" ->
  tr_payload request = Some payload ->
  uuid <> "" ->
  strip_trailing_slashes uuid = uuid ->
  exists task d',
    fetch toISOString localeCompare request uuid date clock d
    = (Ok {| tr_status := 201; tr_body := TaskBody task |}, d')
    /\ task_id task = uuid
    /\ task_status task = Running
    /\ (100 <= task_durationMs task <= 60000)%Z
    /\ (payload_durationMs payload = None -> task_durationMs task = 1500%Z)
    /\ (forall r, payload_durationMs payload = Some r -> (100 <= r <= 60000)%Z ->
          task_durationMs task = r)
    /\ (forall r, payload_durationMs payload = Some r -> (r < 100)%Z ->
          task_durationMs task = 100%Z)
    /\ (forall r, payload_durationMs payload = Some r -> (60000 < r)%Z ->
          task_durationMs task = 60000%Z)
    /\ task_runAt task = (clock + task_durationMs task)%Z
    /\ alarm_at d' = Some (task_runAt task)
    /\ (forall date' clock' uuid',
          fetch toISOString localeCompare
            {| tr_method := "GET"; tr_pathname := "/task/" +:+ uuid; tr_payload := None |}
            uuid' date' clock' d'
          = (Ok {| tr_status := 200; tr_body := TaskBody task |}, d'))
    /\ (forall id, id <> uuid -> getTask id d' = getTask id d).
Proof.
  intros Hpost Hpath Hpayload Hne Hclean.
  unfold fetch at 1. cbv zeta. rewrite Hpost. cbn [String.eqb Ascii.eqb Bool.eqb].
  assert (Hcollection : String.eqb (strip_trailing_slashes (tr_pathname request)) ""
                        || String.eqb (strip_trailing_slashes (tr_pathname request)) "/task"
                        = true).
  { destruct Hpath as [->| ->]; reflexivity. }
  rewrite Hcollection, Hpayload. unfold startTask. cbv zeta.
  do 2 eexists. split; [reflexivity|]. cbn [task_id task_status task_durationMs task_runAt].
  pose proof (clamp_duration_bounds (payload_durationMs payload)) as Hbounds.
  split_and!; [reflexivity|reflexivity|lia|lia| | | | |reflexivity|reflexivity| |].
  - intros ->. reflexivity.
  - intros r -> Hr. unfold clamp_duration. simpl. lia.
  - intros r -> Hr. unfold clamp_duration. simpl. lia.
  - intros r -> Hr. unfold clamp_duration. simpl. lia.
  - intros date' clock' uuid'. unfold fetch. cbv zeta. cbn [tr_method tr_pathname].
    destruct (task_path uuid Hne Hclean) as (Hnot & Hsingle & Hid).
    cbn [String.eqb Ascii.eqb Bool.eqb]. rewrite Hnot, Hsingle, Hid.
    unfold getTask, setAlarm, putTask. simpl. by rewrite lookup_insert_eq.
  - intros id Hid. unfold getTask, setAlarm, putTask. simpl.
    rewrite lookup_insert_ne; [done|]. intros Heq. by apply key_inj in Heq.
Qed.

(** X22.  A DELETE on a stored task answers 200 with the task marked
    cancelled, whatever its status was, a completed task included, and
    leaves the pending alarm alone; from then on no alarm changes the task:
    a cancelled task is never completed. *)
Theorem cancelled_task_is_never_completed (id uuid : string) (date clock : Z)
    (d : DurableObject) (task : StoredTask) :
  object_ok d ->
  getTask id d = Some task ->
  id <> "" ->
  strip_trailing_slashes id = id ->
  exists d',
    fetch toISOString localeCompare
      {| tr_method := "DELETE"; tr_pathname := "/task/" +:+ id; tr_payload := None |}
      uuid date clock d
    = (Ok {| tr_status := 200; tr_body := TaskBody (cancelled toISOString date task) |}, d')
    /\ task_status (cancelled toISOString date task) = Cancelled
    /\ getTask id d' = Some (cancelled toISOString date task)
    /\ alarm_at d' = alarm_at d
    /\ forall now date_of,
         getTask id (alarm toISOString localeCompare now date_of d')
         = Some (cancelled toISOString date task).
Proof.
  intros Hok Hget Hne Hclean.
  assert (Hid : task_id task = id).
  { unfold getTask in Hget. destruct (Hok _ _ Hget) as [Hkey _]. by apply key_inj in Hkey. }
  assert (Hrun : (fetch toISOString localeCompare
                    {| tr_method := "DELETE"; tr_pathname := "/task/" +:+ id;
                       tr_payload := None |} uuid date clock d)
                 = (Ok {| tr_status := 200;
                          tr_body := TaskBody (cancelled toISOString date task) |},
                    putTask (cancelled toISOString date task) d)).
  { unfold fetch. cbv zeta. cbn [tr_method tr_pathname].
    destruct (task_path id Hne Hclean) as (Hnot & Hsingle & Hpath).
    cbn [String.eqb Ascii.eqb Bool.eqb]. by rewrite Hsingle, Hpath, Hget. }
  assert (Hstored : getTask id (putTask (cancelled toISOString date task) d)
                    = Some (cancelled toISOString date task)).
  { unfold getTask, putTask. simpl. rewrite Hid. by rewrite lookup_insert_eq. }
  eexists. split; [exact Hrun|]. split_and!; [done|exact Hstored|done|].
  intros now date_of. unfold getTask. rewrite alarm_storage.
  - unfold getTask in Hstored. by rewrite Hstored.
  - pose proof (object_ok_fetch {| tr_method := "DELETE"; tr_pathname := "/task/" +:+ id;
                                   tr_payload := None |} uuid date clock d Hok) as Hok'.
    by rewrite Hrun in Hok'.
Qed.
(** X23.  A GET on the collection answers 200 with the stored tasks: a task
    is listed exactly when it is stored under its identifier, no identifier
    is listed twice, there are as many tasks in the list as entries in the
    storage, the object is left as it was, and when the collation compares
    any two texts one way or the other, the list is in the order of the
    creation times. *)
Theorem collection_lists_the_stored_tasks (request : TaskRequest) (uuid : string)
    (date clock : Z) (d : DurableObject) :
  object_ok d ->
  tr_method request = "GET" ->
  strip_trailing_slashes (tr_pathname request) = ""
  \/ strip_trailing_slashes (tr_pathname request) = "/task" ->
  exists tasks,
    fetch toISOString localeCompare request uuid date clock d
    = (Ok {| tr_status := 200; tr_body := TasksBody tasks |}, d)
    /\ (forall task, task ∈ tasks <-> getTask (task_id task) d = Some task)
    /\ NoDup (task_id <$> tasks)
    /\ length tasks = size (storage d)
    /\ ((forall a b, (localeCompare a b <= 0)%Z \/ (localeCompare b a <= 0)%Z) ->
        Sorted (created_before localeCompare) tasks).
Proof.
  intros Hok Hget Hpath. unfold fetch. cbv zeta. rewrite Hget.
  cbn [String.eqb Ascii.eqb Bool.eqb].
  assert (Hcollection : String.eqb (strip_trailing_slashes (tr_pathname request)) ""
                        || String.eqb (strip_trailing_slashes (tr_pathname request)) "/task"
                        = true).
  { destruct Hpath as [->| ->]; reflexivity. }
  rewrite Hcollection. eexists. split; [reflexivity|]. split_and!.
  - intros task. unfold getTask. by apply elem_of_listTasks.
  - apply (NoDup_fmap_1 (String.app STORAGE_PREFIX)). rewrite <- list_fmap_compose.
    by apply listTasks_keys_nodup.
  - rewrite (listTasks_stored d Hok). by rewrite length_fmap, length_map_to_list.
  - intros Htotal. unfold listTasks.
    assert (Hcmp : Total (created_before localeCompare)) by (intros t1 t2; apply Htotal).
    exact (Sorted_merge_sort (created_before localeCompare) (Total0 := Hcmp) _).
Qed.

(** X24.  Only two requests change the object: a POST that is answered 201
    with the started task, and a DELETE that is answered 200 with the
    cancelled task.  A GET, a request answered 404 or 405, and a POST whose
    body is not JSON, which makes [fetch] throw, leave the storage and the
    alarm as they were. *)
Theorem only_accepted_writes_change_the_object (request : TaskRequest) (uuid : string)
    (date clock : Z) (d : DurableObject) :
  (fetch toISOString localeCompare request uuid date clock d).2 <> d ->
  exists task,
    (fetch toISOString localeCompare request uuid date clock d).1
    = Ok {| tr_status := if String.eqb (tr_method request) "POST" then 201 else 200;
            tr_body := TaskBody task |}
    /\ (tr_method request = "POST" /\ task_status task = Running
        \/ tr_method request = "DELETE" /\ task_status task = Cancelled).
Proof.
  unfold fetch. cbv zeta.
  destruct (String.eqb (tr_method request) "POST") eqn:Hpost.
  { apply String.eqb_eq in Hpost.
    destruct (_ || _); [|done]. destruct (tr_payload request) as [payload|]; [|done].
    intros _. eexists. split; [reflexivity|]. by left. }
  destruct (String.eqb (tr_method request) "GET") eqn:Hget.
  { destruct (_ || _); [done|]. destruct (String.prefix _ _); [|done].
    by destruct (getTask _ d). }
  destruct (String.eqb (tr_method request) "DELETE") eqn:Hdelete; [|done].
  apply String.eqb_eq in Hdelete.
  destruct (String.prefix _ _); [|done].
  destruct (getTask _ d) as [task|]; [|done].
  intros _. eexists. split; [reflexivity|]. by right.
Qed.
End LongTaskProperties.

Lemma alarm_completes_exactly_the_due_tasks_witness :
  let compare := fun a b : string =>
    match String.compare a b with Lt => (-1)%Z | Eq => 0%Z | Gt => 1%Z end in
  let d := LongTask.run_operations pretty compare
             [LongTask.Fetch
                (LongTask.mkTaskRequest "POST" "/task"
                   (Some (LongTask.mkPayload "resize" JNull (Some 250%Z))))
                "t-1" 0 1000] in
  LongTask.object_ok d
  /\ LongTask.task_status
       <$> LongTask.storage (LongTask.alarm pretty compare 2000 (fun _ => 2000%Z) d)
           !! "task:t-1"
     = Some LongTask.Completed.
Proof.
  intros compare d.
  assert (Hok : LongTask.object_ok d) by apply run_operations_ok.
  split; [exact Hok|].
  rewrite (alarm_completes_exactly_the_due_tasks pretty compare 2000 (fun _ => 2000%Z) d
             "task:t-1" Hok).
  reflexivity.
Defined.

Lemma alarm_rearms_for_the_earliest_waiting_task_witness :
  let compare := fun a b : string =>
    match String.compare a b with Lt => (-1)%Z | Eq => 0%Z | Gt => 1%Z end in
  let d := LongTask.run_operations pretty compare
             [LongTask.Fetch
                (LongTask.mkTaskRequest "POST" "/task"
                   (Some (LongTask.mkPayload "resize" JNull (Some 250%Z))))
                "t-1" 0 1000;
              LongTask.Fetch
                (LongTask.mkTaskRequest "POST" "/task"
                   (Some (LongTask.mkPayload "encode" JNull None)))
                "t-2" 5 1010] in
  LongTask.object_ok d
  /\ (0 <= 1100)%Z
  /\ exists m,
       LongTask.alarm_at (LongTask.alarm pretty compare 1100 (fun _ => 1100%Z) d) = Some m
       /\ (1100 < m)%Z.
Proof.
  intros compare d.
  assert (Hok : LongTask.object_ok d) by apply run_operations_ok.
  split; [exact Hok|]. split; [lia|].
  destruct (alarm_rearms_for_the_earliest_waiting_task pretty compare 1100
              (fun _ => 1100%Z) d Hok ltac:(lia)) as [_ Hwaiting].
  destruct (Hwaiting "task:t-1"
              (LongTask.mkTask "t-1" LongTask.Running "resize" JNull (pretty 0%Z) (pretty 0%Z)
                 1250 250 None None) eq_refl eq_refl)
    as (m & _ & _ & Halarm & Hlater & _).
  exists m. by split.
Defined.

Lemma started_task_is_stored_and_scheduled_witness :
  let compare := fun a b : string =>
    match String.compare a b with Lt => (-1)%Z | Eq => 0%Z | Gt => 1%Z end in
  let request :=
    LongTask.mkTaskRequest "POST" "/task/"
      (Some (LongTask.mkPayload "encode" JNull (Some 5%Z))) in
  exists task d',
    LongTask.fetch pretty compare request "t-1" 0 1000 LongTask.empty_object
    = (Ok {| LongTask.tr_status := 201; LongTask.tr_body := LongTask.TaskBody task |}, d')
    /\ LongTask.task_durationMs task = 100%Z
    /\ LongTask.alarm_at d' = Some 1100%Z
    /\ LongTask.fetch pretty compare (LongTask.mkTaskRequest "GET" "/task/t-1" None)
         "t-2" 5 1010 d'
       = (Ok {| LongTask.tr_status := 200; LongTask.tr_body := LongTask.TaskBody task |}, d').
Proof.
  intros compare request.
  destruct (started_task_is_stored_and_scheduled pretty compare request
              (LongTask.mkPayload "encode" JNull (Some 5%Z)) "t-1" 0 1000
              LongTask.empty_object
              eq_refl (or_intror eq_refl) eq_refl ltac:(discriminate) eq_refl)
    as (task & d' & Hrun & Hid & _ & _ & _ & _ & Hbelow & _ & HrunAt & Halarm & Hget & _).
  exists task, d'. specialize (Hbelow 5%Z eq_refl ltac:(lia)).
  split_and!; [exact Hrun|exact Hbelow|by rewrite Halarm, HrunAt, Hbelow|].
  exact (Hget 5%Z 1010%Z "t-2").
Defined.

Lemma cancelled_task_is_never_completed_witness :
  let compare := fun a b : string =>
    match String.compare a b with Lt => (-1)%Z | Eq => 0%Z | Gt => 1%Z end in
  let d := LongTask.run_operations pretty compare
             [LongTask.Fetch
                (LongTask.mkTaskRequest "POST" "/task"
                   (Some (LongTask.mkPayload "resize" JNull (Some 250%Z))))
                "t-1" 0 1000] in
  let task :=
    LongTask.mkTask "t-1" LongTask.Running "resize" JNull (pretty 0%Z) (pretty 0%Z)
      1250 250 None None in
  LongTask.object_ok d
  /\ LongTask.getTask "t-1" d = Some task
  /\ exists d',
       (LongTask.fetch pretty compare
          (LongTask.mkTaskRequest "DELETE" "/task/t-1" None) "t-9" 7 1100 d).2 = d'
       /\ LongTask.task_status
            <$> LongTask.getTask "t-1"
                  (LongTask.alarm pretty compare 5000 (fun _ => 5000%Z) d')
          = Some LongTask.Cancelled.
Proof.
  intros compare d task.
  assert (Hok : LongTask.object_ok d) by apply run_operations_ok.
  split; [exact Hok|]. split; [reflexivity|].
  destruct (cancelled_task_is_never_completed pretty compare "t-1" "t-9" 7 1100 d task
              Hok eq_refl ltac:(discriminate) eq_refl)
    as (d' & Hrun & Hstatus & _ & _ & Hlater).
  exists d'. split.
  - change ("/task/" +:+ "t-1") with "/task/t-1" in Hrun. by rewrite Hrun.
  - by rewrite Hlater, <- Hstatus.
Defined.

Lemma collection_lists_the_stored_tasks_witness :
  let compare := fun a b : string =>
    match String.compare a b with Lt => (-1)%Z | Eq => 0%Z | Gt => 1%Z end in
  let d := LongTask.run_operations pretty compare
             [LongTask.Fetch
                (LongTask.mkTaskRequest "POST" "/task"
                   (Some (LongTask.mkPayload "resize" JNull (Some 250%Z))))
                "t-1" 0 1000;
              LongTask.Fetch
                (LongTask.mkTaskRequest "POST" "/task"
                   (Some (LongTask.mkPayload "encode" JNull None)))
                "t-2" 5 1010] in
  LongTask.object_ok d
  /\ exists tasks,
       LongTask.fetch pretty compare (LongTask.mkTaskRequest "GET" "/task/" None)
         "t-3" 9 1020 d
       = (Ok {| LongTask.tr_status := 200; LongTask.tr_body := LongTask.TasksBody tasks |}, d)
       /\ length tasks = 2
       /\ Sorted (LongTask.created_before compare) tasks.
Proof.
  intros compare d.
  assert (Hok : LongTask.object_ok d) by apply run_operations_ok.
  split; [exact Hok|].
  destruct (collection_lists_the_stored_tasks pretty compare
              (LongTask.mkTaskRequest "GET" "/task/" None) "t-3" 9 1020 d
              Hok eq_refl (or_intror eq_refl))
    as (tasks & Hrun & _ & _ & Hlength & Hsorted).
  exists tasks. split_and!; [exact Hrun|by rewrite Hlength|].
  apply Hsorted. intros a b. unfold compare. rewrite (String.compare_antisym a b).
  destruct (String.compare b a); simpl; lia.
Defined.

Lemma only_accepted_writes_change_the_object_witness :
  let compare := fun a b : string =>
    match String.compare a b with Lt => (-1)%Z | Eq => 0%Z | Gt => 1%Z end in
  let request :=
    LongTask.mkTaskRequest "POST" "" (Some (LongTask.mkPayload "encode" JNull None)) in
  (LongTask.fetch pretty compare request "t-1" 0 1000 LongTask.empty_object).2
  <> LongTask.empty_object
  /\ exists task,
       (LongTask.fetch pretty compare request "t-1" 0 1000 LongTask.empty_object).1
       = Ok {| LongTask.tr_status := 201; LongTask.tr_body := LongTask.TaskBody task |}.
Proof.
  intros compare request.
  assert (Hchanged : (LongTask.fetch pretty compare request "t-1" 0 1000
                        LongTask.empty_object).2 <> LongTask.empty_object)
    by discriminate.
  split; [exact Hchanged|].
  destruct (only_accepted_writes_change_the_object pretty compare request "t-1" 0 1000
              LongTask.empty_object Hchanged) as (task & Hrun & _).
  by exists task.
Defined.
